(** * The queue orchestrator of [scripts/orchestrate_queue.py]

    A shallow embedding of the orchestrator: Python strings and paths, the
    JSON queue, task loading, the ready set, the admission pass, the
    completion pass, and the event loop, followed by the properties of the
    specification that concern them. *)

From Stdlib Require Import List String Ascii ZArith Lia Bool Arith.
From Stdlib Require Import Sorting.Sorted Sorting.Permutation.
From Stdlib Require Import Numbers.DecimalString.
Import ListNotations.

Open Scope string_scope.
Open Scope list_scope.

Set Implicit Arguments.

(** ** Python strings

    A [str] is modelled by [string]; a character is a code point below 256,
    so the character classes below are Python's restricted to that range. *)

Module PyStr.

Local Open Scope nat_scope.

Definition code (c : ascii) : nat := nat_of_ascii c.

(** [str.isspace] on one character: TAB..CR, FS..US, SPACE, NEL, NBSP. *)
Definition is_space (c : ascii) : bool :=
  let n := code c in
  ((9 <=? n) && (n <=? 13)) || ((28 <=? n) && (n <=? 32))
  || (n =? 133) || (n =? 160).

Fixpoint lstrip (s : string) : string :=
  match s with
  | String c r => if is_space c then lstrip r else s
  | EmptyString => EmptyString
  end.

Fixpoint rstrip (s : string) : string :=
  match s with
  | String c r =>
      match rstrip r with
      | EmptyString => if is_space c then EmptyString else String c EmptyString
      | r' => String c r'
      end
  | EmptyString => EmptyString
  end.

(** [s.strip()] *)
Definition strip (s : string) : string := rstrip (lstrip s).

Definition lower_char (c : ascii) : ascii :=
  let n := code c in
  if ((65 <=? n) && (n <=? 90))
     || ((192 <=? n) && (n <=? 222) && negb (n =? 215))
  then ascii_of_nat (n + 32) else c.

(** [str.upper] on one character.  The three characters below 256 whose
    upper case lies outside the range (181, 223, 255) are left as they are;
    none of them becomes a character of "N/A", the only text the
    orchestrator compares an upper-cased string with. *)
Definition upper_char (c : ascii) : ascii :=
  let n := code c in
  if ((97 <=? n) && (n <=? 122))
     || ((224 <=? n) && (n <=? 254) && negb (n =? 247))
  then ascii_of_nat (n - 32) else c.

Fixpoint map_chars (f : ascii -> ascii) (s : string) : string :=
  match s with
  | String c r => String (f c) (map_chars f r)
  | EmptyString => EmptyString
  end.

Definition lower : string -> string := map_chars lower_char.
Definition upper : string -> string := map_chars upper_char.

(** [s.startswith(p)] *)
Definition startswith (s p : string) : bool := String.prefix p s.

(** [s.endswith(p)] *)
Definition endswith (s p : string) : bool :=
  let n := String.length s in
  let k := String.length p in
  (k <=? n) && String.eqb (String.substring (n - k) k s) p.

(** [sub in s] *)
Fixpoint contains (sub s : string) : bool :=
  String.prefix sub s
  || match s with
     | String _ r => contains sub r
     | EmptyString => false
     end.

(** [sep.join(parts)] *)
Fixpoint join (sep : string) (parts : list string) : string :=
  match parts with
  | [] => ""
  | [p] => p
  | p :: rest => (p ++ sep ++ join sep rest)%string
  end.

(** [s.split(sep)] for a one-character separator. *)
Fixpoint split_char (sep : ascii) (s : string) : list string :=
  match s with
  | EmptyString => [""]
  | String c r =>
      if Ascii.eqb c sep then "" :: split_char sep r
      else match split_char sep r with
           | p :: ps => String c p :: ps
           | [] => [String c ""]
           end
  end.

(** [s.split(sep, 1)] for a one-character separator that occurs in [s]:
    the text before the first separator and the text after it. *)
Fixpoint split_once (sep : ascii) (s : string) : string * string :=
  match s with
  | EmptyString => ("", "")
  | String c r =>
      if Ascii.eqb c sep then ("", r)
      else let (k, v) := split_once sep r in (String c k, v)
  end.

(** Line boundaries of [str.splitlines]: LF, VT, FF, CR, FS, GS, RS, NEL
    (and CR LF as one boundary). *)
Definition is_linebreak (c : ascii) : bool :=
  let n := code c in
  ((10 <=? n) && (n <=? 13)) || ((28 <=? n) && (n <=? 30)) || (n =? 133).

(** [splitlines_from cur s] splits [s], [cur] being the characters of the
    line under way, newest first. *)
Fixpoint splitlines_from (cur : list ascii) (s : string) : list string :=
  match s with
  | EmptyString =>
      match cur with
      | [] => []
      | _ => [string_of_list_ascii (rev cur)]
      end
  | String c r =>
      if is_linebreak c then
        string_of_list_ascii (rev cur) ::
        match r with
        | String c' r' =>
            if (code c =? 13) && (code c' =? 10)
            then splitlines_from [] r'
            else splitlines_from [] r
        | EmptyString => []
        end
      else splitlines_from (c :: cur) r
  end.

(** [s.splitlines()] *)
Definition splitlines (s : string) : list string := splitlines_from [] s.

(** [str(n)] for an integer. *)
Definition of_Z (n : Z) : string := NilZero.string_of_int (Z.to_int n).

Definition of_nat (n : nat) : string := of_Z (Z.of_nat n).

(** [x in xs] for a list or set of strings. *)
Definition mem (x : string) (xs : list string) : bool :=
  existsb (String.eqb x) xs.

End PyStr.

(** ** Paths

    [pathlib.PurePosixPath]: a root and the components after it.  Empty
    components and [.] are dropped when a path is built. *)

Module Path.

Record t := mk { root : string; parts : list string }.

Definition root_of (s : string) : string :=
  if PyStr.startswith s "///" then "/"
  else if PyStr.startswith s "//" then "//"
  else if PyStr.startswith s "/" then "/"
  else EmptyString.

Definition keep_part (p : string) : bool :=
  negb (String.eqb p EmptyString) && negb (String.eqb p ".").

(** [Path(s)] *)
Definition parse (s : string) : t :=
  mk (root_of s) (filter keep_part (PyStr.split_char "/" s)).

(** [str(p)] *)
Definition str (p : t) : string :=
  match root p, parts p with
  | EmptyString, [] => "."
  | r, ps => (r ++ PyStr.join "/" ps)%string
  end.

(** [p / s] *)
Definition join (p : t) (s : string) : t :=
  let q := parse s in
  if String.eqb (root q) EmptyString then mk (root p) (parts p ++ parts q) else q.

(** [p.name] *)
Definition name (p : t) : string := last (parts p) EmptyString.

(** [p.parent] *)
Definition parent (p : t) : t := mk (root p) (removelast (parts p)).

Fixpoint strip_prefix (base ps : list string) : option (list string) :=
  match base, ps with
  | [], _ => Some ps
  | b :: base', x :: ps' => if String.eqb b x then strip_prefix base' ps' else None
  | _ :: _, [] => None
  end.

(** [p.relative_to(base)]; [None] stands for the [ValueError]. *)
Definition relative_to (p base : t) : option t :=
  if String.eqb (root p) (root base) then
    option_map (mk EmptyString) (strip_prefix (parts base) (parts p))
  else None.

Fixpoint collapse (acc ps : list string) : list string :=
  match ps with
  | [] => rev acc
  | p :: ps' =>
      if String.eqb p ".." then collapse (tl acc) ps' else collapse (p :: acc) ps'
  end.

(** [p.resolve()] for an absolute [p] in a file system without symbolic
    links: the [..] components are folded away. *)
Definition resolve (p : t) : t := mk (root p) (collapse [] (parts p)).

End Path.

Declare Scope path_scope.
Delimit Scope path_scope with path.
Infix "//" := Path.join (at level 40, left associativity) : path_scope.

(** ** Python dictionaries

    A [dict] keeps its keys in insertion order; association lists whose
    first binding of a key is the live one. *)

Module Dict.

Section Ops.
Variable V : Type.

Fixpoint get (k : string) (d : list (string * V)) : option V :=
  match d with
  | [] => None
  | (k', v) :: d' => if String.eqb k k' then Some v else get k d'
  end.

(** [d[k] = v] *)
Fixpoint set (k : string) (v : V) (d : list (string * V)) : list (string * V) :=
  match d with
  | [] => [(k, v)]
  | (k', v') :: d' =>
      if String.eqb k k' then (k', v) :: d' else (k', v') :: set k v d'
  end.

(** [d.update(u)] *)
Definition update (d u : list (string * V)) : list (string * V) :=
  fold_left (fun acc kv => set (fst kv) (snd kv) acc) u d.

(** [d.pop(k, None)], the dictionary that is left. *)
Fixpoint remove (k : string) (d : list (string * V)) : list (string * V) :=
  match d with
  | [] => []
  | (k', v) :: d' => if String.eqb k k' then d' else (k', v) :: remove k d'
  end.

Definition keys (d : list (string * V)) : list string := map fst d.

(** [k in d] *)
Definition has (k : string) (d : list (string * V)) : bool :=
  match get k d with Some _ => true | None => false end.

End Ops.

End Dict.

(** ** JSON values and Python's view of them

    The value [json.loads] returns.  Numbers are the integers; a JSON object
    is the [dict] it loads to. *)

#[warnings="-register-all"]
Inductive json : Type :=
| JNull
| JBool (b : bool)
| JNum (n : Z)
| JStr (s : string)
| JArr (xs : list json)
| JObj (kv : list (string * json)).

Definition dict := list (string * json).

(** Exceptions the orchestrator can raise or let through. *)
Inductive exn : Type :=
| TypeError (msg : string)
| KeyError (msg : string)
| ValueError (msg : string)
| RuntimeError (msg : string)
| OSError (msg : string)
| JSONDecodeError
| ReError
| CalledProcessError (cmd : list string) (rc : Z).

Inductive res (A : Type) : Type :=
| Ok (a : A)
| Raise (e : exn).

Arguments Ok {A} a.
Arguments Raise {A} e.

(** Truth value of a Python object. *)
Definition truthy (j : json) : bool :=
  match j with
  | JNull => false
  | JBool b => b
  | JNum n => negb (n =? 0)%Z
  | JStr s => negb (String.eqb s EmptyString)
  | JArr xs => match xs with [] => false | _ => true end
  | JObj kv => match kv with [] => false | _ => true end
  end.

(** [t.get(k) or d] *)
Definition get_or (t : dict) (k : string) (d : json) : json :=
  match Dict.get k t with
  | Some v => if truthy v then v else d
  | None => d
  end.

(** [t.get(k, d)] *)
Definition get_default (t : dict) (k : string) (d : json) : json :=
  match Dict.get k t with
  | Some v => v
  | None => d
  end.

Definition is_dict (j : json) : bool :=
  match j with JObj _ => true | _ => false end.

(** [[t for t in xs if isinstance(t, dict)]] *)
Fixpoint dicts_of (xs : list json) : list dict :=
  match xs with
  | [] => []
  | JObj kv :: xs' => kv :: dicts_of xs'
  | _ :: xs' => dicts_of xs'
  end.

(** The items a [for] loop over a value visits: the elements of a list, the
    characters of a string, the keys of a dict; [None] for a value that is
    not iterable ([TypeError]). *)
Definition py_iter (j : json) : option (list json) :=
  match j with
  | JArr xs => Some xs
  | JStr s => Some (map (fun c => JStr (String c EmptyString)) (list_ascii_of_string s))
  | JObj kv => Some (map (fun p => JStr (fst p)) kv)
  | JNull | JBool _ | JNum _ => None
  end.

(** ** The orchestrator *)

Section Orchestrator.

(** Python renders a list or a dict with [repr]; the text is left open. *)
Variable py_repr : json -> string.

(** [int(s)] for a string [s]; [None] stands for the [ValueError]. *)
Variable py_int_of_str : string -> option Z.

(** [re.compile(p)]: [None] for a pattern that does not compile, else the
    test [lambda s: rx.search(s) is not None]. *)
Variable re_compile : string -> option (string -> bool).

(** [str(x)] *)
Definition py_str (j : json) : string :=
  match j with
  | JNull => "None"
  | JBool true => "True"
  | JBool false => "False"
  | JNum n => PyStr.of_Z n
  | JStr s => s
  | JArr _ | JObj _ => py_repr j
  end.

(** [int(x)] for a value other than [None]; [None] stands for the
    exception. *)
Definition py_int (j : json) : option Z :=
  match j with
  | JNum n => Some n
  | JBool b => Some (if b then 1 else 0)%Z
  | JStr s => py_int_of_str s
  | JNull | JArr _ | JObj _ => None
  end.

Definition queue_type_error : exn :=
  TypeError "Queue JSON must be an array of tasks or an object with a 'tasks' array.".

Definition not_iterable : exn := TypeError "object is not iterable".

Definition _queue_tasks (payload : json) : res (list dict) :=
  match payload with
  | JObj kv =>
      match py_iter (get_default kv "tasks" (JArr [])) with
      | Some tasks => Ok (dicts_of tasks)
      | None => Raise not_iterable
      end
  | JArr xs => Ok (dicts_of xs)
  | _ => Raise queue_type_error
  end.

(** The id a record is known by: [str(t.get("id", "")).strip()]. *)
Definition record_id (t : dict) : string :=
  PyStr.strip (py_str (get_default t "id" (JStr EmptyString))).

(** The loop of [_update_task] over the elements of the task list: the first
    dict whose id is [task_id] is updated where it stands; [None] when the
    loop runs to its end. *)
Fixpoint update_first (task_id : string) (updates : dict) (xs : list json)
  : option (list json) :=
  match xs with
  | [] => None
  | JObj kv :: xs' =>
      if String.eqb (record_id kv) task_id
      then Some (JObj (Dict.update kv updates) :: xs')
      else option_map (cons (JObj kv)) (update_first task_id updates xs')
  | x :: xs' => option_map (cons x) (update_first task_id updates xs')
  end.

Definition task_not_found (task_id : string) : exn :=
  KeyError ("Task not found: " ++ task_id).

(** [_update_task] changes the payload in place; here it returns the payload
    after the change. *)
Definition _update_task (payload : json) (task_id : string) (updates : dict)
  : res json :=
  match payload with
  | JObj kv =>
      match get_default kv "tasks" (JArr []) with
      | JArr xs =>
          match update_first task_id updates xs with
          | Some xs' => Ok (JObj (Dict.set "tasks" (JArr xs') kv))
          | None => Raise (task_not_found task_id)
          end
      | JStr _ | JObj _ => Raise (task_not_found task_id)
      | JNull | JBool _ | JNum _ => Raise not_iterable
      end
  | JArr xs =>
      match update_first task_id updates xs with
      | Some xs' => Ok (JArr xs')
      | None => Raise (task_not_found task_id)
      end
  | _ => Raise queue_type_error
  end.

Definition _derive_workstream_id (t : dict) : string :=
  let ws := PyStr.strip (py_str (get_or t "workstream_id" (JStr EmptyString))) in
  if negb (String.eqb ws EmptyString) then ws
  else
    let typ := PyStr.lower (PyStr.strip (py_str (get_or t "type" (JStr EmptyString)))) in
    if String.eqb typ "code" then "WS-CODE"
    else if String.eqb typ "test" then "WS-TEST"
    else if String.eqb typ "integration" then "WS-INT"
    else "WS-DEFAULT".

Definition _normalize_status (s : string) : string :=
  let v := PyStr.lower (PyStr.strip s) in
  if PyStr.mem v ["todo"; "pending"] then "pending"
  else if PyStr.mem v ["in_progress"; "in-progress"] then "in_progress"
  else if PyStr.mem v ["done"; "completed"; "complete"] then "completed"
  else if PyStr.mem v ["blocked"] then "blocked"
  else if PyStr.mem v ["deferred"] then "deferred"
  else if String.eqb v EmptyString then "pending" else v.

Record Task : Type := mkTask {
  id : string;
  index : nat;
  order : Z;
  status : string;
  depends_on : list string;
  kickoff_ref : string;
  type : string;
  worktree : string;
  workstream_id : string
}.

(** The status [_load_tasks] gives a record. *)
Definition record_status (t : dict) : string :=
  _normalize_status (py_str (get_or t "status" (JStr "pending"))).

Definition default_order (idx : nat) : Z := ((Z.of_nat idx + 1) * 10)%Z.

Definition record_order (idx : nat) (t : dict) : Z :=
  match Dict.get "order" t with
  | None | Some JNull => default_order idx
  | Some v =>
      match py_int v with
      | Some n => n
      | None => default_order idx
      end
  end.

(** [[str(d) for d in (t.get("depends_on") or []) if str(d).strip()]] *)
Definition record_depends_on (t : dict) : res (list string) :=
  match py_iter (get_or t "depends_on" (JArr [])) with
  | Some ds =>
      Ok (filter (fun d => negb (String.eqb (PyStr.strip d) EmptyString))
                 (map py_str ds))
  | None => Raise not_iterable
  end.

(** One turn of the loop of [_load_tasks]: [None] for a record that is
    passed over. *)
Definition load_record (idx : nat) (t : dict) : res (option Task) :=
  let task_id := record_id t in
  if String.eqb task_id EmptyString then Ok None
  else
    let order_int := record_order idx t in
    match record_depends_on t with
    | Raise e => Raise e
    | Ok deps =>
        Ok (Some {|
          id := task_id;
          index := idx;
          order := order_int;
          status := record_status t;
          depends_on := deps;
          kickoff_ref := PyStr.strip (py_str (get_or t "kickoff_prompt" (JStr EmptyString)));
          type := PyStr.strip (py_str (get_or t "type" (JStr EmptyString)));
          worktree := PyStr.strip (py_str (get_or t "worktree" (JStr EmptyString)));
          workstream_id := _derive_workstream_id t
        |})
    end.

Fixpoint load_from (idx : nat) (ts : list dict) : res (list Task) :=
  match ts with
  | [] => Ok []
  | t :: ts' =>
      match load_record idx t with
      | Raise e => Raise e
      | Ok o =>
          match load_from (S idx) ts' with
          | Raise e => Raise e
          | Ok out => Ok (match o with Some x => x :: out | None => out end)
          end
      end
  end.

Definition _load_tasks (payload : json) : res (list Task) :=
  match _queue_tasks payload with
  | Raise e => Raise e
  | Ok tasks_raw => load_from 0 tasks_raw
  end.

(** [sorted(xs, key=lambda x: x.order)]: the sort is stable, an element goes
    in front of the elements after it that have the same key. *)
Fixpoint insert_by_order (t : Task) (l : list Task) : list Task :=
  match l with
  | [] => [t]
  | u :: l' =>
      if (order t <=? order u)%Z then t :: u :: l'
      else u :: insert_by_order t l'
  end.

Definition sorted_by_order (l : list Task) : list Task :=
  fold_right insert_by_order [] l.

Definition deps_done (done : list string) (t : Task) : bool :=
  forallb (fun dep => PyStr.mem dep done) (depends_on t).

Definition is_runnable (done : list string) (t : Task) : bool :=
  String.eqb (status t) "pending" && deps_done done t.

Definition _runnable_tasks (tasks : list Task) (done : list string) : list Task :=
  sorted_by_order (filter (is_runnable done) tasks).

(** [set.add] *)
Definition set_add (x : string) (s : list string) : list string :=
  if PyStr.mem x s then s else s ++ [x].

Definition _active_workstreams (payload : json) : res (list string) :=
  match _queue_tasks payload with
  | Raise e => Raise e
  | Ok ts =>
      Ok (fold_left
            (fun active t =>
               if String.eqb
                    (_normalize_status (py_str (get_or t "status" (JStr EmptyString))))
                    "in_progress"
               then set_add (_derive_workstream_id t) active
               else active)
            ts [])
  end.

Definition _role_label (task_type : string) : string :=
  let v := PyStr.lower (PyStr.strip task_type) in
  if String.eqb v "code" then "Code"
  else if String.eqb v "test" then "Test"
  else if String.eqb v "integration" then "Integration"
  else "Agent".

Definition _looks_like_path (s0 : string) : bool :=
  let s := PyStr.strip s0 in
  (PyStr.contains "/" s || PyStr.endswith s ".md" || PyStr.endswith s ".txt")
  && negb (PyStr.startswith s "#").


(** *** The world the orchestrator runs in

    The queue file and the session log are kept apart from the other files:
    the queue file by the JSON value its text decodes to, every other file by
    its text.  A git command that changes the repository and a process that
    is started are recorded in the order they are issued.  [w_ext] is what
    the orchestrator can only observe: the clock, the refs of the
    repository, the process table. *)

Variable Ext : Type.

Inductive fnode : Type :=
| File (text : string)
| Directory.

Record World : Type := mkWorld {
  w_queue : option json;
  w_slog : option string;
  w_fs : list (string * fnode);
  w_git : list (list string);
  w_procs : list (list string);
  w_out : list string;
  w_err : list string;
  w_ext : Ext
}.

Definition with_queue (q : option json) (w : World) : World :=
  mkWorld q (w_slog w) (w_fs w) (w_git w) (w_procs w) (w_out w) (w_err w) (w_ext w).

Definition with_slog (l : option string) (w : World) : World :=
  mkWorld (w_queue w) l (w_fs w) (w_git w) (w_procs w) (w_out w) (w_err w) (w_ext w).

Definition with_fs (f : list (string * fnode)) (w : World) : World :=
  mkWorld (w_queue w) (w_slog w) f (w_git w) (w_procs w) (w_out w) (w_err w) (w_ext w).

Definition with_git (g : list (list string)) (w : World) : World :=
  mkWorld (w_queue w) (w_slog w) (w_fs w) g (w_procs w) (w_out w) (w_err w) (w_ext w).

Definition with_procs (ps : list (list string)) (w : World) : World :=
  mkWorld (w_queue w) (w_slog w) (w_fs w) (w_git w) ps (w_out w) (w_err w) (w_ext w).

Definition with_out (o : list string) (w : World) : World :=
  mkWorld (w_queue w) (w_slog w) (w_fs w) (w_git w) (w_procs w) o (w_err w) (w_ext w).

Definition with_err (o : list string) (w : World) : World :=
  mkWorld (w_queue w) (w_slog w) (w_fs w) (w_git w) (w_procs w) (w_out w) o (w_ext w).

(** [datetime.now(timezone.utc)] in the two formats the orchestrator
    prints. *)
Variable utc_now : Ext -> string.
Variable now_minute : Ext -> string.

(** Return code and standard output of a git command run in the repository
    root. *)
Variable git : World -> list string -> Z * string.

(** [proc.poll()] of the supervisor started as the [n]th process. *)
Variable poll : Ext -> nat -> option Z.

(** What the rest of the system does while the orchestrator waits for a
    command that changes the repository, starts a process, or watches the
    run root: git moves refs and working trees, supervisors and workers
    write their files and exit, time passes.  It gives the files and the
    outside state that result.  The queue file and the session log are
    written by the orchestrator alone, so they are not among them. *)
Variable env : World -> list (string * fnode) * Ext.

Definition env_step (w : World) : World :=
  mkWorld (w_queue w) (w_slog w) (fst (env w)) (w_git w) (w_procs w) (w_out w)
          (w_err w) (snd (env w)).

(** *** A state and exception monad over the world *)

Definition M (A : Type) : Type := World -> res A * World.

Definition ret {A : Type} (a : A) : M A := fun w => (Ok a, w).

Definition bind {A B : Type} (m : M A) (k : A -> M B) : M B :=
  fun w =>
    match m w with
    | (Ok a, w') => k a w'
    | (Raise e, w') => (Raise e, w')
    end.

Definition raise {A : Type} (e : exn) : M A := fun w => (Raise e, w).

Definition lift {A : Type} (r : res A) : M A := fun w => (r, w).

Definition gets {A : Type} (f : World -> A) : M A := fun w => (Ok (f w), w).

Definition modify (f : World -> World) : M unit := fun w => (Ok tt, f w).

Notation "x <- m ;; k" := (bind m (fun x => k))
  (at level 100, m at next level, right associativity).
Notation "m ;;; k" := (bind m (fun _ => k))
  (at level 100, right associativity).

Definition when (b : bool) (m : M unit) : M unit := if b then m else ret tt.

(** [print(s)] and [print(s, file=sys.stderr)] *)
Definition print (s : string) : M unit := modify (fun w => with_out (w_out w ++ [s]) w).
Definition eprint (s : string) : M unit := modify (fun w => with_err (w_err w ++ [s]) w).

(** *** Files *)

Definition node_at (p : Path.t) : M (option fnode) :=
  gets (fun w => Dict.get (Path.str p) (w_fs w)).

(** [p.exists()], for a path the operating system can look up: the files
    of the model have no access rights and no symbolic links, and where a
    path is made of free text ([_load_kickoff_text]) the errors of the
    lookup are modelled at the call. *)
Definition path_exists (p : Path.t) : M bool :=
  o <- node_at p ;; ret (match o with Some _ => true | None => false end).

(** [p.read_text()] *)
Definition read_text (p : Path.t) : M string :=
  o <- node_at p ;;
  match o with
  | Some (File s) => ret s
  | Some Directory => raise (OSError "IsADirectoryError")
  | None => raise (OSError "FileNotFoundError")
  end.

Definition is_root (p : Path.t) : bool :=
  match Path.parts p with [] => true | _ => false end.

(** [p.write_text(s)] *)
Definition write_text (p : Path.t) (s : string) : M unit :=
  o <- node_at p ;;
  d <- node_at (Path.parent p) ;;
  match o, d with
  | Some Directory, _ => raise (OSError "IsADirectoryError")
  | _, Some (File _) => raise (OSError "NotADirectoryError")
  | _, None =>
      if is_root (Path.parent p)
      then modify (fun w => with_fs (Dict.set (Path.str p) (File s) (w_fs w)) w)
      else raise (OSError "FileNotFoundError")
  | _, Some Directory =>
      modify (fun w => with_fs (Dict.set (Path.str p) (File s) (w_fs w)) w)
  end.

(** The directories from the root down to [p], nearest the root first. *)
Fixpoint ancestors (root : string) (done todo : list string) : list Path.t :=
  match todo with
  | [] => []
  | x :: todo' =>
      Path.mk root (done ++ [x]) :: ancestors root (done ++ [x]) todo'
  end.

Fixpoint mkdir_each (ps : list Path.t) : M unit :=
  match ps with
  | [] => ret tt
  | p :: ps' =>
      o <- node_at p ;;
      match o with
      | Some (File _) => raise (OSError "FileExistsError")
      | Some Directory => mkdir_each ps'
      | None =>
          modify (fun w => with_fs (Dict.set (Path.str p) Directory (w_fs w)) w) ;;;
          mkdir_each ps'
      end
  end.

(** [p.mkdir(parents=True, exist_ok=True)] *)
Definition mkdir (p : Path.t) : M unit :=
  mkdir_each (ancestors (Path.root p) [] (Path.parts p)).

(** [p.unlink()] *)
Definition unlink (p : Path.t) : M unit :=
  o <- node_at p ;;
  match o with
  | Some (File _) =>
      modify (fun w => with_fs (Dict.remove (Path.str p) (w_fs w)) w)
  | Some Directory => raise (OSError "IsADirectoryError")
  | None => raise (OSError "FileNotFoundError")
  end.

Definition _utc_now : M string := gets (fun w => utc_now (w_ext w)).

Definition _read_json : M json :=
  q <- gets w_queue ;;
  match q with
  | Some j => ret j
  | None => raise JSONDecodeError
  end.

Definition _write_json (payload : json) : M unit :=
  modify (with_queue (Some payload)).

(** *** Commands *)

(** The git commands that leave the repository as it is. *)
Definition git_reads (cmd : list string) : bool :=
  match cmd with
  | _ :: verb :: _ => PyStr.mem verb ["rev-parse"; "status"; "show-ref"]
  | _ => false
  end.

(** [_run(cmd, cwd=repo_root, check=check)]: the return code and the
    standard output. *)
Definition _run (cmd : list string) (check : bool) : M (Z * string) :=
  fun w =>
    let (rc, out) := git w cmd in
    let w' := if git_reads cmd then w else env_step (with_git (w_git w ++ [cmd]) w) in
    if check && negb (rc =? 0)%Z
    then (Raise (CalledProcessError cmd rc), w')
    else (Ok (rc, out), w').

Definition _git_current_branch : M string :=
  r <- _run ["git"; "rev-parse"; "--abbrev-ref"; "HEAD"] true ;;
  ret (PyStr.strip (snd r)).

Definition _git_has_changes : M bool :=
  r <- _run ["git"; "status"; "--porcelain=v1"] true ;;
  ret (negb (String.eqb (PyStr.strip (snd r)) EmptyString)).

Fixpoint relative_all (repo_root : Path.t) (paths : list Path.t) : res (list string) :=
  match paths with
  | [] => Ok []
  | p :: ps =>
      match Path.relative_to p repo_root with
      | None => Raise (ValueError "is not in the subpath of")
      | Some r =>
          match relative_all repo_root ps with
          | Ok rs => Ok (Path.str r :: rs)
          | Raise e => Raise e
          end
      end
  end.

Definition _git_commit_paths (repo_root : Path.t) (paths : list Path.t)
    (message : string) : M unit :=
  rels <- lift (relative_all repo_root paths) ;;
  _run (["git"; "add"; "--"] ++ rels) true ;;;
  changed <- _git_has_changes ;;
  if negb changed then ret tt
  else _run ["git"; "commit"; "-m"; message] true ;;; ret tt.

(** [_file_watch_once]: with [fswatch] or with [time.sleep], the call
    returns after the wait. *)
Definition _file_watch_once : M unit := modify env_step.

(** [subprocess.Popen(cmd, ...)]: the handle is the rank of the process
    among those started. *)
Definition popen (cmd : list string) : M nat :=
  fun w =>
    (Ok (List.length (w_procs w)), env_step (with_procs (w_procs w ++ [cmd]) w)).

Definition proc_poll (h : nat) : M (option Z) :=
  gets (fun w => poll (w_ext w) h).

(** [xs[-n:]] for [n > 0] *)
Definition last_n {A : Type} (n : nat) (xs : list A) : list A :=
  skipn (List.length xs - n) xs.

Definition newline : string := String (ascii_of_nat 10) EmptyString.

Definition _tail_lines (path : Path.t) (n : nat) : M string :=
  fun w =>
    match read_text path w with
    | (Ok text, w') =>
        let data := PyStr.splitlines text in
        (Ok (PyStr.join newline (last_n n data)
             ++ match data with [] => EmptyString | _ => newline end)%string,
         w')
    | (Raise _, w') => (Ok EmptyString, w')
    end.

(** The bytes of [s] in UTF-8, the encoding of file names: a character
    above 127 takes two. *)
Definition utf8_length (s : string) : nat :=
  fold_right (fun c n => ((if PyStr.code c <? 128 then 1 else 2) + n)%nat) 0%nat
             (list_ascii_of_string s).

(** Whether [s] has a NUL character: no path with one can be looked up, and
    [resolve()] raises [ValueError] on it. *)
Definition has_nul (s : string) : bool :=
  existsb (fun c => (PyStr.code c =? 0)%nat) (list_ascii_of_string s).

(** Whether the operating system refuses the lookup of [p] with
    [ENAMETOOLONG]: a component of more than 255 bytes, or 4096 bytes or
    more in all (the limits of Linux). *)
Definition name_too_long (p : Path.t) : bool :=
  existsb (fun part => (255 <? utf8_length part)%nat) (Path.parts p)
  || (4096 <=? utf8_length (Path.str p))%nat.

(** A kickoff reference is free text, so the path made of it may be one
    that cannot be looked up: [resolve()] raises [ValueError] on a NUL
    character, and [exists()] raises [OSError] when the name is too long. *)
Definition _load_kickoff_text (repo_root : Path.t) (kickoff_ref : string)
  : M string :=
  let ref := PyStr.strip kickoff_ref in
  if String.eqb ref EmptyString then ret EmptyString
  else if _looks_like_path ref then
    if has_nul (Path.str (Path.join repo_root ref))
    then raise (ValueError "embedded null byte")
    else
      let p := Path.resolve (Path.join repo_root ref) in
      e <- (if name_too_long p then raise (OSError "ENAMETOOLONG")
            else path_exists p) ;;
      if e then read_text p else ret ref
  else ret ref.

(** *** The session log *)

Definition session_log_exists : M bool :=
  l <- gets w_slog ;; ret (match l with Some _ => true | None => false end).

Definition _append_session_log (text : string) : M unit :=
  l <- gets w_slog ;;
  let existing := match l with Some s => s | None => EmptyString end in
  let existing :=
    if negb (String.eqb existing EmptyString) && negb (PyStr.endswith existing newline)
    then (existing ++ newline)%string else existing in
  modify (with_slog (Some (existing ++ text)%string)).

Definition worktree_line (worktree : string) : string :=
  if negb (String.eqb worktree EmptyString)
  then ("- Worktree: `" ++ worktree ++ "`")%string
  else "- Worktree: N/A".

Definition _session_log_start (task_id role base_branch kickoff_ref worktree : string)
  : M unit :=
  ts <- gets (fun w => now_minute (w_ext w)) ;;
  let entry :=
    PyStr.join newline
      [ ("## [" ++ ts ++ "] " ++ role ++ " Agent – " ++ task_id ++ " – START")%string;
        ("- Orchestrator: set `" ++ task_id ++ "` → `in_progress` in `tasks.json`")%string;
        ("- Base branch: `" ++ base_branch ++ "`")%string;
        ("- Kickoff prompt: `" ++ kickoff_ref ++ "`")%string;
        worktree_line worktree;
        "- Blockers: none";
        EmptyString ] in
  _append_session_log entry.

(** The pattern of [_session_log_end], as [re] reads it:
    "(?im)^-\\s*\\*\\*Blocker[s]?\\*\\*:\\s*" followed by a group of any
    characters and "$".  It is a raw string, so each
    [\\] is an escaped backslash and stands for one backslash character;
    the [s] after it is the letter, and a [*] after it repeats the
    backslash.  The pattern is: a hyphen at the start of a line, one
    backslash, any number of [s], any number of backslashes, [blocker]
    in either case, an optional [s], any number of backslashes, a colon, one
    backslash, any number of [s], and the rest of the line as group 1. *)

Definition backslash : ascii := ascii_of_nat 92.

Definition is_backslash (c : ascii) : bool := Ascii.eqb c backslash.

Definition is_letter_s (c : ascii) : bool := Ascii.eqb (PyStr.lower_char c) "s".

Fixpoint skip_while (f : ascii -> bool) (s : string) : string :=
  match s with
  | String c r => if f c then skip_while f r else s
  | EmptyString => EmptyString
  end.

Definition eat_char (f : ascii -> bool) (s : string) : option string :=
  match s with
  | String c r => if f c then Some r else None
  | EmptyString => None
  end.

Definition eat_optional (f : ascii -> bool) (s : string) : string :=
  match s with
  | String c r => if f c then r else s
  | EmptyString => EmptyString
  end.

(** A lower-case literal matched without regard to case. *)
Fixpoint eat_nocase (lit s : string) : option string :=
  match lit with
  | EmptyString => Some s
  | String a lit' =>
      match s with
      | String c r =>
          if Ascii.eqb (PyStr.lower_char c) a then eat_nocase lit' r else None
      | EmptyString => None
      end
  end.

Definition opt_bind {A B : Type} (o : option A) (k : A -> option B) : option B :=
  match o with Some a => k a | None => None end.

(** The pattern tried at the start of one line; group 1 when it matches. *)
Definition blocker_match_line (line : string) : option string :=
  opt_bind (eat_char (Ascii.eqb "-") line) (fun r =>
  opt_bind (eat_char is_backslash r) (fun r =>
  let r := skip_while is_letter_s r in
  let r := skip_while is_backslash (skip_while is_backslash r) in
  opt_bind (eat_nocase "blocker" r) (fun r =>
  let r := eat_optional is_letter_s r in
  let r := skip_while is_backslash (skip_while is_backslash r) in
  opt_bind (eat_char (Ascii.eqb ":") r) (fun r =>
  opt_bind (eat_char is_backslash r) (fun r =>
  Some (skip_while is_letter_s r)))))).

Fixpoint first_some {A B : Type} (f : A -> option B) (xs : list A) : option B :=
  match xs with
  | [] => None
  | x :: xs' => match f x with Some b => Some b | None => first_some f xs' end
  end.

(** [re.search(pattern, msg)]: group 1 of the leftmost match.  With the
    [m] flag a line starts after each LF, and [.] stops at LF. *)
Definition blocker_search (msg : string) : option string :=
  first_some blocker_match_line (PyStr.split_char (ascii_of_nat 10) msg).

(** The last line of the END entry, from the text of the last-message file
    ([None] when there is no such file). *)
Definition blockers_line_of (last_message : option string) : string :=
  match last_message with
  | None => "- Blockers: none"
  | Some msg =>
      match blocker_search msg with
      | Some g =>
          let tail := PyStr.strip g in
          if negb (String.eqb tail EmptyString)
             && negb (PyStr.mem (PyStr.lower tail) ["none"; "<none>"])
          then ("- Blockers: " ++ tail)%string
          else "- Blockers: none"
      | None => "- Blockers: none"
      end
  end.

Definition _session_log_end (task_id role worktree : string)
    (last_message_path : Path.t) (extra : list string) : M unit :=
  ts <- gets (fun w => now_minute (w_ext w)) ;;
  e <- path_exists last_message_path ;;
  snippet <-
    (if e then
       text <- read_text last_message_path ;;
       let msg_lines := PyStr.splitlines (PyStr.strip text) in
       ret (PyStr.strip (PyStr.join newline (firstn 40 msg_lines)))
     else ret EmptyString) ;;
  e2 <- path_exists last_message_path ;;
  last_message <-
    (if e2 then text <- read_text last_message_path ;; ret (Some text)
     else ret None) ;;
  let blockers_line := blockers_line_of last_message in
  let lines :=
    [ ("## [" ++ ts ++ "] " ++ role ++ " Agent – " ++ task_id ++ " – END")%string;
      worktree_line worktree;
      ("- Worker output: `" ++ Path.str last_message_path ++ "`")%string ]
    ++ extra
    ++ (if negb (String.eqb snippet EmptyString)
        then ["- Worker summary (first ~40 lines):"; "```text"; snippet; "```"]
        else [])
    ++ [blockers_line; EmptyString] in
  _append_session_log (PyStr.join newline lines).

(** *** Worktrees *)

Definition _ensure_worktree (repo_root : Path.t) (base_branch worktree : string)
  : M (Path.t * string) :=
  let worktree_path := Path.resolve (Path.join repo_root worktree) in
  let branch := Path.name (Path.parse worktree) in
  e <- path_exists worktree_path ;;
  if e then
    g <- path_exists (Path.join worktree_path ".git") ;;
    if negb g then
      raise (RuntimeError ("Worktree path exists but is not a git worktree: "
                           ++ Path.str worktree_path))
    else ret (worktree_path, branch)
  else
    r <- _run ["git"; "show-ref"; "--verify"; "--quiet"; ("refs/heads/" ++ branch)%string] false ;;
    (if (fst r =? 0)%Z
     then _run ["git"; "worktree"; "add"; Path.str worktree_path; branch] true
     else _run ["git"; "worktree"; "add"; "-b"; branch; Path.str worktree_path; base_branch] true) ;;;
    ret (worktree_path, branch).

Definition _remove_worktree (repo_root : Path.t) (worktree : string) : M unit :=
  let worktree_path := Path.resolve (Path.join repo_root worktree) in
  e <- path_exists worktree_path ;;
  if negb e then ret tt
  else _run ["git"; "worktree"; "remove"; "--force"; Path.str worktree_path] false ;;; ret tt.

Definition _fast_forward_merge (base_branch integration_branch : string) : M unit :=
  _run ["git"; "checkout"; base_branch] true ;;;
  _run ["git"; "merge"; "--ff-only"; integration_branch] true ;;;
  ret tt.

(** [try: m  except subprocess.CalledProcessError as exc: ...]: the return
    code of the command that failed, if one did. *)
Definition catch_called_process_error (m : M unit) : M (option Z) :=
  fun w =>
    match m w with
    | (Ok _, w') => (Ok None, w')
    | (Raise (CalledProcessError _ rc), w') => (Ok (Some rc), w')
    | (Raise e, w') => (Raise e, w')
    end.

Definition _make_prompt_text (repo_root : Path.t) (task_id : string)
    (worktree_path : option Path.t) (base_branch kickoff_ref kickoff_text : string)
  : string :=
  let wt := match worktree_path with
            | Some p => Path.str p
            | None => Path.str repo_root
            end in
  PyStr.join newline
    [ ("You are a coding agent executing exactly one task: " ++ task_id ++ ".")%string;
      ("Base repo: " ++ Path.str repo_root)%string;
      ("Task worktree: " ++ wt)%string;
      ("Base branch: " ++ base_branch)%string;
      EmptyString;
      "Hard rules:";
      "- Do not proceed to any other task IDs.";
      "- Do NOT edit feature docs, task tracking, or session logs:";
      "  - docs/project_management/next/**/tasks.json";
      "  - docs/project_management/next/**/session_log.md";
      "- Do NOT create/remove git worktrees; the orchestrator handles that.";
      "- Do NOT update task statuses; the orchestrator handles that.";
      "- Do NOT run `git checkout` / `git pull` or otherwise switch branches; the orchestrator already prepared the worktree on the task branch.";
      "- Work only in the provided worktree (git repo cwd).";
      "- Run the required commands listed under 'Commands (required)' in the kickoff prompt.";
      "- End with a concise report including: files changed, branch/worktree, commits, commands run + pass/fail, and any blockers.";
      EmptyString;
      ("Kickoff prompt path: " ++ kickoff_ref)%string;
      EmptyString;
      "Kickoff prompt (verbatim):";
      PyStr.strip kickoff_text;
      EmptyString ].

(** *** The command line *)

Record Args : Type := mkArgs {
  arg_repo_root : string;
  arg_queue : string;
  arg_run_root : string;
  arg_max_workers : Z;
  arg_per_workstream : Z;
  arg_watch_timeout_s : Z;
  arg_stop_on_blocked : bool;
  arg_dry_run : bool;
  arg_only_task_ids : string;
  arg_id_regex : string;
  arg_codex_cmd : string
}.

(** [sys.executable] *)
Definition sys_executable : string := "python3".

(** [wt and wt.strip().upper() != "N/A"] *)
Definition uses_worktree (wt : string) : bool :=
  negb (String.eqb wt EmptyString)
  && negb (String.eqb (PyStr.upper (PyStr.strip wt)) "N/A").

(** [{x.strip() for x in s.split(",") if x.strip()} if s else set()] *)
Definition parse_only_ids (s : string) : list string :=
  if String.eqb s EmptyString then []
  else
    fold_left (fun acc x => set_add x acc)
      (filter (fun x => negb (String.eqb x EmptyString))
              (map PyStr.strip (PyStr.split_char "," s)))
      [].

(** The dictionaries [main] keeps from one tick to the next. *)
Record Loop : Type := mkLoop {
  running : list (string * nat);
  task_to_worktree : list (string * string);
  task_base_sha : list (string * string)
}.

(** The locals of the admission pass that change from task to task. *)
Record Pass : Type := mkPass {
  ad_payload : json;
  ad_active : list string;
  ad_spawned : bool;
  ad_loop : Loop
}.

Section Ticks.

(** The locals of [main] that are set before the loop and never change. *)
Variable args : Args.
Variable repo_root : Path.t.
Variable queue_path : Path.t.
Variable run_root : Path.t.
Variable spawn_script : Path.t.
Variable base_branch : string.
Variable only_ids : list string.
Variable id_re : option (string -> bool).
Variable track_paths : list Path.t.

(** [(not only_ids or t.id in only_ids)
     and (id_re is None or id_re.search(t.id) is not None)] *)
Definition in_only_ids (t : Task) : bool :=
  match only_ids with
  | [] => true
  | _ => PyStr.mem (id t) only_ids
  end.

Definition in_scope (t : Task) : bool :=
  in_only_ids t
  && match id_re with
     | None => true
     | Some search => search (id t)
     end.

(** [{t.id for t in tasks_all if t.status == "completed"}] *)
Definition done_ids (tasks_all : list Task) : list string :=
  fold_left (fun acc t => set_add (id t) acc)
    (filter (fun t => String.eqb (status t) "completed") tasks_all) [].

(** [[t for t in tasks_all if t.status == "blocked"
      and (not only_ids or t.id in only_ids)]] *)
Definition blocked_tasks (tasks_all : list Task) : list Task :=
  filter (fun t => String.eqb (status t) "blocked" && in_only_ids t) tasks_all.

(** The loop of the dry run over [runnable]. *)
Fixpoint plan (runnable : list Task) (active_streams : list string)
    (planned : list Task) : list Task :=
  match runnable with
  | [] => planned
  | t :: rest =>
      if (arg_max_workers args <=? Z.of_nat (List.length planned))%Z then planned
      else if (0 <? arg_per_workstream args)%Z
              && PyStr.mem (workstream_id t) active_streams
      then plan rest active_streams planned
      else plan rest (set_add (workstream_id t) active_streams) (planned ++ [t])
  end.

Definition planned_cwd (t : Task) : Path.t :=
  if uses_worktree (worktree t) then Path.join repo_root (worktree t) else repo_root.

Fixpoint print_planned (planned : list Task) : M unit :=
  match planned with
  | [] => ret tt
  | t :: rest =>
      print ("DRY RUN: would spawn " ++ id t ++ " (" ++ workstream_id t ++ ") in "
             ++ Path.str (planned_cwd t)) ;;;
      print_planned rest
  end.

(** The body of the admission loop for a task that passed the three
    tests at its head. *)
Definition spawn_task (t : Task) (a : Pass) : M Pass :=
  let run_dir := Path.join run_root (id t) in
  let prompt_path := Path.join run_dir "prompt.md" in
  let done_path := Path.join run_dir (id t ++ ".done") in
  mkdir run_dir ;;;
  e <- path_exists done_path ;;
  when e (unlink done_path) ;;;
  kickoff_text <- _load_kickoff_text repo_root (kickoff_ref t) ;;
  now <- _utc_now ;;
  payload <- lift (_update_task (ad_payload a) (id t)
                     [("status", JStr "in_progress"); ("started_at", JStr now)]) ;;
  sl <- session_log_exists ;;
  when sl (_session_log_start (id t) (_role_label (type t)) base_branch
             (kickoff_ref t)
             (if uses_worktree (worktree t) then worktree t else EmptyString)) ;;;
  _write_json payload ;;;
  when (negb (arg_dry_run args))
       (_git_commit_paths repo_root track_paths ("docs: start " ++ id t)) ;;;
  wt <- (if uses_worktree (worktree t) then
           r <- _ensure_worktree repo_root base_branch (worktree t) ;;
           let (worktree_path, worktree_branch) := r in
           let t2w := Dict.set (id t) (worktree t) (task_to_worktree (ad_loop a)) in
           if negb (String.eqb worktree_branch EmptyString) then
             r <- _run ["git"; "rev-parse"; worktree_branch] true ;;
             let sha := PyStr.strip (snd r) in
             write_text (Path.join run_dir "base_sha.txt") (sha ++ newline) ;;;
             ret (Some worktree_path, t2w,
                  Dict.set (id t) sha (task_base_sha (ad_loop a)))
           else ret (Some worktree_path, t2w, task_base_sha (ad_loop a))
         else ret (None, task_to_worktree (ad_loop a), task_base_sha (ad_loop a))) ;;
  let '(worktree_path, t2w, sha_map) := wt in
  let prompt_text :=
    _make_prompt_text repo_root (id t) worktree_path base_branch (kickoff_ref t)
                      kickoff_text in
  write_text prompt_path prompt_text ;;;
  let cwd := match worktree_path with Some p => p | None => repo_root end in
  if arg_dry_run args then
    print ("DRY RUN: would spawn " ++ id t ++ " (" ++ workstream_id t ++ ") in "
           ++ Path.str cwd) ;;;
    ret (mkPass payload (set_add (workstream_id t) (ad_active a)) (ad_spawned a)
                 (mkLoop (running (ad_loop a)) t2w sha_map))
  else
    let cmd := [ sys_executable; Path.str spawn_script;
                 "--repo-root"; Path.str cwd;
                 "--task-id"; id t;
                 "--run-dir"; Path.str run_dir;
                 "--codex-cmd"; arg_codex_cmd args ] in
    proc <- popen cmd ;;
    ret (mkPass payload (set_add (workstream_id t) (ad_active a)) true
                 (mkLoop (Dict.set (id t) proc (running (ad_loop a))) t2w sha_map)).

(** The admission loop over [runnable]. *)
Fixpoint admission (runnable : list Task) (a : Pass) : M Pass :=
  match runnable with
  | [] => ret a
  | t :: rest =>
      if Dict.has (id t) (running (ad_loop a)) then admission rest a
      else if (arg_max_workers args <=? Z.of_nat (List.length (running (ad_loop a))))%Z
      then ret a
      else if (0 <? arg_per_workstream args)%Z
              && PyStr.mem (workstream_id t) (ad_active a)
      then admission rest a
      else a' <- spawn_task t a ;; admission rest a'
  end.

Definition failure_text (now tail : string) : string :=
  "# Worker exited without DONE" ++ newline ++ newline
  ++ "finished_at: " ++ now ++ newline ++ newline
  ++ "## Last 200 log lines" ++ newline ++ newline
  ++ "```text" ++ newline ++ tail ++ "```" ++ newline.

(** The loop over [list(running.items())] that decides which tasks are
    finished. *)
Fixpoint detect (items : list (string * nat)) (finished : list string)
  : M (list string) :=
  match items with
  | [] => ret finished
  | (task_id, proc) :: rest =>
      let run_dir := Path.join run_root task_id in
      let done_path := Path.join run_dir (task_id ++ ".done") in
      let log_path := Path.join run_dir "worker.log" in
      let failure_path := Path.join run_dir "failure.md" in
      e <- path_exists done_path ;;
      if e then detect rest (finished ++ [task_id])
      else
        rc <- proc_poll proc ;;
        gone <- (match rc with
                 | Some _ => e2 <- path_exists done_path ;; ret (negb e2)
                 | None => ret false
                 end) ;;
        if gone then
          tail <- _tail_lines log_path 200 ;;
          now <- _utc_now ;;
          write_text failure_path (failure_text now tail) ;;;
          payload <- _read_json ;;
          now2 <- _utc_now ;;
          payload <- lift (_update_task payload task_id
            [ ("status", JStr "blocked");
              ("blocked_at", JStr now2);
              ("blockers", JArr [JStr "Worker exited without writing DONE sentinel."]);
              ("unblock_steps",
               JArr [ JStr ("Inspect " ++ Path.str log_path)%string;
                      JStr ("Inspect " ++ Path.str failure_path)%string;
                      JStr "Re-run task with revised prompt." ]) ]) ;;
          _write_json payload ;;;
          detect rest (finished ++ [task_id])
        else detect rest finished
  end.

(** The lines [key=value] of a DONE file, as the dictionary [done_info]. *)
Definition parse_done (text : string) : list (string * string) :=
  fold_left
    (fun info line =>
       if PyStr.contains "=" line then
         let (k, v) := PyStr.split_once "=" line in
         Dict.set (PyStr.strip k) (PyStr.strip v) info
       else info)
    (PyStr.splitlines text) [].

(** The three places where a finished task is marked blocked do the same
    four things with their own texts. *)
Definition finish_blocked (payload : json) (task_id role wt : string)
    (last_message_path : Path.t) (blocker : string) (unblock_steps : list string)
    (note : string) : M unit :=
  now <- _utc_now ;;
  payload <- lift (_update_task payload task_id
    [ ("status", JStr "blocked");
      ("blocked_at", JStr now);
      ("blockers", JArr [JStr blocker]);
      ("unblock_steps", JArr (map JStr unblock_steps)) ]) ;;
  _write_json payload ;;;
  sl <- session_log_exists ;;
  when sl (_session_log_end task_id role wt last_message_path [note]) ;;;
  _git_commit_paths repo_root track_paths ("docs: finish " ++ task_id ++ " (blocked)").

(** One turn of the loop over [finished]. *)
Definition finish_task (task_id : string) (l0 : Loop) : M Loop :=
  let l := mkLoop (Dict.remove task_id (running l0)) (task_to_worktree l0)
                  (task_base_sha l0) in
  match Dict.get task_id (running l0) with
  | Some proc => proc_poll proc ;;; ret tt
  | None => ret tt
  end ;;;
  let run_dir := Path.join run_root task_id in
  let done_path := Path.join run_dir (task_id ++ ".done") in
  let log_path := Path.join run_dir "worker.log" in
  let last_message_path := Path.join run_dir "last_message.md" in
  e <- path_exists done_path ;;
  done_info <- (if e then text <- read_text done_path ;; ret (parse_done text)
                else ret []) ;;
  payload <- _read_json ;;
  tasks_all <- lift (_load_tasks payload) ;;
  let this := find (fun t => String.eqb (id t) task_id) tasks_all in
  let role := _role_label (match this with Some t => type t | None => EmptyString end) in
  let wt := match Dict.get task_id (task_to_worktree l) with
            | Some w => w
            | None => match this with Some t => worktree t | None => EmptyString end
            end in
  let wt := if uses_worktree wt then wt else EmptyString in
  let status :=
    PyStr.lower (PyStr.strip
      (match Dict.get "status" done_info with
       | Some s => s
       | None => EmptyString
       end)) in
  if negb (String.eqb status "success") then
    let shown := if String.eqb status EmptyString then "unknown" else status in
    finish_blocked payload task_id role wt last_message_path
      ("Worker status=" ++ shown ++ " (see .runs).")
      [ ("Inspect " ++ Path.str log_path)%string;
        ("Inspect " ++ Path.str done_path)%string;
        "Adjust prompt and rerun." ]
      ("- Orchestrator: marked task blocked (worker status=" ++ shown ++ ")") ;;;
    ret l
  else
    no_commit <-
      (match this with
       | Some t =>
           if negb (String.eqb wt EmptyString) then
             let branch := Path.name (Path.parse wt) in
             base_sha <-
               (match Dict.get task_id (task_base_sha l) with
                | Some s =>
                    if negb (String.eqb s EmptyString) then ret s
                    else text <- read_text (Path.join run_dir "base_sha.txt") ;;
                         ret (PyStr.strip text)
                | None =>
                    text <- read_text (Path.join run_dir "base_sha.txt") ;;
                    ret (PyStr.strip text)
                end) ;;
             r <- _run ["git"; "rev-parse"; branch] false ;;
             let branch_sha := PyStr.strip (snd r) in
             if String.eqb branch_sha EmptyString || String.eqb branch_sha base_sha
             then ret (Some branch) else ret None
           else ret None
       | None => ret None
       end) ;;
    match no_commit with
    | Some branch =>
        finish_blocked payload task_id role wt last_message_path
          ("No commit produced on branch '" ++ branch ++ "' (likely commit failed).")
          [ ("Inspect " ++ Path.str (Path.join run_dir "last_message.md"))%string;
            ("Inspect " ++ Path.str (Path.join run_dir "worker.log"))%string;
            "Re-run the task with a less-restrictive codex sandbox." ]
          "- Orchestrator: marked task blocked (no commit produced)" ;;;
        ret l
    | None =>
        let is_integration :=
          match this with
          | Some t =>
              String.eqb (PyStr.lower (PyStr.strip (type t))) "integration"
              && negb (String.eqb wt EmptyString)
          | None => false
          end in
        let integration_branch := Path.name (Path.parse wt) in
        merged <-
          (if is_integration
           then catch_called_process_error
                  (_fast_forward_merge base_branch integration_branch)
           else ret None) ;;
        match merged with
        | Some rc =>
            finish_blocked payload task_id role wt last_message_path
              ("Failed ff-merge " ++ integration_branch ++ " into " ++ base_branch
               ++ ": rc=" ++ PyStr.of_Z rc)
              [ "Inspect git history";
                "Resolve merge/rebase, then rerun integration task." ]
              ("- Orchestrator: marked task blocked (ff-merge failed: `"
               ++ integration_branch ++ "` → `" ++ base_branch ++ "`)") ;;;
            ret l
        | None =>
            let extra :=
              if is_integration
              then [ ("- Orchestrator: fast-forward merged `" ++ integration_branch
                      ++ "` → `" ++ base_branch ++ "`")%string ]
              else [] in
            now <- _utc_now ;;
            payload <- lift (_update_task payload task_id
              [ ("status", JStr "completed"); ("completed_at", JStr now) ]) ;;
            sl <- session_log_exists ;;
            when sl (_session_log_end task_id role wt last_message_path extra) ;;;
            _write_json payload ;;;
            _git_commit_paths repo_root track_paths ("docs: finish " ++ task_id) ;;;
            when (negb (String.eqb wt EmptyString)) (_remove_worktree repo_root wt) ;;;
            ret l
        end
    end.

Fixpoint finish (finished : list string) (l : Loop) : M Loop :=
  match finished with
  | [] => ret l
  | task_id :: rest => l' <- finish_task task_id l ;; finish rest l'
  end.

(** One turn of [while True]: the exit code when [main] returns, else the
    dictionaries for the next turn. *)
Definition tick (l : Loop) : M (Z + Loop) :=
  payload <- _read_json ;;
  tasks_all <- lift (_load_tasks payload) ;;
  let tasks := filter in_scope tasks_all in
  let done := done_ids tasks_all in
  let blocked := blocked_tasks tasks_all in
  if match blocked with [] => false | _ => true end && arg_stop_on_blocked args then
    print ("STOP: " ++ PyStr.of_nat (List.length blocked) ++ " blocked task(s).") ;;;
    ret (inl 1%Z)
  else
    let runnable := _runnable_tasks tasks done in
    if arg_dry_run args then
      active_streams <- lift (_active_workstreams payload) ;;
      let planned := plan runnable active_streams [] in
      match planned with
      | [] => print "DRY RUN: no runnable tasks (within scope)." ;;; ret (inl 0%Z)
      | _ => print_planned planned ;;; ret (inl 0%Z)
      end
    else if match runnable, running l with [], [] => true | _, _ => false end then
      print "DONE: no runnable tasks and no running workers (within scope)." ;;;
      ret (inl 0%Z)
    else
      active_streams <- lift (_active_workstreams payload) ;;
      a <- admission runnable (mkPass payload active_streams false l) ;;
      when (negb (ad_spawned a)
            && match running (ad_loop a) with [] => false | _ => true end)
           _file_watch_once ;;;
      finished <- detect (running (ad_loop a)) [] ;;
      l' <- finish finished (ad_loop a) ;;
      ret (inr l').

Fixpoint loop (fuel : nat) (l : Loop) : M (option Z) :=
  match fuel with
  | O => ret None
  | S fuel' =>
      r <- tick l ;;
      match r with
      | inl code => ret (Some code)
      | inr l' => loop fuel' l'
      end
  end.

End Ticks.

(** [main]: the exit code, or [None] when the loop is still running after
    [fuel] turns.  The paths of the command line are taken to be absolute. *)
Definition main (fuel : nat) (args : Args) : M (option Z) :=
  let repo_root := Path.resolve (Path.parse (arg_repo_root args)) in
  let queue_path := Path.resolve (Path.parse (arg_queue args)) in
  let run_root := Path.resolve (Path.join repo_root (arg_run_root args)) in
  let spawn_script :=
    Path.resolve (Path.join (Path.join repo_root "scripts") "spawn_worker.py") in
  early <-
    (if negb (arg_dry_run args) then
       mkdir run_root ;;;
       e <- path_exists spawn_script ;;
       if negb e then
         eprint ("Missing spawn script: " ++ Path.str spawn_script) ;;;
         ret (Some 2%Z)
       else ret None
     else ret None) ;;
  match early with
  | Some code => ret (Some code)
  | None =>
      base_branch <- _git_current_branch ;;
      let only_ids := parse_only_ids (arg_only_task_ids args) in
      id_re <-
        (if negb (String.eqb (arg_id_regex args) EmptyString) then
           match re_compile (arg_id_regex args) with
           | Some search => ret (Some search)
           | None => raise ReError
           end
         else ret None) ;;
      let session_log := Path.join (Path.parent queue_path) "session_log.md" in
      sl <- session_log_exists ;;
      let track_paths := queue_path :: (if sl then [session_log] else []) in
      loop args repo_root run_root spawn_script base_branch only_ids id_re
           track_paths fuel (mkLoop [] [] [])
  end.

End Orchestrator.

(** ** A concrete setting

    Oracles and worlds on which the definitions run: a repository at
    [/repo] on branch [main] whose git commands succeed, a working tree that
    always has changes, and supervisors that have exited with code 1 by the
    time they are polled without having written anything. *)

Module Sample.

Definition repr (_ : json) : string := "<repr>".

Definition int_of_str (_ : string) : option Z := None.

(** The patterns [^text] and [text], for a [text] of ordinary characters. *)
Definition compile (p : string) : option (string -> bool) :=
  match p with
  | String "^" lit => Some (fun s => PyStr.startswith s lit)
  | _ => Some (fun s => PyStr.contains p s)
  end.

Definition now (_ : unit) : string := "2025-01-01T00:00:00Z".

Definition minute (_ : unit) : string := "2025-01-01 00:00 UTC".

Definition git_ok (_ : World unit) (cmd : list string) : Z * string :=
  match cmd with
  | [_; "rev-parse"; "--abbrev-ref"; "HEAD"] => (0%Z, "main")
  | [_; "rev-parse"; _] => (0%Z, "c0ffee")
  | _ :: "status" :: _ => (0%Z, " M docs/tasks.json")
  | _ => (0%Z, EmptyString)
  end.

Definition exited (_ : unit) (_ : nat) : option Z := Some 1%Z.

Definition still (w : World unit) : list (string * fnode) * unit :=
  (w_fs w, w_ext w).

Definition run_main (fuel : nat) (args : Args) (w : World unit)
  : res (option Z) * World unit :=
  main repr int_of_str compile now minute git_ok exited still fuel args w.

Definition args (stop dry : bool) (only_ids re : string) : Args :=
  {| arg_repo_root := "/repo";
     arg_queue := "/repo/docs/tasks.json";
     arg_run_root := ".runs";
     arg_max_workers := 2;
     arg_per_workstream := 1;
     arg_watch_timeout_s := 600;
     arg_stop_on_blocked := stop;
     arg_dry_run := dry;
     arg_only_task_ids := only_ids;
     arg_id_regex := re;
     arg_codex_cmd := "codex exec" |}.

Definition task (tid st : string) (more : dict) : json :=
  JObj ([("id", JStr tid); ("status", JStr st)] ++ more).

Definition repo_files : list (string * fnode) :=
  [ ("/repo", Directory);
    ("/repo/docs", Directory);
    ("/repo/scripts", Directory);
    ("/repo/scripts/spawn_worker.py", File "#!/usr/bin/env python3") ].

Definition world (queue : json) (files : list (string * fnode)) : World unit :=
  {| w_queue := Some queue; w_slog := None; w_fs := repo_files ++ files;
     w_git := []; w_procs := []; w_out := []; w_err := []; w_ext := tt |}.

Definition lf : string := String (ascii_of_nat 10) EmptyString.

(** A run root left by an earlier run, with the log of task [A]. *)
Definition old_run : list (string * fnode) :=
  [ ("/repo/.runs", Directory);
    ("/repo/.runs/A", Directory);
    ("/repo/.runs/A/worker.log", File ("starting" ++ lf ++ "boom" ++ lf)) ].

(** A queue of three tasks: [A] is done, [B] waits for [A], and [B] and
    [C] have the same order. *)
Definition queue3 : json :=
  JArr [ task "A" "done" [("order", JNum 20)];
         task "B" "todo" [("order", JNum 10); ("depends_on", JArr [JStr "A"])];
         task "C" "pending" [("order", JNum 10)] ].

(** A queue with a blocked task and a runnable one. *)
Definition queue_blocked : json :=
  JArr [ task "A" "blocked" []; task "B" "todo" [] ].

(** The locals of [main] for the sample arguments. *)
Definition run_tick (a : Args) (id_re : option (string -> bool)) (l : Loop)
    (w : World unit) : res (Z + Loop) * World unit :=
  tick repr int_of_str now minute git_ok exited still a
       (Path.parse "/repo") (Path.parse "/repo/.runs")
       (Path.parse "/repo/scripts/spawn_worker.py") "main"
       (parse_only_ids (arg_only_task_ids a)) id_re
       [Path.parse "/repo/docs/tasks.json"] l w.

(** Task [A] is running as process 0, which has exited (every process of
    this setting has) without leaving [A.done]. *)
Definition crashed_loop : Loop := mkLoop [("A", 0)] [] [].

Definition crashed_world : World unit :=
  with_procs [["python3"; "/repo/scripts/spawn_worker.py"]]
    (world (JArr [task "A" "in_progress" []]) old_run).

(** Task [A] has finished in its worktree [wt/A]: its DONE file reports
    success, and its branch is where it was when the task was admitted
    (every branch of this setting resolves to [c0ffee]). *)
Definition done_ok : string := "status=success" ++ lf ++ "task_id=A" ++ lf.

Definition nocommit_loop : Loop :=
  mkLoop [("A", 0)] [("A", "wt/A")] [("A", "c0ffee")].

Definition nocommit_world : World unit :=
  with_procs [["python3"; "/repo/scripts/spawn_worker.py"]]
    (world (JArr [task "A" "in_progress" [("worktree", JStr "wt/A")]])
           (old_run ++ [("/repo/.runs/A/A.done", File done_ok)])).

Definition run_finish (tid : string) (l : Loop) (w : World unit)
  : res Loop * World unit :=
  finish_task repr int_of_str now minute git_ok exited still
              (Path.parse "/repo") (Path.parse "/repo/.runs") "main"
              [Path.parse "/repo/docs/tasks.json"] tid l w.

(** Two tasks of the code workstream and one of the test workstream. *)
Definition queue_streams : json :=
  JArr [ task "A" "pending" [("type", JStr "code")];
         task "A2" "pending" [("type", JStr "code")];
         task "B" "pending" [("type", JStr "test")] ].

Definition tasks_of (q : json) : list Task :=
  match _load_tasks repr int_of_str q with
  | Ok ts => ts
  | Raise _ => []
  end.

Definition run_admission (a : Args) (runnable : list Task) (p : Pass)
    (w : World unit) : res Pass * World unit :=
  admission repr now minute git_ok still a
            (Path.parse "/repo") (Path.parse "/repo/.runs")
            (Path.parse "/repo/scripts/spawn_worker.py") "main"
            [Path.parse "/repo/docs/tasks.json"] runnable p w.

Definition pass_of (r : res Pass * World unit) (p : Pass) : Pass :=
  match fst r with
  | Ok a => a
  | Raise _ => p
  end.

(** The records of a queue. *)
Definition records_of (q : json) : list dict :=
  match _queue_tasks q with
  | Ok ts => ts
  | Raise _ => []
  end.

(** A queue with a record that has no [id] and one whose [id] is blank. *)
Definition queue_blank : json :=
  JArr [ task "A" "todo" [];
         JObj [("status", JStr "completed")];
         JObj [("id", JStr "  "); ("status", JStr "pending")] ].

(** A queue in which two records have the id [A]. *)
Definition queue_twice : json :=
  JArr [ task "A" "done" []; task "A" "todo" [] ].

(** A queue whose ids differ by a space at the end. *)
Definition queue_padded : json :=
  JArr [ task "A" "done" []; task "A " "todo" [] ].

(** The fields of the first record of a queue. *)
Definition first_record (w : World unit) : dict :=
  match w_queue w with
  | Some (JArr (JObj kv :: _)) => kv
  | _ => []
  end.

(** A reference of 300 letters that ends with [.md]. *)
Definition long_ref : string :=
  (string_of_list_ascii (repeat "x"%char 300) ++ ".md")%string.

(** A git in which no branch name resolves any more: as git does for a
    name it cannot resolve, [git rev-parse <name>] prints the name and
    exits with 128.  The other commands are as in [git_ok]. *)
Definition git_gone (_ : World unit) (cmd : list string) : Z * string :=
  match cmd with
  | [_; "rev-parse"; "--abbrev-ref"; "HEAD"] => (0%Z, "main")
  | [_; "rev-parse"; name] => (128%Z, (name ++ lf)%string)
  | _ :: "status" :: _ => (0%Z, " M docs/tasks.json")
  | _ => (0%Z, EmptyString)
  end.

(** The worktree [wt/A] of the repository. *)
Definition worktree_files : list (string * fnode) :=
  [ ("/repo/wt", Directory);
    ("/repo/wt/A", Directory);
    ("/repo/wt/A/.git", File "gitdir: /repo/.git/worktrees/A") ].

(** Task [A] has finished in its worktree [wt/A], which is there, with a
    DONE file that reports success. *)
Definition finished_world : World unit :=
  with_procs [["python3"; "/repo/scripts/spawn_worker.py"]]
    (world (JArr [task "A" "in_progress" [("worktree", JStr "wt/A")]])
           (old_run ++ [("/repo/.runs/A/A.done", File done_ok)] ++ worktree_files)).

End Sample.

(** ** The specification's wording, where it is compared with the code *)

(** "contains [/], ends with [.md] or [.txt], and does not begin with [#]",
    read as three conditions that must all hold. *)
Definition claimed_path_like (s : string) : bool :=
  PyStr.contains "/" s
  && (PyStr.endswith s ".md" || PyStr.endswith s ".txt")
  && negb (PyStr.startswith s "#").

(** What a dry run prints when the queue loads, with its exit code: the
    line of the stop, or the would-be spawns, or the message that nothing is
    runnable. *)
Definition dry_run_report (py_repr : json -> string) (args : Args)
    (repo_root : Path.t) (only_ids : list string)
    (id_re : option (string -> bool)) (payload : json) (tasks_all : list Task)
  : Z * list string :=
  let blocked := blocked_tasks only_ids tasks_all in
  if match blocked with [] => false | _ => true end && arg_stop_on_blocked args
  then (1%Z, [("STOP: " ++ PyStr.of_nat (List.length blocked) ++ " blocked task(s).")%string])
  else
    let runnable :=
      _runnable_tasks (filter (in_scope only_ids id_re) tasks_all)
                      (done_ids tasks_all) in
    let active :=
      match _active_workstreams py_repr payload with Ok s => s | Raise _ => [] end in
    match plan args runnable active [] with
    | [] => (0%Z, ["DRY RUN: no runnable tasks (within scope)."])
    | planned =>
        (0%Z,
         map (fun t =>
                ("DRY RUN: would spawn " ++ id t ++ " (" ++ workstream_id t
                 ++ ") in " ++ Path.str (planned_cwd repo_root t))%string)
             planned)
    end.

(** A computation yields [P] when every value it returns satisfies [P]. *)
Definition yields {Ext A : Type} (P : A -> Prop) (m : M Ext A) : Prop :=
  forall w a, fst (m w) = Ok a -> P a.

(** The compiled [--id-regex]: [None] when the pattern does not compile. *)
Definition compile_id_regex (re_compile : string -> option (string -> bool))
    (args : Args) : option (option (string -> bool)) :=
  if String.eqb (arg_id_regex args) EmptyString then Some None
  else option_map Some (re_compile (arg_id_regex args)).


(** A computation keeps a frame [F] when the world it leaves is related by
    [F] to the world it started in, whether it returns or raises. *)
Definition keeps {Ext : Type} (F : World Ext -> World Ext -> Prop) {A : Type}
    (m : M Ext A) : Prop :=
  forall w, F w (snd (m w)).

(** Only the standard output differs. *)
Definition only_printed {Ext : Type} (w w' : World Ext) : Prop :=
  w' = with_out (w_out w') w.

(** The queue file is the same. *)
Definition same_queue {Ext : Type} (w w' : World Ext) : Prop :=
  w_queue w' = w_queue w.

(** [subseq xs ys]: [xs] is [ys] with some elements left out. *)
Inductive subseq {A : Type} : list A -> list A -> Prop :=
| subseq_nil : forall ys, subseq [] ys
| subseq_take : forall x xs ys, subseq xs ys -> subseq (x :: xs) (x :: ys)
| subseq_skip : forall y xs ys, subseq xs ys -> subseq xs (y :: ys).

(** A frame that every step of the orchestrator keeps, except writing the
    queue file and running a git command that changes the repository: it
    relates a world to itself, it composes, and it relates a world to what
    follows when output is printed, a file or the session log is written, a
    process is recorded, or the rest of the system moves. *)
Class Frame {Ext : Type} (env : World Ext -> list (string * fnode) * Ext)
    (F : World Ext -> World Ext -> Prop) : Prop := {
  frame_refl : forall w, F w w;
  frame_trans : forall w1 w2 w3, F w1 w2 -> F w2 w3 -> F w1 w3;
  frame_out : forall w o, F w (with_out o w);
  frame_err : forall w o, F w (with_err o w);
  frame_fs : forall w f, F w (with_fs f w);
  frame_slog : forall w l, F w (with_slog l w);
  frame_procs : forall w ps, F w (with_procs ps w);
  frame_env : forall w, F w (env_step env w)
}.

(** The git commands run from [w] to [w'] all satisfy [allowed]. *)
Definition git_grows {Ext : Type} (allowed : list string -> Prop)
    (w w' : World Ext) : Prop :=
  exists cmds, w_git w' = w_git w ++ cmds /\ Forall allowed cmds.

(** The loop of [_update_task], seen on the records of the queue. *)
Fixpoint patch_first (py_repr : json -> string) (task_id : string)
    (updates : dict) (ts : list dict) : option (list dict) :=
  match ts with
  | [] => None
  | t :: ts' =>
      if String.eqb (record_id py_repr t) task_id
      then Some (Dict.update t updates :: ts')
      else option_map (cons t) (patch_first py_repr task_id updates ts')
  end.

(** The ids of the records that have one. *)
Definition record_ids (py_repr : json -> string) (ts : list dict) : list string :=
  filter (fun i => negb (String.eqb i EmptyString)) (map (record_id py_repr) ts).

(** No two records of the queue have the same id. *)
Definition unique_ids (py_repr : json -> string) (ts : list dict) : Prop :=
  NoDup (record_ids py_repr ts).

(** The status a DONE file reports, as [finish_task] reads it. *)
Definition done_status (text : string) : string :=
  PyStr.lower (PyStr.strip
    (match Dict.get "status" (parse_done text) with
     | Some s => s
     | None => EmptyString
     end)).

(** The worktree [finish_task] works with: the one noted when the task was
    admitted, else the field of the task; empty for [N/A]. *)
Definition effective_worktree (l : Loop) (task_id : string) (this : Task) : string :=
  let wt := match Dict.get task_id (task_to_worktree l) with
            | Some w => w
            | None => worktree this
            end in
  if uses_worktree wt then wt else EmptyString.

(** The base SHA [finish_task] compares with: the one noted when the task
    was admitted, else the text of [base_sha.txt]. *)
Definition recorded_base_sha {Ext : Type} (l : Loop) (w : World Ext)
    (run_dir : Path.t) (task_id : string) : option string :=
  match Dict.get task_id (task_base_sha l) with
  | Some (String c s) => Some (String c s)
  | _ =>
      match Dict.get (Path.str (Path.join run_dir "base_sha.txt")) (w_fs w) with
      | Some (File text) => Some (PyStr.strip text)
      | _ => None
      end
  end.

(** The git commands of a docs commit: [git add -- paths] and
    [git commit -m message]. *)
Definition docs_commit_command (message : string) (cmd : list string) : Prop :=
  (exists rels, cmd = ["git"; "add"; "--"] ++ rels)
  \/ cmd = ["git"; "commit"; "-m"; message].

(** *** The states of the event loop

    What a tick may do to a record of the queue: keep its id, and leave it
    as it is or change it in a way [P] allows. *)
Definition touched (py_repr : json -> string) (P : dict -> dict -> Prop)
    (r r' : dict) : Prop :=
  record_id py_repr r' = record_id py_repr r /\ (r' = r \/ P r r').

(** A record whose id is in [ids] gets a status of [statuses]. *)
Definition retagged (py_repr : json -> string) (ids statuses : list string)
    (r r' : dict) : Prop :=
  In (record_id py_repr r) ids /\ In (record_status py_repr r') statuses.

(** The queue file from [w] to [w'], in a stretch of the code that holds
    the payload [p] it has read: the file is as it was, or it is [p] after
    one [_update_task] that gives a task of [ids] a status of [statuses]. *)
Definition rewrites {Ext : Type} (py_repr : json -> string) (p : json)
    (ids statuses : list string) (w w' : World Ext) : Prop :=
  w_queue w' = w_queue w
  \/ exists task_id updates s p',
       In task_id ids /\ In s statuses
       /\ Dict.get "id" (rev updates) = None
       /\ Dict.get "status" (rev updates) = Some (JStr s)
       /\ _update_task py_repr p task_id updates = Ok p'
       /\ w_queue w' = Some p'.

(** The queue file of [w] holds the records [ts]. *)
Definition queue_is {Ext : Type} (w : World Ext) (ts : list dict) : Prop :=
  exists q, w_queue w = Some q /\ _queue_tasks q = Ok ts.

(** What a whole tick does to a record.  [running0] are the ids of the
    running map when the tick starts, [admitted] the ids the admission loop
    of the tick takes, [finished] the ids its loop over the finished tasks
    takes.  The record is as it was; or it was [pending], its id was
    admitted, and it is now [in_progress], or, its id being finished in the
    same tick, [blocked] or [completed]; or it was [in_progress], its id
    was in the running map and was finished, and it is now [blocked] or
    [completed]. *)
Definition moved (py_repr : json -> string)
    (admitted finished running0 : list string) (r r' : dict) : Prop :=
  touched py_repr
    (fun r r' =>
       (record_status py_repr r = "pending"
        /\ In (record_id py_repr r) admitted
        /\ (record_status py_repr r' = "in_progress"
            \/ (In (record_id py_repr r) finished
                /\ In (record_status py_repr r') ["blocked"; "completed"])))
       \/ (record_status py_repr r = "in_progress"
           /\ In (record_id py_repr r) running0
           /\ In (record_id py_repr r) finished
           /\ In (record_status py_repr r') ["blocked"; "completed"]))
    r r'.

(** The keys of the running map are distinct and none is empty. *)
Definition well_keyed (l : Loop) : Prop :=
  NoDup (Dict.keys (running l)) /\ ~ In EmptyString (Dict.keys (running l)).

(** The field [id] of a record is missing, or it is a string that is empty
    or has only whitespace. *)
Definition id_is_blank (r : dict) : Prop :=
  Dict.get "id" r = None
  \/ exists s, Dict.get "id" r = Some (JStr s) /\ PyStr.strip s = EmptyString.

(** The state between two ticks is consistent when the ids of the queue are
    unique, the keys of the running map are distinct and not empty, and
    every record whose id is in the running map is [in_progress]. *)
Definition consistent {Ext : Type} (py_repr : json -> string) (l : Loop)
    (w : World Ext) : Prop :=
  NoDup (Dict.keys (running l))
  /\ ~ In EmptyString (Dict.keys (running l))
  /\ forall q ts,
       w_queue w = Some q -> _queue_tasks q = Ok ts ->
       unique_ids py_repr ts
       /\ forall r, In r ts -> In (record_id py_repr r) (Dict.keys (running l)) ->
                    record_status py_repr r = "in_progress".

Section Reachable.

Variable py_repr : json -> string.
Variable py_int_of_str : string -> option Z.
Variable Ext : Type.
Variable utc_now : Ext -> string.
Variable now_minute : Ext -> string.
Variable git : World Ext -> list string -> Z * string.
Variable poll : Ext -> nat -> option Z.
Variable env : World Ext -> list (string * fnode) * Ext.
Variable args : Args.
Variable repo_root run_root spawn_script : Path.t.
Variable base_branch : string.
Variable only_ids : list string.
Variable id_re : option (string -> bool).
Variable track_paths : list Path.t.

(** The states the loop of [main] goes through from the world [w0] it starts
    in: the dictionaries are empty at first, and each tick that does not end
    the run gives the next state.  Between two ticks the rest of the system
    may move. *)
Inductive reachable (w0 : World Ext) : Loop -> World Ext -> Prop :=
| reach_start : reachable w0 (mkLoop [] [] []) w0
| reach_tick : forall l w l' w',
    reachable w0 l w ->
    tick py_repr py_int_of_str utc_now now_minute git poll env args repo_root
         run_root spawn_script base_branch only_ids id_re track_paths l w
    = (Ok (inr l'), w') ->
    reachable w0 l' w'
| reach_env : forall l w,
    reachable w0 l w -> reachable w0 l (env_step env w).

End Reachable.

(** ** More of the code, and what its properties are stated with *)

Unset Implicit Arguments.

(** Lines put together, each followed by LF. *)
Definition unlines (lines : list string) : string :=
  fold_right (fun l rest => (l ++ newline ++ rest)%string) EmptyString lines.

(** A text without a line boundary. *)
Definition plain_line (s : string) : bool :=
  negb (existsb PyStr.is_linebreak (list_ascii_of_string s)).

(** *** The commands a kickoff prompt requires

    [_extract_required_commands]: the bullets of the section
    "## Commands (required)".  A line is read after [strip]. *)

(** [s.lower() == "## commands (required)" or s.lower() == "commands (required)"] *)
Definition is_commands_heading (s : string) : bool :=
  String.eqb (PyStr.lower s) "## commands (required)"
  || String.eqb (PyStr.lower s) "commands (required)".

(** [s.startswith("## ") and s.lower() != "## commands (required)"] *)
Definition ends_commands (s : string) : bool :=
  PyStr.startswith s "## "
  && negb (String.eqb (PyStr.lower s) "## commands (required)").

(** Group 1 of [re.match] on a line [s] without a line boundary, the
    pattern being a hyphen at the start, whitespace once or more, and the
    rest of the line as the group: what follows the hyphen and the
    whitespace after it. *)
Definition bullet_item (s : string) : option string :=
  match s with
  | String "-" (String c r) =>
      if PyStr.is_space c then Some (PyStr.lstrip r) else None
  | _ => None
  end.

(** [item[1:-1]] when [item] is between backticks. *)
Definition unquote (item : string) : string :=
  if PyStr.startswith item "`" && PyStr.endswith item "`"
     && (2 <=? String.length item)%nat
  then String.substring 1 (String.length item - 2)%nat item
  else item.

(** The loop over the lines, [in_section] being its flag. *)
Fixpoint extract_commands (in_section : bool) (lines : list string) : list string :=
  match lines with
  | [] => []
  | raw :: rest =>
      let s := PyStr.strip raw in
      if negb in_section then extract_commands (is_commands_heading s) rest
      else if ends_commands s then []
      else
        match bullet_item s with
        | None => extract_commands true rest
        | Some g =>
            let item := unquote (PyStr.strip g) in
            if negb (String.eqb item EmptyString)
            then item :: extract_commands true rest
            else extract_commands true rest
        end
  end.

Definition _extract_required_commands (kickoff_prompt : string) : list string :=
  extract_commands false (PyStr.splitlines kickoff_prompt).

(** The assignments [key=value] of a DONE file, one for each line that has
    an [=], in the order of the lines. *)
Definition done_entries (text : string) : list (string * string) :=
  map (fun line =>
         let (k, v) := PyStr.split_once "=" line in (PyStr.strip k, PyStr.strip v))
      (filter (PyStr.contains "=") (PyStr.splitlines text)).

(** The status of the DONE file of a task, as [finish_task] finds it in the
    files of [w]: empty when there is no such file. *)
Definition done_status_at {Ext : Type} (w : World Ext) (run_root : Path.t)
    (task_id : string) : string :=
  match Dict.get (Path.str (Path.join (Path.join run_root task_id)
                                      (task_id ++ ".done")))
                 (w_fs w) with
  | Some (File text) => done_status text
  | _ => EmptyString
  end.

(** A frame that every step of the orchestrator keeps, except writing the
    session log, starting a process and running a git command that changes
    the repository: the queue file may be written as well. *)
Class Calm {Ext : Type} (env : World Ext -> list (string * fnode) * Ext)
    (F : World Ext -> World Ext -> Prop) : Prop := {
  calm_refl : forall w, F w w;
  calm_trans : forall w1 w2 w3, F w1 w2 -> F w2 w3 -> F w1 w3;
  calm_out : forall w o, F w (with_out o w);
  calm_err : forall w o, F w (with_err o w);
  calm_fs : forall w f, F w (with_fs f w);
  calm_queue : forall w q, F w (with_queue q w);
  calm_env : forall w, F w (env_step env w)
}.

(** The git commands of the orchestrator that change the repository. *)
Definition orchestrator_command (base_branch : string) (cmd : list string) : Prop :=
  (exists rels, cmd = ["git"; "add"; "--"] ++ rels)
  \/ (exists what, cmd = ["git"; "commit"; "-m"; ("docs: " ++ what)%string])
  \/ (exists path branch, cmd = ["git"; "worktree"; "add"; path; branch])
  \/ (exists path branch,
        cmd = ["git"; "worktree"; "add"; "-b"; branch; path; base_branch])
  \/ (exists path, cmd = ["git"; "worktree"; "remove"; "--force"; path])
  \/ cmd = ["git"; "checkout"; base_branch]
  \/ (exists branch, cmd = ["git"; "merge"; "--ff-only"; branch]).

(** The command line of a supervisor. *)
Definition spawn_command (args : Args) (run_root spawn_script : Path.t)
    (cmd : list string) : Prop :=
  exists cwd task_id,
    cmd = [ sys_executable; Path.str spawn_script;
            "--repo-root"; cwd;
            "--task-id"; task_id;
            "--run-dir"; Path.str (Path.join run_root task_id);
            "--codex-cmd"; arg_codex_cmd args ].

(** The session log from [w] to [w']: still missing, or what it was with
    text after it. *)
Definition slog_grows {Ext : Type} (w w' : World Ext) : Prop :=
  match w_slog w with
  | None => w_slog w' = None
  | Some s => exists t, w_slog w' = Some (s ++ t)%string
  end.

(** The processes started from [w] to [w'] all satisfy [allowed]. *)
Definition procs_grow {Ext : Type} (allowed : list string -> Prop)
    (w w' : World Ext) : Prop :=
  exists cmds, w_procs w' = w_procs w ++ cmds /\ Forall allowed cmds.

(** ** More of the concrete setting

    Supervisors that are still running when they are polled, a git whose
    working tree is clean, a queue with tasks in progress and a repository
    without the spawn script. *)

Module Fixture.

Definition alive (_ : unit) (_ : nat) : option Z := None.

Definition git_clean (_ : World unit) (_ : list string) : Z * string :=
  (0%Z, EmptyString).

(** A record in progress with an id, one without, and a waiting one. *)
Definition queue_active : json :=
  JArr [ Sample.task "A" "in-progress" [("type", JStr "code")];
         JObj [("status", JStr "IN_PROGRESS"); ("workstream_id", JStr "WS-OPS")];
         Sample.task "B" "todo" [("type", JStr "test")] ].

(** A repository that has no [scripts/spawn_worker.py]. *)
Definition bare_world : World unit :=
  {| w_queue := Some Sample.queue3; w_slog := None;
     w_fs := [("/repo", Directory); ("/repo/docs", Directory)];
     w_git := []; w_procs := []; w_out := []; w_err := []; w_ext := tt |}.


(** The running map after the first tick of a run on
    [Sample.queue_streams] whose supervisors stay alive: [A] and [B] are
    admitted. *)
Definition two_running : Loop := mkLoop [("A", 0); ("B", 1)] [] [].

Definition queue_of (w : World unit) : json :=
  match w_queue w with
  | Some q => q
  | None => JNull
  end.

End Fixture.

Set Implicit Arguments.

(** * Properties *)

Unset Implicit Arguments.

(** ** Strings *)

Lemma mem_In (x : string) (xs : list string) :
  PyStr.mem x xs = true <-> In x xs.
Proof.
  unfold PyStr.mem. rewrite existsb_exists. split.
  - intros [y [Hy He]]. apply String.eqb_eq in He. now subst.
  - intros H. exists x. split; [assumption | apply String.eqb_refl].
Qed.

Lemma mem_false_not_In (x : string) (xs : list string) :
  PyStr.mem x xs = false <-> ~ In x xs.
Proof.
  rewrite <- mem_In. destruct (PyStr.mem x xs); split; congruence.
Qed.

Lemma prefix_app (p s : string) :
  String.prefix p s = true <-> exists b, s = (p ++ b)%string.
Proof.
  revert s. induction p as [|c p IH]; intros s; simpl.
  - split; [intros _; now exists s | intros _; now destruct s].
  - destruct s as [|d s].
    + split; [discriminate | intros [b Hb]; discriminate].
    + simpl. destruct (ascii_dec c d) as [->|Hne].
      * rewrite IH. split; intros [b Hb]; exists b; simpl in *; congruence.
      * split; [discriminate | intros [b Hb]; simpl in Hb; congruence].
Qed.

Lemma startswith_app (s p : string) :
  PyStr.startswith s p = true <-> exists b, s = (p ++ b)%string.
Proof. apply prefix_app. Qed.

Lemma contains_nil (sub : string) :
  PyStr.contains sub EmptyString = String.prefix sub EmptyString.
Proof. simpl. apply orb_false_r. Qed.

Lemma contains_cons (sub : string) (c : ascii) (s : string) :
  PyStr.contains sub (String c s)
  = String.prefix sub (String c s) || PyStr.contains sub s.
Proof. reflexivity. Qed.

Lemma contains_app (sub s : string) :
  PyStr.contains sub s = true <-> exists a b, s = (a ++ sub ++ b)%string.
Proof.
  induction s as [|c s IH].
  - rewrite contains_nil, prefix_app. split.
    + intros [b Hb]. now exists EmptyString, b.
    + intros [a [b Hab]]. destruct a; simpl in Hab; [now exists b | discriminate].
  - rewrite contains_cons, orb_true_iff, prefix_app, IH. split.
    + intros [[b Hb] | [a [b Hab]]].
      * now exists EmptyString, b.
      * exists (String c a), b. simpl. now rewrite Hab.
    + intros [a [b Hab]]. destruct a as [|d a]; simpl in Hab.
      * left. now exists b.
      * right. exists a, b. congruence.
Qed.

Lemma substring_all (s : string) : String.substring 0 (String.length s) s = s.
Proof. induction s; simpl; congruence. Qed.

Lemma substring_skip (a s : string) (k : nat) :
  String.substring (String.length a) k (a ++ s) = String.substring 0 k s.
Proof. induction a; simpl; auto. Qed.

Lemma string_length_app (a b : string) :
  String.length (a ++ b) = String.length a + String.length b.
Proof. induction a; simpl; auto. Qed.

Lemma substring_split (s : string) (n : nat) :
  n <= String.length s ->
  s = (String.substring 0 n s ++ String.substring n (String.length s - n) s)%string.
Proof.
  revert n. induction s as [|c s IH]; intros n Hn.
  - destruct n; reflexivity.
  - destruct n as [|n]; simpl.
    + now rewrite substring_all.
    + simpl in Hn. f_equal. apply IH. lia.
Qed.

Lemma endswith_app (s p : string) :
  PyStr.endswith s p = true <-> exists a, s = (a ++ p)%string.
Proof.
  unfold PyStr.endswith. rewrite andb_true_iff, Nat.leb_le, String.eqb_eq. split.
  - intros [Hle Hsub].
    exists (String.substring 0 (String.length s - String.length p) s).
    pose proof (@substring_split s (String.length s - String.length p)) as H.
    replace (String.length s - (String.length s - String.length p))
      with (String.length p) in H by lia.
    rewrite Hsub in H. apply H. lia.
  - intros [a ->]. rewrite string_length_app. split; [lia|].
    replace (String.length a + String.length p - String.length p)
      with (String.length a) by lia.
    rewrite substring_skip. apply substring_all.
Qed.

Lemma rstrip_head (c : ascii) (r : string) :
  PyStr.is_space c = false -> exists r', PyStr.rstrip (String c r) = String c r'.
Proof.
  intros Hc. simpl. destruct (PyStr.rstrip r).
  - rewrite Hc. now exists EmptyString.
  - eexists. reflexivity.
Qed.

Lemma lstrip_head (s : string) :
  PyStr.lstrip s = EmptyString
  \/ exists c r, PyStr.lstrip s = String c r /\ PyStr.is_space c = false.
Proof.
  induction s as [|c s IH]; simpl; [now left|].
  destruct (PyStr.is_space c) eqn:Hc; [assumption|].
  right. now exists c, s.
Qed.

Lemma rstrip_cons (c : ascii) (r : string) :
  PyStr.rstrip (String c r)
  = match PyStr.rstrip r with
    | EmptyString => if PyStr.is_space c then EmptyString else String c EmptyString
    | r' => String c r'
    end.
Proof. reflexivity. Qed.

Lemma rstrip_idem (s : string) : PyStr.rstrip (PyStr.rstrip s) = PyStr.rstrip s.
Proof.
  induction s as [|c s IH]; [reflexivity|].
  rewrite rstrip_cons.
  destruct (PyStr.rstrip s) as [|d r] eqn:Hr.
  - destruct (PyStr.is_space c) eqn:Hc; simpl; [reflexivity | now rewrite Hc].
  - rewrite rstrip_cons, IH. reflexivity.
Qed.

Lemma strip_idem (s : string) : PyStr.strip (PyStr.strip s) = PyStr.strip s.
Proof.
  unfold PyStr.strip.
  destruct (lstrip_head s) as [-> | [c [r [-> Hc]]]]; [reflexivity|].
  destruct (rstrip_head c r Hc) as [r' Hr']. rewrite Hr'.
  simpl PyStr.lstrip. rewrite Hc. rewrite <- Hr'. apply rstrip_idem.
Qed.

(** ** Kickoff references *)

Lemma looks_like_path_iff (s : string) :
  _looks_like_path s = true <->
  ((exists a b, PyStr.strip s = (a ++ "/" ++ b)%string)
   \/ (exists a, PyStr.strip s = (a ++ ".md")%string)
   \/ (exists a, PyStr.strip s = (a ++ ".txt")%string))
  /\ ~ (exists b, PyStr.strip s = ("#" ++ b)%string).
Proof.
  unfold _looks_like_path.
  rewrite andb_true_iff, !orb_true_iff, negb_true_iff.
  rewrite contains_app, !endswith_app, <- not_true_iff_false, startswith_app.
  tauto.
Qed.

(** C8, as the code has it: a kickoff reference, stripped, is taken for a
    path exactly when it contains [/] or ends with [.md] or ends with [.txt],
    and does not begin with [#].  A reference that is not taken for a path
    gives the stripped reference itself.  For a reference whose path can be
    looked up (no NUL character, no component of more than 255 bytes, less
    than 4096 bytes in all): if it is taken for a path and the file exists,
    it gives the text of the file; if the path does not exist, it gives the
    stripped reference itself.  Nothing is written. *)
Theorem kickoff_reference_resolution :
  forall (Ext : Type) (repo_root : Path.t) (kickoff_ref : string) (w : World Ext),
    let ref := PyStr.strip kickoff_ref in
    let p := Path.resolve (Path.join repo_root ref) in
    let path_like :=
      ((exists a b, ref = (a ++ "/" ++ b)%string)
       \/ (exists a, ref = (a ++ ".md")%string)
       \/ (exists a, ref = (a ++ ".txt")%string))
      /\ ~ (exists b, ref = ("#" ++ b)%string) in
    let can_look_up :=
      has_nul (Path.str (Path.join repo_root ref)) = false
      /\ name_too_long p = false in
    (_looks_like_path ref = true <-> path_like)
    /\ snd (_load_kickoff_text repo_root kickoff_ref w) = w
    /\ (forall text,
           path_like -> can_look_up ->
           Dict.get (Path.str p) (w_fs w) = Some (File text) ->
           fst (_load_kickoff_text repo_root kickoff_ref w) = Ok text)
    /\ (~ path_like -> fst (_load_kickoff_text repo_root kickoff_ref w) = Ok ref)
    /\ (can_look_up ->
        Dict.get (Path.str p) (w_fs w) = None ->
        fst (_load_kickoff_text repo_root kickoff_ref w) = Ok ref).
Proof.
  intros Ext repo_root kickoff_ref w ref p path_like can_look_up.
  assert (Hiff : _looks_like_path ref = true <-> path_like).
  { unfold path_like, ref. rewrite looks_like_path_iff, strip_idem. reflexivity. }
  assert (Hempty : ref = EmptyString -> ~ path_like).
  { intros He [[[a [b H]] | [[a H] | [a H]]] _]; rewrite He in H;
      destruct a; simpl in H; discriminate. }
  unfold can_look_up.
  unfold _load_kickoff_text, bind, path_exists, node_at, read_text, node_at, gets, ret,
    raise.
  fold ref. fold p.
  split; [exact Hiff|].
  destruct (String.eqb ref EmptyString) eqn:He.
  - apply String.eqb_eq in He. simpl.
    split; [reflexivity|]. split; [|split].
    + intros text Hp. now apply Hempty in Hp.
    + intros _. now rewrite He.
    + intros _ _. now rewrite He.
  - destruct (_looks_like_path ref) eqn:Hl.
    + destruct (has_nul (Path.str (Path.join repo_root ref))) eqn:Hnul.
      { simpl. split; [reflexivity|]. split; [|split].
        - intros text _ [Hn _]. discriminate.
        - intros Hn. exfalso. apply Hn, Hiff. reflexivity.
        - intros [Hn _]. discriminate. }
      destruct (name_too_long p) eqn:Hlong.
      { simpl. split; [reflexivity|]. split; [|split].
        - intros text _ [_ Hn]. discriminate.
        - intros Hn. exfalso. apply Hn, Hiff. reflexivity.
        - intros [_ Hn]. discriminate. }
      unfold bind; simpl.
      destruct (Dict.get (Path.str p) (w_fs w)) as [[text|]|] eqn:Hg; simpl;
        try rewrite Hg; simpl.
      * split; [reflexivity|]. split; [|split].
        -- intros text' _ _ Heq. congruence.
        -- intros Hn. exfalso. apply Hn, Hiff. reflexivity.
        -- discriminate.
      * split; [reflexivity|]. split; [|split].
        -- discriminate.
        -- intros Hn. exfalso. apply Hn, Hiff. reflexivity.
        -- discriminate.
      * split; [reflexivity|]. split; [|split].
        -- discriminate.
        -- reflexivity.
        -- reflexivity.
    + simpl. split; [reflexivity|]. split; [|split].
      * intros text Hp. apply Hiff in Hp. discriminate.
      * reflexivity.
      * reflexivity.
Qed.

(** C8, as the claim words it, fails: [notes.md] contains no [/], so the
    claim takes it for inline text, while the code takes it for a path and
    reads the file.  And a reference whose path does not exist does not
    always become the prompt: a name of 300 letters before [.md] is taken
    for a path, nothing is at that path, and the lookup raises. *)
Lemma kickoff_claim_counterexample :
  claimed_path_like "notes.md" = false
  /\ _looks_like_path "notes.md" = true
  /\ fst (_load_kickoff_text (Path.parse "/repo") "notes.md"
            (Sample.world (JArr []) [("/repo/notes.md", File "Do the work.")]))
     = Ok "Do the work."
  /\ _looks_like_path Sample.long_ref = true
  /\ Dict.get (Path.str (Path.resolve (Path.join (Path.parse "/repo") Sample.long_ref)))
               (w_fs (Sample.world (JArr []) []))
     = None
  /\ fst (_load_kickoff_text (Path.parse "/repo") Sample.long_ref
            (Sample.world (JArr []) []))
     = Raise (OSError "ENAMETOOLONG").
Proof. vm_compute. repeat split. Qed.

(** ** The blocker line of the session log *)

Lemma blocker_pattern_needs_backslash (line g : string) :
  blocker_match_line line = Some g ->
  exists r, line = String "-" (String backslash r).
Proof.
  unfold blocker_match_line, opt_bind, eat_char.
  destruct line as [|c line]; [discriminate|].
  destruct (Ascii.eqb "-" c) eqn:Hc; [|discriminate].
  apply Ascii.eqb_eq in Hc. subst c.
  destruct line as [|d line]; [discriminate|].
  unfold is_backslash at 1.
  destruct (Ascii.eqb d backslash) eqn:Hd; [|discriminate].
  apply Ascii.eqb_eq in Hd. subst d.
  intros _. now exists line.
Qed.

Lemma first_some_none {A B : Type} (f : A -> option B) (xs : list A) :
  (forall x, In x xs -> f x = None) -> first_some f xs = None.
Proof.
  induction xs as [|x xs IH]; intros H; simpl; [reflexivity|].
  rewrite (H x (or_introl eq_refl)). apply IH. intros y Hy. apply H. now right.
Qed.

(** Whatever the worker wrote, a message none of whose lines begins with a
    hyphen followed by a backslash gives [- Blockers: none]. *)
Lemma blockers_line_without_backslash (msg : string) :
  (forall line r, In line (PyStr.split_char (ascii_of_nat 10) msg) ->
                  line <> String "-" (String backslash r)) ->
  blockers_line_of (Some msg) = "- Blockers: none".
Proof.
  intros H. unfold blockers_line_of, blocker_search.
  rewrite first_some_none; [reflexivity|].
  intros line Hin. destruct (blocker_match_line line) as [g|] eqn:Hm; [|reflexivity].
  apply blocker_pattern_needs_backslash in Hm. destruct Hm as [r Hr].
  exfalso. exact (H line r Hin Hr).
Qed.

(** C9 at a markdown bullet: the worker's last message names a blocker in
    the form the claim describes, and the END entry still ends with
    [- Blockers: none]. *)
Theorem blockers_line_markdown_bullet :
  blocker_search "- **Blockers**: need credentials" = None
  /\ blockers_line_of (Some "- **Blockers**: need credentials") = "- Blockers: none"
  /\ (let w :=
        with_slog (Some EmptyString)
          (Sample.world (JArr [])
             [("/repo/.runs/A/last_message.md",
               File "- **Blockers**: need credentials")]) in
      match w_slog (snd (_session_log_end Sample.minute "A" "Agent" EmptyString
                           (Path.parse "/repo/.runs/A/last_message.md") [] w)) with
      | Some text => PyStr.endswith text ("- Blockers: none" ++ Sample.lf)
      | None => false
      end = true).
Proof. repeat split. Qed.

(** ** Loading tasks *)

Section Loading.

Variable py_repr : json -> string.
Variable py_int_of_str : string -> option Z.

Local Abbreviation rec_id := (record_id py_repr).
Local Abbreviation rec_status := (record_status py_repr).
Local Abbreviation load_rec := (load_record py_repr py_int_of_str).
Local Abbreviation load_at := (load_from py_repr py_int_of_str).

Lemma load_record_some (idx : nat) (t : dict) (x : Task) :
  load_rec idx t = Ok (Some x) ->
  index x = idx /\ id x = rec_id t /\ id x <> EmptyString
  /\ status x = rec_status t.
Proof.
  unfold load_record.
  destruct (String.eqb (rec_id t) EmptyString) eqn:He; [discriminate|].
  destruct (record_depends_on py_repr t); [|discriminate].
  intros H. injection H as <-. simpl.
  apply String.eqb_neq in He. auto.
Qed.

Lemma load_record_none (idx : nat) (t : dict) :
  load_rec idx t = Ok None <-> rec_id t = EmptyString.
Proof.
  unfold load_record.
  destruct (String.eqb (rec_id t) EmptyString) eqn:He.
  - apply String.eqb_eq in He. tauto.
  - apply String.eqb_neq in He.
    destruct (record_depends_on py_repr t); split; intros; congruence.
Qed.

(** Every task that is loaded comes from the record at its index. *)
Lemma load_from_origin (ts : list dict) :
  forall idx out x,
    load_at idx ts = Ok out -> In x out ->
    idx <= index x
    /\ exists t, nth_error ts (index x - idx) = Some t
                 /\ load_rec (index x) t = Ok (Some x).
Proof.
  induction ts as [|t ts IH]; intros idx out x Hl Hin; simpl in Hl.
  - injection Hl as <-. contradiction.
  - destruct (load_rec idx t) as [o|] eqn:Hr; [|discriminate].
    destruct (load_at (S idx) ts) as [out'|] eqn:Hl'; [|discriminate].
    injection Hl as <-.
    assert (Hrest : In x out' ->
                    idx <= index x
                    /\ exists t0, nth_error (t :: ts) (index x - idx) = Some t0
                                  /\ load_rec (index x) t0 = Ok (Some x)).
    { intros Hx. destruct (IH _ _ _ Hl' Hx) as [Hle [t0 [Hn Hr0]]].
      split; [lia|]. exists t0. split; [|assumption].
      replace (index x - idx) with (S (index x - S idx)) by lia. exact Hn. }
    destruct o as [y|]; [|auto].
    destruct Hin as [-> | Hx]; [|auto].
    destruct (load_record_some _ _ _ Hr) as [Hi _].
    split; [lia|]. exists t. rewrite Hi, Nat.sub_diag. split; [reflexivity|].
    now rewrite Hi in *.
Qed.

(** The tasks are loaded in the order of their indices. *)
Lemma load_from_increasing (ts : list dict) :
  forall idx out,
    load_at idx ts = Ok out ->
    StronglySorted (fun a b => index a < index b) out.
Proof.
  induction ts as [|t ts IH]; intros idx out Hl; simpl in Hl.
  - injection Hl as <-. constructor.
  - destruct (load_rec idx t) as [o|] eqn:Hr; [|discriminate].
    destruct (load_at (S idx) ts) as [out'|] eqn:Hl'; [|discriminate].
    injection Hl as <-. specialize (IH _ _ Hl').
    destruct o as [y|]; [|assumption].
    constructor; [assumption|].
    apply Forall_forall. intros x Hx.
    destruct (load_from_origin _ _ _ _ Hl' Hx) as [Hle _].
    destruct (load_record_some _ _ _ Hr) as [Hi _]. lia.
Qed.

(** A record whose id is empty gives no task, and a record whose id is not
    gives one unless loading fails. *)
Lemma load_from_skips (ts : list dict) :
  forall idx out x i t,
    load_at idx ts = Ok out -> In x out ->
    nth_error ts i = Some t -> rec_id t = EmptyString ->
    index x <> idx + i.
Proof.
  intros idx out x i t Hl Hin Hn He Hidx.
  destruct (load_from_origin _ _ _ _ Hl Hin) as [Hle [t0 [Hn0 Hr0]]].
  replace (index x - idx) with i in Hn0 by lia.
  rewrite Hn in Hn0. injection Hn0 as <-.
  destruct (load_record_some _ _ _ Hr0) as [_ [Hid [Hne _]]]. congruence.
Qed.

End Loading.

(** ** The ready set *)

Lemma insert_by_order_perm (t : Task) (l : list Task) :
  Permutation (t :: l) (insert_by_order t l).
Proof.
  induction l as [|u l IH]; simpl; [reflexivity|].
  destruct (order t <=? order u)%Z; [reflexivity|].
  rewrite perm_swap. now constructor.
Qed.

Lemma sorted_by_order_perm (l : list Task) : Permutation l (sorted_by_order l).
Proof.
  induction l as [|t l IH]; simpl; [reflexivity|].
  rewrite <- insert_by_order_perm. now constructor.
Qed.






Lemma set_add_In (x y : string) (s : list string) :
  In y (set_add x s) <-> y = x \/ In y s.
Proof.
  unfold set_add. destruct (PyStr.mem x s) eqn:Hm.
  - apply mem_In in Hm. split; [auto | intros [-> | H]; assumption].
  - rewrite in_app_iff. simpl. intuition.
Qed.

Lemma fold_set_add_In {A : Type} (f : A -> string) (l : list A) :
  forall acc y,
    In y (fold_left (fun acc t => set_add (f t) acc) l acc)
    <-> In y acc \/ exists t, In t l /\ f t = y.
Proof.
  induction l as [|t l IH]; intros acc y; simpl.
  - split; [auto | intros [H | [t [[] _]]]; assumption].
  - rewrite IH, set_add_In. split.
    + intros [[-> | H] | [u [Hu Hf]]]; eauto.
    + intros [H | [u [[<- | Hu] Hf]]]; eauto.
Qed.

Section Ready.

Variable only_ids : list string.
Variable id_re : option (string -> bool).

Lemma done_ids_In (tasks_all : list Task) (d : string) :
  PyStr.mem d (done_ids tasks_all) = true
  <-> exists u, In u tasks_all /\ id u = d /\ status u = "completed".
Proof.
  rewrite mem_In. unfold done_ids. rewrite fold_set_add_In. split.
  - intros [[] | [u [Hu Hd]]]. apply filter_In in Hu. destruct Hu as [Hu Hs].
    apply String.eqb_eq in Hs. eauto.
  - intros [u [Hu [Hd Hs]]]. right. exists u. split; [|assumption].
    apply filter_In. split; [assumption|]. now apply String.eqb_eq.
Qed.

Lemma runnable_In (tasks : list Task) (done : list string) (t : Task) :
  In t (_runnable_tasks tasks done)
  <-> In t tasks /\ status t = "pending"
      /\ forall d, In d (depends_on t) -> PyStr.mem d done = true.
Proof.
  unfold _runnable_tasks. split.
  - intros H.
    apply (Permutation_in _ (Permutation_sym (sorted_by_order_perm _))) in H.
    apply filter_In in H. destruct H as [Hin Hr].
    unfold is_runnable, deps_done in Hr. apply andb_true_iff in Hr.
    destruct Hr as [Hs Hd]. apply String.eqb_eq in Hs.
    rewrite forallb_forall in Hd. auto.
  - intros [Hin [Hs Hd]].
    apply (Permutation_in _ (sorted_by_order_perm _)).
    apply filter_In. split; [assumption|].
    unfold is_runnable, deps_done. apply andb_true_iff. split.
    + now apply String.eqb_eq.
    + now apply forallb_forall.
Qed.


End Ready.

(** ** The monad *)

Section Monad.

Variable Ext : Type.

Lemma bind_ok {A B : Type} (m : M Ext A) (k : A -> M Ext B) (w w1 : World Ext) (a : A) :
  m w = (Ok a, w1) -> bind m k w = k a w1.
Proof. intros H. unfold bind. now rewrite H. Qed.

Lemma bind_raise {A B : Type} (m : M Ext A) (k : A -> M Ext B) (w w1 : World Ext)
    (e : exn) :
  m w = (Raise e, w1) -> bind m k w = (Raise e, w1).
Proof. intros H. unfold bind. now rewrite H. Qed.

Lemma bind_inv {A B : Type} (m : M Ext A) (k : A -> M Ext B) (w w' : World Ext)
    (r : res B) :
  bind m k w = (r, w') ->
  (exists e, m w = (Raise e, w') /\ r = Raise e)
  \/ (exists a w1, m w = (Ok a, w1) /\ k a w1 = (r, w')).
Proof.
  unfold bind. destruct (m w) as [[a|e] w1]; intros H.
  - right. now exists a, w1.
  - left. exists e. now injection H as <- <-.
Qed.

Lemma print_planned_out (repo_root : Path.t) (planned : list Task) (w : World Ext) :
  print_planned repo_root planned w
  = (Ok tt,
     with_out
       (w_out w
        ++ map (fun t =>
                  ("DRY RUN: would spawn " ++ id t ++ " (" ++ workstream_id t
                   ++ ") in " ++ Path.str (planned_cwd repo_root t))%string)
               planned)
       w).
Proof.
  revert w. induction planned as [|t planned IH]; intros w; simpl.
  - unfold ret, with_out. rewrite app_nil_r. now destruct w.
  - unfold bind, print, modify. rewrite IH. unfold with_out; simpl.
    now rewrite <- app_assoc.
Qed.

Lemma bind_eq {A B : Type} (m : M Ext A) (k : A -> M Ext B) (w w1 : World Ext)
    (r : res A) :
  m w = (r, w1) ->
  bind m k w = match r with Ok a => k a w1 | Raise e => (Raise e, w1) end.
Proof. intros H. unfold bind. now rewrite H. Qed.

(** *** Frames: what a computation leaves as it is *)

Section Frame.

Variable F : World Ext -> World Ext -> Prop.
Hypothesis F_refl : forall w, F w w.
Hypothesis F_trans : forall w1 w2 w3, F w1 w2 -> F w2 w3 -> F w1 w3.

Local Abbreviation keeps := (keeps F).

Lemma keeps_ret {A : Type} (a : A) : keeps (ret a).
Proof. intros w. apply F_refl. Qed.

Lemma keeps_raise {A : Type} (e : exn) : keeps (@raise Ext A e).
Proof. intros w. apply F_refl. Qed.

Lemma keeps_lift {A : Type} (r : res A) : keeps (lift r).
Proof. intros w. apply F_refl. Qed.

Lemma keeps_gets {A : Type} (f : World Ext -> A) : keeps (gets f).
Proof. intros w. apply F_refl. Qed.

Lemma keeps_modify (f : World Ext -> World Ext) :
  (forall w, F w (f w)) -> keeps (modify f).
Proof. intros H w. apply H. Qed.

Lemma keeps_bind {A B : Type} (m : M Ext A) (k : A -> M Ext B) :
  keeps m -> (forall a, keeps (k a)) -> keeps (bind m k).
Proof.
  intros Hm Hk w. unfold bind. specialize (Hm w).
  destruct (m w) as [[a|e] w1]; simpl in *; [|assumption].
  eapply F_trans; [exact Hm | apply Hk].
Qed.

Lemma keeps_when (b : bool) (m : M Ext unit) : keeps m -> keeps (when b m).
Proof. intros H. destruct b; [exact H | apply keeps_ret]. Qed.

(** A step of a computation whose head keeps the frame. *)
Lemma bind_keeps_inv {A B : Type} (m : M Ext A) (k : A -> M Ext B)
    (w w' : World Ext) (r : res B) :
  keeps m ->
  bind m k w = (r, w') ->
  (exists e, r = Raise e /\ F w w')
  \/ (exists a w1, F w w1 /\ k a w1 = (r, w')).
Proof.
  intros Hm H. specialize (Hm w). apply bind_inv in H.
  destruct H as [[e [He ->]] | [a [w1 [Ha Hk]]]].
  - left. exists e. rewrite He in Hm. auto.
  - right. exists a, w1. rewrite Ha in Hm. auto.
Qed.

End Frame.

Lemma keeps_snd {A : Type} (F : World Ext -> World Ext -> Prop) (m : M Ext A)
    (w w' : World Ext) (r : res A) :
  m w = (r, w') -> keeps F m -> F w w'.
Proof. intros H Hk. specialize (Hk w). now rewrite H in Hk. Qed.

Lemma yields_ret {A : Type} (P : A -> Prop) (a : A) : P a -> yields P (@ret Ext A a).
Proof. intros H w b Hb. simpl in Hb. now injection Hb as <-. Qed.

Lemma yields_raise {A : Type} (P : A -> Prop) (e : exn) : yields P (@raise Ext A e).
Proof. intros w b Hb. discriminate. Qed.

Lemma yields_bind {A B : Type} (P : B -> Prop) (m : M Ext A) (k : A -> M Ext B) :
  (forall a, yields P (k a)) -> yields P (bind m k).
Proof.
  intros Hk w b. unfold bind. destruct (m w) as [[a|e] w1]; [apply Hk | discriminate].
Qed.

End Monad.


(** ** The dry run *)

Section DryRun.

Variable py_repr : json -> string.
Variable py_int_of_str : string -> option Z.
Variable re_compile : string -> option (string -> bool).
Variable Ext : Type.
Variable utc_now : Ext -> string.
Variable now_minute : Ext -> string.
Variable git : World Ext -> list string -> Z * string.
Variable poll : Ext -> nat -> option Z.
Variable env : World Ext -> list (string * fnode) * Ext.

Local Abbreviation the_tick :=
  (tick py_repr py_int_of_str utc_now now_minute git poll env).
Local Abbreviation the_loop :=
  (loop py_repr py_int_of_str utc_now now_minute git poll env).
Local Abbreviation the_main :=
  (main py_repr py_int_of_str re_compile utc_now now_minute git poll env).

Lemma only_printed_refl (w : World Ext) : only_printed w w.
Proof. unfold only_printed, with_out. now destruct w. Qed.

Lemma only_printed_trans (w1 w2 w3 : World Ext) :
  only_printed w1 w2 -> only_printed w2 w3 -> only_printed w1 w3.
Proof.
  unfold only_printed, with_out. intros H12 H23. rewrite H23, H12. reflexivity.
Qed.

Lemma only_printed_print (s : string) : keeps (@only_printed Ext) (print s).
Proof. intros w. unfold only_printed, print, modify, with_out. reflexivity. Qed.

Lemma only_printed_run_read (cmd : list string) (check : bool) :
  git_reads cmd = true -> keeps (@only_printed Ext) (_run git env cmd check).
Proof.
  intros Hr w. unfold _run. rewrite Hr. destruct (git w cmd) as [rc out].
  destruct (check && negb (rc =? 0)%Z); apply only_printed_refl.
Qed.

Lemma only_printed_print_planned (repo_root : Path.t) (planned : list Task) :
  keeps (@only_printed Ext) (print_planned repo_root planned).
Proof.
  intros w. rewrite print_planned_out. unfold only_printed, with_out. reflexivity.
Qed.

Ltac keeps_printed :=
  repeat first
    [ apply keeps_ret; [exact only_printed_refl]
    | apply keeps_raise; [exact only_printed_refl]
    | apply keeps_lift; [exact only_printed_refl]
    | apply keeps_gets; [exact only_printed_refl]
    | apply only_printed_print
    | apply only_printed_print_planned
    | apply only_printed_run_read; reflexivity
    | apply keeps_bind; [exact only_printed_trans | | intro]
    | match goal with
      | |- keeps _ (if ?b then _ else _) => destruct b
      | |- keeps _ (match ?x with _ => _ end) => destruct x
      end ].

Ltac yields_step :=
  repeat first
    [ apply yields_raise
    | apply yields_bind; intro
    | match goal with
      | |- yields _ (if ?b then _ else _) => destruct b
      | |- yields _ (match ?x with _ => _ end) => destruct x
      end ].

Section Tick.

Variable args : Args.
Variable repo_root run_root spawn_script : Path.t.
Variable base_branch : string.
Variable only_ids : list string.
Variable id_re : option (string -> bool).
Variable track_paths : list Path.t.
Hypothesis Hdry : arg_dry_run args = true.

Local Abbreviation tick_here :=
  (the_tick args repo_root run_root spawn_script base_branch only_ids id_re
            track_paths).
Local Abbreviation loop_here :=
  (the_loop args repo_root run_root spawn_script base_branch only_ids id_re
            track_paths).

Lemma tick_dry_run_keeps (l : Loop) : keeps (@only_printed Ext) (tick_here l).
Proof. unfold tick, _read_json. rewrite Hdry. keeps_printed. Qed.

Lemma tick_dry_run_returns (l : Loop) :
  yields (fun r => exists code, r = inl code) (tick_here l).
Proof.
  unfold tick. rewrite Hdry. yields_step; apply yields_ret; eauto.
Qed.

Lemma loop_dry_run_keeps (fuel : nat) (l : Loop) :
  keeps (@only_printed Ext) (loop_here fuel l).
Proof.
  revert l. induction fuel as [|fuel IH]; intros l; simpl.
  - apply keeps_ret. exact only_printed_refl.
  - apply keeps_bind; [exact only_printed_trans | apply tick_dry_run_keeps|].
    intros [code|l']; [|apply IH]. apply keeps_ret. exact only_printed_refl.
Qed.

Lemma loop_dry_run_returns (fuel : nat) (l : Loop) :
  yields (fun r => r <> None) (loop_here (S fuel) l).
Proof.
  intros w r. simpl. unfold bind.
  pose proof (tick_dry_run_returns l w) as Ht.
  destruct (tick_here l w) as [[x|e] w1]; [|discriminate].
  destruct (Ht x eq_refl) as [code ->]. simpl. intros H. injection H as <-. discriminate.
Qed.

Lemma read_json_eq (w : World Ext) (payload : json) :
  w_queue w = Some payload -> _read_json w = (Ok payload, w).
Proof. intros H. unfold _read_json, bind, gets, ret. now rewrite H. Qed.

Lemma queue_tasks_of_load (payload : json) (tasks_all : list Task) :
  _load_tasks py_repr py_int_of_str payload = Ok tasks_all ->
  exists ts, _queue_tasks payload = Ok ts.
Proof.
  unfold _load_tasks. destruct (_queue_tasks payload) as [ts|]; [eauto | discriminate].
Qed.

Lemma tick_dry_run_eq (l : Loop) (w : World Ext) (payload : json)
    (tasks_all : list Task) :
  w_queue w = Some payload ->
  _load_tasks py_repr py_int_of_str payload = Ok tasks_all ->
  let report :=
    dry_run_report py_repr args repo_root only_ids id_re payload tasks_all in
  tick_here l w = (Ok (inl (fst report)), with_out (w_out w ++ snd report) w).
Proof.
  intros Hq Hload report. subst report. unfold tick, dry_run_report.
  rewrite (bind_eq _ _ _ _ _ _ (read_json_eq _ _ Hq)).
  unfold lift at 1. unfold bind at 1. rewrite Hload.
  destruct (match blocked_tasks only_ids tasks_all with [] => false | _ => true end
            && arg_stop_on_blocked args).
  - reflexivity.
  - rewrite Hdry.
    destruct (queue_tasks_of_load _ _ Hload) as [ts Hts].
    unfold _active_workstreams. rewrite Hts. unfold lift, bind.
    match goal with
    | |- context [plan ?a ?b ?c ?d] => destruct (plan a b c d) as [|t planned] eqn:Hp
    end.
    + reflexivity.
    + unfold bind. rewrite print_planned_out. reflexivity.
Qed.

End Tick.

Lemma main_dry_run_eq (fuel : nat) (args : Args) (w : World Ext)
    (payload : json) (tasks_all : list Task) (base : string)
    (id_re : option (string -> bool)) :
  arg_dry_run args = true ->
  w_queue w = Some payload ->
  _load_tasks py_repr py_int_of_str payload = Ok tasks_all ->
  git w ["git"; "rev-parse"; "--abbrev-ref"; "HEAD"] = (0%Z, base) ->
  compile_id_regex re_compile args = Some id_re ->
  the_main (S fuel) args w
  = (let report :=
       dry_run_report py_repr args
         (Path.resolve (Path.parse (arg_repo_root args)))
         (parse_only_ids (arg_only_task_ids args)) id_re payload tasks_all in
     (Ok (Some (fst report)), with_out (w_out w ++ snd report) w)).
Proof.
  intros Hdry Hq Hload Hgit Hre.
  unfold main. rewrite Hdry. cbn [negb].
  unfold bind at 1. unfold ret at 1.
  unfold _git_current_branch, _run. cbn [git_reads PyStr.mem existsb].
  unfold bind at 1. unfold bind at 1. rewrite Hgit.
  cbn [String.eqb Ascii.eqb Bool.eqb orb andb negb Z.eqb fst snd].
  unfold ret at 1.
  unfold compile_id_regex in Hre.
  assert (Hre' :
    (if negb (String.eqb (arg_id_regex args) EmptyString)
     then match re_compile (arg_id_regex args) with
          | Some search => ret (Some search)
          | None => raise ReError
          end
     else ret None) w = (Ok id_re, w)).
  { destruct (String.eqb (arg_id_regex args) EmptyString); simpl in *.
    - now injection Hre as <-.
    - destruct (re_compile (arg_id_regex args)); simpl in *;
        [now injection Hre as <- | discriminate]. }
  rewrite (bind_eq _ _ _ _ _ _ Hre').
  unfold session_log_exists at 1. unfold bind at 1. unfold gets at 1.
  unfold bind at 1. unfold ret at 1.
  cbn [loop]. unfold bind at 1.
  rewrite (tick_dry_run_eq _ _ _ _ _ _ _ _ Hdry _ _ _ _ Hq Hload).
  reflexivity.
Qed.

Lemma filter_none {A : Type} (f : A -> bool) (l : list A) :
  (forall x, In x l -> f x = false) -> filter f l = [].
Proof.
  induction l as [|x l IH]; intros H; simpl; [reflexivity|].
  rewrite (H x (or_introl eq_refl)). apply IH. intros y Hy. apply H. now right.
Qed.

(** C3, as the code has it: with [--dry-run] the run changes nothing but
    the standard output: the queue file, the session log, every other file,
    the repository and the processes are as they were, whether the run
    returns or raises.  The run does not outlast its first tick.  When the
    current branch is read ([git rev-parse --abbrev-ref HEAD] exits with 0),
    the pattern of [--id-regex] compiles and the queue loads: the run
    returns 0 after the would-be spawns, or the message that nothing is
    runnable, if [--stop-on-blocked] is not set or no blocked task is
    allowed by [--only-task-ids]; and it returns 1 after the line of the
    stop if [--stop-on-blocked] is set and a task in the scope of both
    [--only-task-ids] and [--id-regex] is blocked. *)
Theorem dry_run_is_pure :
  forall (fuel : nat) (args : Args) (w : World Ext),
    arg_dry_run args = true ->
    let result := the_main (S fuel) args w in
    only_printed w (snd result)
    /\ fst result <> Ok None
    /\ (forall payload tasks_all base id_re,
          w_queue w = Some payload ->
          _load_tasks py_repr py_int_of_str payload = Ok tasks_all ->
          git w ["git"; "rev-parse"; "--abbrev-ref"; "HEAD"] = (0%Z, base) ->
          compile_id_regex re_compile args = Some id_re ->
          let repo_root := Path.resolve (Path.parse (arg_repo_root args)) in
          let only_ids := parse_only_ids (arg_only_task_ids args) in
          let runnable :=
            _runnable_tasks (filter (in_scope only_ids id_re) tasks_all)
                            (done_ids tasks_all) in
          (arg_stop_on_blocked args = false
           \/ (forall t, In t tasks_all -> status t = "blocked" ->
                         in_only_ids only_ids t = false) ->
           exists active,
             _active_workstreams py_repr payload = Ok active
             /\ fst result = Ok (Some 0%Z)
             /\ w_out (snd result)
                = w_out w
                  ++ match plan args runnable active [] with
                     | [] => ["DRY RUN: no runnable tasks (within scope)."]
                     | planned =>
                         map (fun t =>
                                ("DRY RUN: would spawn " ++ id t ++ " ("
                                 ++ workstream_id t ++ ") in "
                                 ++ Path.str (planned_cwd repo_root t))%string)
                             planned
                     end)
          /\ (arg_stop_on_blocked args = true ->
              (exists t, In t tasks_all /\ status t = "blocked"
                         /\ in_scope only_ids id_re t = true) ->
              fst result = Ok (Some 1%Z)
              /\ exists n,
                   0 < n
                   /\ w_out (snd result)
                      = w_out w
                        ++ [("STOP: " ++ PyStr.of_nat n ++ " blocked task(s).")%string])).
Proof.
  intros fuel args w Hdry result. subst result. split; [|split].
  - revert w. change (keeps (@only_printed Ext) (the_main (S fuel) args)).
    unfold main. rewrite Hdry. cbn [negb].
    apply keeps_bind; [exact only_printed_trans | |].
    + apply keeps_ret. exact only_printed_refl.
    + intros [code|].
      * apply keeps_ret. exact only_printed_refl.
      * unfold _git_current_branch, session_log_exists.
        apply keeps_bind; [exact only_printed_trans | keeps_printed | intro].
        apply keeps_bind; [exact only_printed_trans | keeps_printed | intro].
        apply keeps_bind; [exact only_printed_trans | keeps_printed | intro].
        apply loop_dry_run_keeps. assumption.
  - intros Hnone.
    assert (Hy : yields (fun r => r <> None) (the_main (S fuel) args)).
    { unfold main. rewrite Hdry. cbn [negb].
      apply yields_bind. intros [code|].
      - apply yields_ret. discriminate.
      - do 3 (apply yields_bind; intro). now apply loop_dry_run_returns. }
    exact (Hy w None Hnone eq_refl).
  - intros payload tasks_all base id_re Hq Hload Hgit Hre repo_root only_ids runnable.
    rewrite (main_dry_run_eq fuel args w payload tasks_all base id_re
               Hdry Hq Hload Hgit Hre).
    cbv zeta. unfold dry_run_report. fold repo_root. fold only_ids. fold runnable.
    split.
    + intros Hquiet.
      assert (Hcond :
        match blocked_tasks only_ids tasks_all with [] => false | _ => true end
        && arg_stop_on_blocked args = false).
      { destruct Hquiet as [Hs | Hb]; [rewrite Hs; apply andb_false_r|].
        unfold blocked_tasks. rewrite filter_none; [reflexivity|].
        intros t Ht. destruct (String.eqb (status t) "blocked") eqn:Hst;
          [|reflexivity].
        apply String.eqb_eq in Hst. simpl. now apply Hb. }
      rewrite Hcond.
      destruct (queue_tasks_of_load _ _ Hload) as [ts Hts].
      destruct (_active_workstreams py_repr payload) as [active|e] eqn:Ha.
      2: { unfold _active_workstreams in Ha. rewrite Hts in Ha. discriminate. }
      exists active. split; [reflexivity|].
      destruct (plan args runnable active []); split; reflexivity.
    + intros Hstop [t [Ht [Hst Hsc]]].
      assert (Hin : In t (blocked_tasks only_ids tasks_all)).
      { unfold blocked_tasks. apply filter_In. split; [exact Ht|].
        rewrite Hst. simpl. unfold in_scope in Hsc.
        apply andb_true_iff in Hsc. tauto. }
      rewrite Hstop.
      destruct (blocked_tasks only_ids tasks_all) as [|b bs]; [destruct Hin|].
      cbn [andb fst snd]. split; [reflexivity|].
      exists (List.length (b :: bs)). split; [simpl; lia | reflexivity].
Qed.

End DryRun.

(** ** What the steps of the orchestrator keep *)

Section FrameLib.

Variable Ext : Type.
Variable utc_now : Ext -> string.
Variable now_minute : Ext -> string.
Variable git : World Ext -> list string -> Z * string.
Variable poll : Ext -> nat -> option Z.
Variable env : World Ext -> list (string * fnode) * Ext.
Variable F : World Ext -> World Ext -> Prop.
Context {HF : Frame env F}.

Local Abbreviation keepsF := (keeps F).

Lemma kp_ret {A : Type} (a : A) : keepsF (ret a).
Proof. apply keeps_ret, frame_refl. Qed.

Lemma kp_raise {A : Type} (e : exn) : keepsF (@raise Ext A e).
Proof. apply keeps_raise, frame_refl. Qed.

Lemma kp_lift {A : Type} (r : res A) : keepsF (lift r).
Proof. apply keeps_lift, frame_refl. Qed.

Lemma kp_gets {A : Type} (f : World Ext -> A) : keepsF (gets f).
Proof. apply keeps_gets, frame_refl. Qed.

Lemma kp_bind {A B : Type} (m : M Ext A) (k : A -> M Ext B) :
  keepsF m -> (forall a, keepsF (k a)) -> keepsF (bind m k).
Proof. apply keeps_bind, frame_trans. Qed.

Lemma kp_when (b : bool) (m : M Ext unit) : keepsF m -> keepsF (when b m).
Proof. apply keeps_when, frame_refl. Qed.

Lemma kp_print (s : string) : keepsF (print s).
Proof. intros w. apply frame_out. Qed.

Lemma kp_eprint (s : string) : keepsF (eprint s).
Proof. intros w. apply frame_err. Qed.

Lemma kp_set_fs (f : World Ext -> list (string * fnode)) :
  keepsF (modify (fun w => with_fs (f w) w)).
Proof. intros w. apply frame_fs. Qed.

Lemma kp_set_slog (l : option string) : keepsF (modify (with_slog l)).
Proof. intros w. apply frame_slog. Qed.

Lemma kp_watch : keepsF (_file_watch_once env).
Proof. intros w. apply frame_env. Qed.

Lemma kp_popen (cmd : list string) : keepsF (popen env cmd).
Proof.
  intros w. unfold popen. simpl.
  eapply frame_trans; [apply (frame_procs w (w_procs w ++ [cmd])) | apply frame_env].
Qed.

(** A git command keeps the frame when it only reads, or when the frame
    admits it. *)
Lemma kp_run (cmd : list string) (check : bool) :
  git_reads cmd = true
  \/ (forall w, F w (with_git (w_git w ++ [cmd]) w)) ->
  keepsF (_run git env cmd check).
Proof.
  intros Hc w. unfold _run. destruct (git w cmd) as [rc out].
  assert (Hw : F w (if git_reads cmd then w
                    else env_step env (with_git (w_git w ++ [cmd]) w))).
  { destruct (git_reads cmd) eqn:Hr; [apply frame_refl|].
    destruct Hc as [Hc | Hc]; [discriminate|].
    eapply frame_trans; [apply Hc | apply frame_env]. }
  destruct (check && negb (rc =? 0)%Z); exact Hw.
Qed.

Lemma kp_tail_lines (path : Path.t) (n : nat) : keepsF (_tail_lines path n).
Proof.
  intros w. unfold _tail_lines, read_text, node_at, bind, gets.
  destruct (Dict.get (Path.str path) (w_fs w)) as [[text|]|]; simpl; apply frame_refl.
Qed.

Lemma kp_catch (m : M Ext unit) : keepsF m -> keepsF (catch_called_process_error m).
Proof.
  intros Hm w. specialize (Hm w). unfold catch_called_process_error.
  destruct (m w) as [[u|e] w1]; [exact Hm|]. destruct e; exact Hm.
Qed.

Lemma kp_mkdir_each (ps : list Path.t) : keepsF (mkdir_each ps).
Proof.
  induction ps as [|p ps IH]; simpl; [apply kp_ret|].
  apply kp_bind; [apply kp_gets|]. intros [[text|]|].
  - apply kp_raise.
  - exact IH.
  - apply kp_bind; [apply kp_set_fs | intro; exact IH].
Qed.

End FrameLib.

(** The steps that are built from the ones above. *)
Ltac keeps_step env :=
  lazymatch goal with
  | |- keeps ?F _ =>
      first
        [ apply (kp_ret _ env F) | apply (kp_raise _ env F) | apply (kp_lift _ env F)
        | apply (kp_gets _ env F)
        | apply (kp_print _ env F) | apply (kp_eprint _ env F)
        | apply (kp_set_fs _ env F) | apply (kp_set_slog _ env F)
        | apply (kp_watch _ env F) | apply (kp_popen _ env F)
        | apply (kp_tail_lines _ env F)
        | apply (kp_mkdir_each _ env F)
        | apply (kp_when _ env F)
        | apply (kp_catch _ F)
        | apply (kp_bind _ env F); [|intro]
        | match goal with
          | |- keeps _ (if ?b then _ else _) => destruct b
          | |- keeps _ (match ?x with _ => _ end) => destruct x
          | |- keeps _ (let (_, _) := ?x in _) => destruct x
          end ]
  end.

Ltac keeps_run git env :=
  lazymatch goal with
  | |- keeps ?F (_run _ _ _ _) => apply (kp_run _ git env F)
  end.

Ltac keeps_unfold :=
  unfold node_at, path_exists, read_text, write_text, mkdir, unlink, _utc_now,
    _read_json, session_log_exists, _append_session_log, _session_log_start,
    _session_log_end, _git_current_branch, _git_has_changes, _git_commit_paths,
    proc_poll, _load_kickoff_text, _ensure_worktree, _remove_worktree,
    _fast_forward_merge.

Section Frames.

Variable Ext : Type.
Variable env : World Ext -> list (string * fnode) * Ext.

#[global] Instance same_queue_frame : Frame env same_queue.
Proof.
  constructor; unfold same_queue; intros; simpl; try reflexivity.
  congruence.
Qed.

#[global] Instance git_grows_frame (allowed : list string -> Prop) :
  Frame env (git_grows allowed).
Proof.
  constructor; unfold git_grows; intros; simpl;
    try (exists []; rewrite app_nil_r; split; [reflexivity | constructor]).
  destruct H as [c1 [H1 F1]]. destruct H0 as [c2 [H2 F2]].
  exists (c1 ++ c2). rewrite H2, H1, app_assoc. split; [reflexivity|].
  apply Forall_app. auto.
Qed.

End Frames.

(** ** Dictionaries *)

Section DictFacts.

Variable V : Type.

Lemma dict_set_absent (k : string) (v : V) (d : list (string * V)) :
  Dict.has k d = false -> Dict.set k v d = d ++ [(k, v)].
Proof.
  unfold Dict.has. induction d as [|[k' v'] d IH]; simpl; [reflexivity|].
  destruct (String.eqb k k'); [discriminate|].
  intros H. now rewrite IH.
Qed.

Lemma dict_has_In (k : string) (d : list (string * V)) :
  Dict.has k d = true <-> In k (Dict.keys d).
Proof.
  unfold Dict.has, Dict.keys. induction d as [|[k' v'] d IH]; simpl.
  - split; [discriminate | contradiction].
  - destruct (String.eqb k k') eqn:He.
    + apply String.eqb_eq in He. subst. tauto.
    + apply String.eqb_neq in He. rewrite IH. split; [auto | intros [H|H]; congruence].
Qed.

Lemma dict_keys_app (d1 d2 : list (string * V)) :
  Dict.keys (d1 ++ d2) = Dict.keys d1 ++ Dict.keys d2.
Proof. apply map_app. Qed.

Lemma dict_get_set (k k' : string) (v : V) (d : list (string * V)) :
  Dict.get k' (Dict.set k v d)
  = if String.eqb k' k then Some v else Dict.get k' d.
Proof.
  induction d as [|[k0 v0] d IH]; simpl.
  - reflexivity.
  - destruct (String.eqb k k0) eqn:He; simpl.
    + apply String.eqb_eq in He. subst k0. now destruct (String.eqb k' k).
    + rewrite IH. destruct (String.eqb k' k0) eqn:He'; [|reflexivity].
      apply String.eqb_eq in He'. subst k0.
      rewrite String.eqb_sym in He. now rewrite He.
Qed.

Lemma dict_get_app (k : string) (d1 d2 : list (string * V)) :
  Dict.get k (d1 ++ d2)
  = match Dict.get k d1 with Some v => Some v | None => Dict.get k d2 end.
Proof.
  induction d1 as [|[k0 v0] d1 IH]; simpl; [reflexivity|].
  now destruct (String.eqb k k0).
Qed.

(** After [d.update(u)] a key has the value [u] gives it last, or else the
    value it had. *)
Lemma dict_get_update (k : string) (u d : list (string * V)) :
  Dict.get k (Dict.update d u)
  = match Dict.get k (rev u) with Some v => Some v | None => Dict.get k d end.
Proof.
  unfold Dict.update. revert d. induction u as [|[k0 v0] u IH]; intros d; simpl.
  - reflexivity.
  - rewrite IH, dict_get_app, dict_get_set. simpl.
    destruct (Dict.get k (rev u)); [reflexivity|].
    now destruct (String.eqb k k0).
Qed.

Lemma dict_remove_keys (k : string) (d : list (string * V)) :
  NoDup (Dict.keys d) ->
  NoDup (Dict.keys (Dict.remove k d))
  /\ forall x, In x (Dict.keys (Dict.remove k d)) <-> In x (Dict.keys d) /\ x <> k.
Proof.
  unfold Dict.keys. induction d as [|[k0 v0] d IH]; simpl; intros Hnd.
  - split; [constructor | intros x; tauto].
  - inversion Hnd as [|? ? Hnotin Hnd']; subst.
    destruct (String.eqb k k0) eqn:He.
    + apply String.eqb_eq in He. subst k0. split; [assumption|].
      intros x. split.
      * intros Hx. split; [now right | intros ->; contradiction].
      * intros [[<- | Hx] Hne]; [congruence | assumption].
    + apply String.eqb_neq in He. destruct (IH Hnd') as [Hnd1 Hin1]. simpl. split.
      * constructor; [|assumption]. intros Hx. apply Hin1 in Hx. tauto.
      * intros x. rewrite Hin1. split.
        -- intros [<- | [Hx Hne]]; [split; [now left | congruence] | tauto].
        -- intros [[<- | Hx] Hne]; [now left | tauto].
Qed.

End DictFacts.

(** ** Updating a task *)

Lemma map_dicts_of_strings (s : string) :
  dicts_of (map (fun c => JStr (String c EmptyString)) (list_ascii_of_string s)) = [].
Proof. induction s as [|c s IH]; simpl; auto. Qed.

Lemma map_dicts_of_keys (kv : dict) :
  dicts_of (map (fun p => JStr (fst p)) kv) = [].
Proof. induction kv as [|p kv IH]; simpl; auto. Qed.


Section Updates.

Variable py_repr : json -> string.

Local Abbreviation rid := (record_id py_repr).
Local Abbreviation rstatus := (record_status py_repr).

Lemma update_first_dicts (task_id : string) (updates : dict) (xs : list json) :
  match update_first py_repr task_id updates xs with
  | Some xs' =>
      patch_first py_repr task_id updates (dicts_of xs) = Some (dicts_of xs')
  | None => patch_first py_repr task_id updates (dicts_of xs) = None
  end.
Proof.
  induction xs as [|x xs IH]; simpl; [reflexivity|].
  destruct x as [| | | | |kv]; simpl;
    try (destruct (update_first py_repr task_id updates xs); simpl; exact IH).
  destruct (String.eqb (rid kv) task_id); [reflexivity|].
  destruct (update_first py_repr task_id updates xs); simpl in *; now rewrite IH.
Qed.

(** The records after [_update_task] are the records before, patched. *)
Lemma update_task_records (payload payload' : json) (task_id : string)
    (updates : dict) :
  _update_task py_repr payload task_id updates = Ok payload' ->
  exists ts ts',
    _queue_tasks payload = Ok ts /\ _queue_tasks payload' = Ok ts'
    /\ patch_first py_repr task_id updates ts = Some ts'.
Proof.
  destruct payload as [| | | |xs|kv]; simpl; try discriminate.
  - pose proof (update_first_dicts task_id updates xs) as Hd.
    destruct (update_first py_repr task_id updates xs) as [xs'|]; [|discriminate].
    intros H. injection H as <-. simpl. eauto.
  - unfold get_default.
    destruct (Dict.get "tasks" kv) as [v|] eqn:Hg.
    + destruct v as [| | | |xs|kv']; try discriminate.
      pose proof (update_first_dicts task_id updates xs) as Hd.
      destruct (update_first py_repr task_id updates xs) as [xs'|]; [|discriminate].
      intros H. injection H as <-. simpl. unfold get_default.
      rewrite dict_get_set, String.eqb_refl. simpl. eauto.
    + simpl. discriminate.
Qed.

(** [_update_task] succeeds exactly when a record has the id. *)
Lemma update_task_ok (payload : json) (ts : list dict) (task_id : string)
    (updates : dict) :
  _queue_tasks payload = Ok ts ->
  (exists r, In r ts /\ rid r = task_id) ->
  exists payload', _update_task py_repr payload task_id updates = Ok payload'.
Proof.
  intros Hq [r [Hin Hid]].
  assert (Hp : patch_first py_repr task_id updates ts <> None).
  { clear Hq. induction ts as [|t ts IH]; [contradiction|]. simpl.
    destruct (String.eqb (rid t) task_id) eqn:He; [discriminate|].
    destruct Hin as [-> | Hin].
    - apply String.eqb_neq in He. contradiction.
    - specialize (IH Hin).
      destruct (patch_first py_repr task_id updates ts); [discriminate | contradiction]. }
  destruct payload as [| | | |xs|kv]; simpl in *; try discriminate.
  - injection Hq as <-.
    pose proof (update_first_dicts task_id updates xs) as Hd.
    destruct (update_first py_repr task_id updates xs) as [xs'|]; [eauto | contradiction].
  - unfold get_default in *.
    destruct (Dict.get "tasks" kv) as [v|] eqn:Hg.
    + destruct v as [| | | |xs|kv']; simpl in Hq; try discriminate;
        try (injection Hq as <-).
      * rewrite map_dicts_of_strings in Hp. now contradiction Hp.
      * pose proof (update_first_dicts task_id updates xs) as Hd.
        destruct (update_first py_repr task_id updates xs) as [xs'|];
          [eauto | contradiction].
      * rewrite map_dicts_of_keys in Hp. now contradiction Hp.
    + simpl in Hq. injection Hq as <-. now contradiction Hp.
Qed.

Lemma record_id_update (r updates : dict) :
  Dict.get "id" (rev updates) = None ->
  rid (Dict.update r updates) = rid r.
Proof.
  intros H. unfold record_id, get_default. now rewrite dict_get_update, H.
Qed.

Lemma record_status_update (r updates : dict) (s : string) :
  Dict.get "status" (rev updates) = Some (JStr s) ->
  s <> EmptyString ->
  rstatus (Dict.update r updates) = _normalize_status s.
Proof.
  intros H Hs. unfold record_status, get_or. rewrite dict_get_update, H. simpl.
  destruct (String.eqb s EmptyString) eqn:He; [|reflexivity].
  apply String.eqb_eq in He. contradiction.
Qed.

Lemma patch_first_length (task_id : string) (updates : dict) (ts ts' : list dict) :
  patch_first py_repr task_id updates ts = Some ts' ->
  List.length ts' = List.length ts.
Proof.
  revert ts'. induction ts as [|t ts IH]; intros ts'; simpl; [discriminate|].
  destruct (String.eqb (rid t) task_id).
  - intros H. now injection H as <-.
  - destruct (patch_first py_repr task_id updates ts) as [ts0|]; [|discriminate].
    intros H. injection H as <-. simpl. f_equal. now apply IH.
Qed.

(** With unique ids, the patch changes the record that has the id and no
    other. *)
Lemma patch_first_unique (task_id : string) (updates : dict) (ts ts' : list dict) :
  patch_first py_repr task_id updates ts = Some ts' ->
  task_id <> EmptyString ->
  unique_ids py_repr ts ->
  Forall2 (fun r r' =>
             if String.eqb (rid r) task_id then r' = Dict.update r updates
             else r' = r)
          ts ts'.
Proof.
  unfold unique_ids, record_ids.
  revert ts'. induction ts as [|t ts IH]; intros ts' Hp Hne Hu; simpl in Hp;
    [discriminate|].
  destruct (String.eqb (rid t) task_id) eqn:He.
  - injection Hp as <-. constructor; [now rewrite He|].
    apply String.eqb_eq in He. simpl in Hu. rewrite He in Hu.
    destruct (String.eqb task_id EmptyString) eqn:Hte;
      [apply String.eqb_eq in Hte; contradiction|].
    simpl in Hu. inversion Hu as [|? ? Hnotin _]; subst.
    clear IH Hu. induction ts as [|u ts IHts]; constructor.
    + destruct (String.eqb (rid u) (rid t)) eqn:Hu; [|reflexivity].
      apply String.eqb_eq in Hu. exfalso. apply Hnotin. simpl.
      rewrite Hu, Hte. now left.
    + apply IHts. intros Hin. apply Hnotin. simpl.
      destruct (negb (String.eqb (rid u) EmptyString)); [now right | assumption].
  - destruct (patch_first py_repr task_id updates ts) as [ts0|] eqn:Hp0;
      [|discriminate].
    injection Hp as <-. constructor; [now rewrite He|].
    apply IH; [reflexivity | assumption|].
    simpl in Hu. destruct (negb (String.eqb (rid t) EmptyString)); [|assumption].
    now inversion Hu.
Qed.

(** The ids of the records survive a patch that does not write the id. *)
Lemma patch_first_ids (task_id : string) (updates : dict) (ts ts' : list dict) :
  patch_first py_repr task_id updates ts = Some ts' ->
  Dict.get "id" (rev updates) = None ->
  map rid ts' = map rid ts.
Proof.
  intros Hp Hid. revert ts' Hp.
  induction ts as [|t ts IH]; intros ts' Hp; simpl in Hp; [discriminate|].
  destruct (String.eqb (rid t) task_id).
  - injection Hp as <-. simpl. now rewrite record_id_update.
  - destruct (patch_first py_repr task_id updates ts) as [ts0|]; [|discriminate].
    injection Hp as <-. simpl. f_equal. now apply IH.
Qed.

End Updates.

(** ** The admission pass *)

Lemma subseq_refl {A : Type} (l : list A) : subseq l l.
Proof. induction l; constructor; assumption. Qed.

Lemma fold_set_add_acc (xs acc : list string) (y : string) :
  In y (fold_left (fun acc x => set_add x acc) xs acc) <-> In y acc \/ In y xs.
Proof.
  rewrite (fold_set_add_In (fun x => x)). split.
  - intros [H | [t [Ht <-]]]; auto.
  - intros [H | H]; eauto.
Qed.

(** The workstreams [_active_workstreams] returns are those of the records
    of the queue whose status is [in_progress]. *)
Lemma active_workstreams_In (py_repr : json -> string) (payload : json)
    (active : list string) (ws : string) :
  _active_workstreams py_repr payload = Ok active ->
  (In ws active <->
   exists ts r,
     _queue_tasks payload = Ok ts /\ In r ts
     /\ _normalize_status (py_str py_repr (get_or r "status" (JStr EmptyString)))
        = "in_progress"
     /\ _derive_workstream_id py_repr r = ws).
Proof.
  unfold _active_workstreams.
  destruct (_queue_tasks payload) as [ts|]; [|discriminate].
  intros H. injection H as <-.
  assert (Hgen : forall acc,
    In ws (fold_left
             (fun active t =>
                if String.eqb
                     (_normalize_status
                        (py_str py_repr (get_or t "status" (JStr EmptyString))))
                     "in_progress"
                then set_add (_derive_workstream_id py_repr t) active
                else active) ts acc)
    <-> In ws acc
        \/ exists r, In r ts
             /\ _normalize_status
                  (py_str py_repr (get_or r "status" (JStr EmptyString)))
                = "in_progress"
             /\ _derive_workstream_id py_repr r = ws).
  { induction ts as [|t ts IH]; intros acc; simpl.
    - split; [auto | intros [H | [r [[] _]]]; assumption].
    - rewrite IH.
      destruct (String.eqb
                  (_normalize_status
                     (py_str py_repr (get_or t "status" (JStr EmptyString))))
                  "in_progress") eqn:He.
      + apply String.eqb_eq in He. rewrite set_add_In. split.
        * intros [[Hw | H] | [r [Hr Hp]]].
          -- right. exists t. split; [now left | split; [assumption | now symmetry]].
          -- now left.
          -- right. exists r. split; [now right | assumption].
        * intros [H | [r [[Hr | Hr] [Hs Hw]]]].
          -- left. now right.
          -- left. left. subst r. now symmetry.
          -- right. exists r. tauto.
      + apply String.eqb_neq in He. split.
        * intros [H | [r [Hr Hp]]]; [now left|].
          right. exists r. split; [now right | assumption].
        * intros [H | [r [[Hr | Hr] [Hs Hw]]]].
          -- now left.
          -- subst r. contradiction.
          -- right. exists r. tauto. }
  rewrite Hgen. split.
  - intros [[] | [r Hr]]. exists ts, r. tauto.
  - intros [ts' [r [Hts Hr]]]. injection Hts as <-. right. exists r. tauto.
Qed.

Section Admission.

Variable py_repr : json -> string.
Variable Ext : Type.
Variable utc_now : Ext -> string.
Variable now_minute : Ext -> string.
Variable git : World Ext -> list string -> Z * string.
Variable env : World Ext -> list (string * fnode) * Ext.
Variable args : Args.
Variable repo_root run_root spawn_script : Path.t.
Variable base_branch : string.
Variable track_paths : list Path.t.

Local Abbreviation spawn :=
  (spawn_task py_repr utc_now now_minute git env args repo_root run_root
              spawn_script base_branch track_paths).
Local Abbreviation admit_all :=
  (admission py_repr utc_now now_minute git env args repo_root run_root
             spawn_script base_branch track_paths).

Ltac yields_step :=
  repeat first
    [ apply yields_raise
    | apply yields_bind; intro
    | match goal with
      | |- yields _ (if ?b then _ else _) => destruct b
      | |- yields _ (match ?x with _ => _ end) => destruct x
      | |- yields _ (let (_, _) := ?x in _) => destruct x
      end ].

(** A task that is spawned joins [running] and its workstream the active
    ones. *)
Lemma spawn_task_pass (t : Task) (a : Pass) :
  arg_dry_run args = false ->
  yields (fun a' =>
            (exists proc,
               running (ad_loop a') = Dict.set (id t) proc (running (ad_loop a)))
            /\ ad_active a' = set_add (workstream_id t) (ad_active a))
         (spawn t a).
Proof.
  intros Hdry. unfold spawn_task. rewrite Hdry.
  yields_step; apply yields_ret; simpl; eauto.
Qed.




End Admission.

(** ** Finishing a task *)

Section Finishing.

Variable py_repr : json -> string.
Variable py_int_of_str : string -> option Z.
Variable Ext : Type.
Variable utc_now : Ext -> string.
Variable now_minute : Ext -> string.
Variable git : World Ext -> list string -> Z * string.
Variable poll : Ext -> nat -> option Z.
Variable env : World Ext -> list (string * fnode) * Ext.
Variable repo_root run_root : Path.t.
Variable base_branch : string.
Variable track_paths : list Path.t.

Local Abbreviation fin_blocked :=
  (finish_blocked py_repr utc_now now_minute git env repo_root track_paths).
Local Abbreviation fin_task :=
  (finish_task py_repr py_int_of_str utc_now now_minute git poll env repo_root
               run_root base_branch track_paths).
Local Abbreviation commit_paths := (_git_commit_paths git env repo_root track_paths).
Local Abbreviation log_end := (@_session_log_end Ext now_minute).

Ltac keeps_all :=
  repeat first
    [ keeps_run git env; first [ left; reflexivity | right; intro ]
    | keeps_step env ].

Lemma git_grows_one (allowed : list string -> Prop) (w : World Ext)
    (cmd : list string) :
  allowed cmd -> git_grows allowed w (with_git (w_git w ++ [cmd]) w).
Proof. intros H. exists [cmd]. split; [reflexivity | now constructor]. Qed.

Lemma commit_paths_git (message : string) :
  keeps (git_grows (docs_commit_command message)) (commit_paths message).
Proof.
  unfold _git_commit_paths, _git_has_changes. keeps_all.
  - apply git_grows_one. left. now exists a.
  - apply git_grows_one. now right.
Qed.

Lemma log_end_git (allowed : list string -> Prop) (task_id role wt : string)
    (last_message_path : Path.t) (extra : list string) :
  keeps (git_grows allowed) (log_end task_id role wt last_message_path extra).
Proof. keeps_unfold. keeps_all. Qed.

Lemma commit_paths_queue (message : string) :
  keeps same_queue (commit_paths message).
Proof. keeps_unfold. keeps_all; reflexivity. Qed.

Lemma log_end_queue (task_id role wt : string) (last_message_path : Path.t)
    (extra : list string) :
  keeps same_queue (log_end task_id role wt last_message_path extra).
Proof. keeps_unfold. keeps_all. Qed.

(** A finished task that is marked blocked: the queue holds the update,
    and the only git commands run are those of the docs commit. *)
Lemma finish_blocked_spec (payload : json) (task_id role wt : string)
    (last_message_path : Path.t) (blocker : string) (steps : list string)
    (note : string) (w w' : World Ext) (r : res unit) :
  fin_blocked payload task_id role wt last_message_path blocker steps note w
  = (r, w') ->
  match _update_task py_repr payload task_id
          [ ("status", JStr "blocked");
            ("blocked_at", JStr (utc_now (w_ext w)));
            ("blockers", JArr [JStr blocker]);
            ("unblock_steps", JArr (map JStr steps)) ] with
  | Raise e => r = Raise e /\ w' = w
  | Ok payload' =>
      w_queue w' = Some payload'
      /\ git_grows (docs_commit_command
                      ("docs: finish " ++ task_id ++ " (blocked)")) w w'
  end.
Proof.
  unfold finish_blocked. unfold bind at 1. unfold _utc_now at 1, gets at 1.
  unfold bind at 1. unfold lift at 1.
  destruct (_update_task py_repr payload task_id _) as [payload'|e].
  - unfold bind at 1. unfold _write_json at 1, modify at 1.
    intros H.
    pose proof (keeps_snd _ same_queue _ _ _ _ H) as Hq.
    pose proof (keeps_snd _ (git_grows (docs_commit_command
                  ("docs: finish " ++ task_id ++ " (blocked)"))) _ _ _ _ H) as Hg.
    split.
    + rewrite Hq; [reflexivity|]. keeps_unfold. keeps_all; reflexivity.
    + assert (Hg' : git_grows (docs_commit_command
                  ("docs: finish " ++ task_id ++ " (blocked)")) (with_queue (Some payload') w) w').
      { apply Hg. apply (kp_bind _ env _); [apply (kp_gets _ env _)|]. intros sl.
        apply (kp_bind _ env _); [|intros _; apply commit_paths_git].
        apply (kp_when _ env _). apply log_end_git. }
      exact Hg'.
  - intros H. injection H as <- <-. auto.
Qed.

Section GitSucceeds.

Hypothesis git_succeeds : forall w cmd, fst (git w cmd) = 0%Z.
Hypothesis has_changes :
  forall w, PyStr.strip (snd (git w ["git"; "status"; "--porcelain=v1"])) <> EmptyString.

Lemma run_ok (cmd : list string) (check : bool) (w : World Ext) :
  _run git env cmd check w
  = (Ok (git w cmd),
     if git_reads cmd then w else env_step env (with_git (w_git w ++ [cmd]) w)).
Proof.
  unfold _run. pose proof (git_succeeds w cmd) as H.
  destruct (git w cmd) as [rc out]. simpl in H. subst rc.
  now rewrite andb_false_r.
Qed.

Lemma commit_paths_ok (message : string) (rels : list string) (w : World Ext) :
  relative_all repo_root track_paths = Ok rels ->
  exists w',
    commit_paths message w = (Ok tt, w')
    /\ w_git w' = w_git w ++ [["git"; "add"; "--"] ++ rels;
                              ["git"; "commit"; "-m"; message]]
    /\ w_queue w' = w_queue w.
Proof.
  intros Hrel. unfold _git_commit_paths, _git_has_changes.
  unfold bind at 1. unfold lift at 1. rewrite Hrel.
  rewrite (bind_eq _ _ _ _ _ _ (run_ok _ _ _)).
  cbn [app git_reads PyStr.mem existsb String.eqb Ascii.eqb Bool.eqb orb andb].
  unfold bind at 1. unfold bind at 1. rewrite run_ok.
  cbn [app git_reads PyStr.mem existsb String.eqb Ascii.eqb Bool.eqb orb andb].
  unfold ret at 1. cbn [snd].
  match goal with
  | |- context [git ?w0 ["git"; "status"; "--porcelain=v1"]] =>
      pose proof (has_changes w0) as Hc
  end.
  apply String.eqb_neq in Hc. rewrite Hc.
  cbn [negb].
  rewrite (bind_eq _ _ _ _ _ _ (run_ok _ _ _)).
  cbn [app git_reads PyStr.mem existsb String.eqb Ascii.eqb Bool.eqb orb andb].
  eexists. split; [reflexivity|]. split; [|reflexivity].
  simpl. now rewrite <- app_assoc.
Qed.

Lemma path_exists_eq (p : Path.t) (w : World Ext) :
  path_exists p w
  = (Ok (match Dict.get (Path.str p) (w_fs w) with Some _ => true | None => false end),
     w).
Proof. reflexivity. Qed.

Lemma read_text_file (p : Path.t) (w : World Ext) (text : string) :
  Dict.get (Path.str p) (w_fs w) = Some (File text) ->
  read_text p w = (Ok text, w).
Proof. intros H. unfold read_text, node_at, bind, gets. now rewrite H. Qed.

Lemma log_end_ok (task_id role wt : string) (last_message_path : Path.t)
    (extra : list string) (w : World Ext) :
  Dict.get (Path.str last_message_path) (w_fs w) <> Some Directory ->
  exists w',
    log_end task_id role wt last_message_path extra w = (Ok tt, w')
    /\ w_git w' = w_git w /\ w_queue w' = w_queue w.
Proof.
  intros Hd. unfold _session_log_end.
  unfold bind at 1. unfold gets at 1.
  rewrite (bind_eq _ _ _ _ _ _ (path_exists_eq _ _)).
  destruct (Dict.get (Path.str last_message_path) (w_fs w)) as [[text|]|] eqn:Hg;
    [| contradiction |].
  - rewrite (bind_eq _ _ _ _ _ _
               (bind_eq _ _ _ _ _ _ (read_text_file _ _ _ Hg))).
    unfold ret at 1.
    rewrite (bind_eq _ _ _ _ _ _ (path_exists_eq _ _)). rewrite Hg.
    rewrite (bind_eq _ _ _ _ _ _
               (bind_eq _ _ _ _ _ _ (read_text_file _ _ _ Hg))).
    unfold _append_session_log, bind, gets, modify.
    eexists. split; [reflexivity | split; reflexivity].
  - unfold bind at 1. unfold ret at 1.
    rewrite (bind_eq _ _ _ _ _ _ (path_exists_eq _ _)). rewrite Hg.
    unfold bind at 1. unfold ret at 1.
    unfold _append_session_log, bind, gets, modify.
    eexists. split; [reflexivity | split; reflexivity].
Qed.

Lemma finish_blocked_ok (payload payload' : json) (task_id role wt : string)
    (last_message_path : Path.t) (blocker : string) (steps : list string)
    (note : string) (rels : list string) (w : World Ext) :
  relative_all repo_root track_paths = Ok rels ->
  Dict.get (Path.str last_message_path) (w_fs w) <> Some Directory ->
  _update_task py_repr payload task_id
    [ ("status", JStr "blocked");
      ("blocked_at", JStr (utc_now (w_ext w)));
      ("blockers", JArr [JStr blocker]);
      ("unblock_steps", JArr (map JStr steps)) ] = Ok payload' ->
  exists w',
    fin_blocked payload task_id role wt last_message_path blocker steps note w
    = (Ok tt, w')
    /\ w_git w' = w_git w ++ [["git"; "add"; "--"] ++ rels;
                              ["git"; "commit"; "-m";
                               ("docs: finish " ++ task_id ++ " (blocked)")%string]].
Proof.
  intros Hrel Hd Hupd. unfold finish_blocked.
  unfold bind at 1. unfold _utc_now at 1, gets at 1.
  unfold bind at 1. unfold lift at 1. rewrite Hupd.
  unfold bind at 1. unfold _write_json at 1, modify at 1.
  unfold bind at 1. unfold session_log_exists at 1, bind at 1, gets at 1, ret at 1.
  set (w1 := with_queue (Some payload') w).
  destruct (w_slog w1) as [text|].
  - destruct (log_end_ok task_id role wt last_message_path [note] w1 Hd)
      as [w2 [He [Hg _]]].
    unfold when. rewrite (bind_eq _ _ _ _ _ _ He).
    destruct (commit_paths_ok ("docs: finish " ++ task_id ++ " (blocked)") rels w2 Hrel)
      as [w3 [Hc [Hg3 _]]].
    exists w3. split; [exact Hc|]. now rewrite Hg3, Hg.
  - unfold when. unfold bind at 1. unfold ret at 1.
    destruct (commit_paths_ok ("docs: finish " ++ task_id ++ " (blocked)") rels w1 Hrel)
      as [w3 [Hc [Hg3 _]]].
    exists w3. split; [exact Hc|]. now rewrite Hg3.
Qed.

End GitSucceeds.

Lemma find_task_record (payload : json) (tasks_all : list Task) (task_id : string)
    (this : Task) :
  _load_tasks py_repr py_int_of_str payload = Ok tasks_all ->
  find (fun t => String.eqb (id t) task_id) tasks_all = Some this ->
  exists ts r,
    _queue_tasks payload = Ok ts /\ In r ts /\ record_id py_repr r = task_id.
Proof.
  intros Hload Hfind. apply find_some in Hfind. destruct Hfind as [Hin He].
  apply String.eqb_eq in He. unfold _load_tasks in Hload.
  destruct (_queue_tasks payload) as [ts|]; [|discriminate].
  destruct (load_from_origin _ _ _ _ _ _ Hload Hin) as [_ [r [Hn Hr]]].
  destruct (load_record_some _ _ _ _ _ Hr) as [_ [Hid _]].
  exists ts, r. split; [reflexivity|]. split; [|congruence].
  eapply nth_error_In. exact Hn.
Qed.

Lemma patch_first_result (task_id : string) (updates : dict) (ts ts' : list dict) :
  patch_first py_repr task_id updates ts = Some ts' ->
  exists r, In r ts /\ record_id py_repr r = task_id /\ In (Dict.update r updates) ts'.
Proof.
  revert ts'. induction ts as [|t ts IH]; intros ts' H; simpl in H; [discriminate|].
  destruct (String.eqb (record_id py_repr t) task_id) eqn:He.
  - injection H as <-. apply String.eqb_eq in He. exists t. simpl. auto.
  - destruct (patch_first py_repr task_id updates ts) as [ts0|]; [|discriminate].
    injection H as <-. destruct (IH _ eq_refl) as [r [Hin [Hid Hin']]].
    exists r. simpl. auto.
Qed.

Lemma finish_task_no_commit_eq (task_id : string) (l0 : Loop) (w : World Ext)
    (done_text : string) (payload : json) (tasks_all : list Task) (this : Task)
    (sha : string) :
  let run_dir := Path.join run_root task_id in
  let wt := effective_worktree l0 task_id this in
  let branch := Path.name (Path.parse wt) in
  Dict.get (Path.str (Path.join run_dir (task_id ++ ".done"))) (w_fs w)
  = Some (File done_text) ->
  done_status done_text = "success" ->
  w_queue w = Some payload ->
  _load_tasks py_repr py_int_of_str payload = Ok tasks_all ->
  find (fun t => String.eqb (id t) task_id) tasks_all = Some this ->
  wt <> EmptyString ->
  recorded_base_sha l0 w run_dir task_id = Some sha ->
  (let tip := PyStr.strip (snd (git w ["git"; "rev-parse"; branch])) in
   tip = EmptyString \/ tip = sha) ->
  fin_task task_id l0 w
  = bind (fin_blocked payload task_id (_role_label (type this)) wt
            (Path.join run_dir "last_message.md")
            ("No commit produced on branch '" ++ branch ++ "' (likely commit failed).")
            [ ("Inspect " ++ Path.str (Path.join run_dir "last_message.md"))%string;
              ("Inspect " ++ Path.str (Path.join run_dir "worker.log"))%string;
              "Re-run the task with a less-restrictive codex sandbox." ]
            "- Orchestrator: marked task blocked (no commit produced)")
         (fun _ => ret (mkLoop (Dict.remove task_id (running l0))
                               (task_to_worktree l0) (task_base_sha l0)))
         w.
Proof.
  intros run_dir wt branch Hdone Hst Hq Hload Hfind Hwt Hsha Htip.
  unfold finish_task.
  assert (Hpoll :
    (match Dict.get task_id (running l0) with
     | Some proc => bind (proc_poll poll proc) (fun _ => ret tt)
     | None => ret tt
     end) w = (Ok tt, w)).
  { destruct (Dict.get task_id (running l0)); reflexivity. }
  rewrite (bind_eq _ _ _ _ _ _ Hpoll).
  rewrite (bind_eq _ _ _ _ _ _ (path_exists_eq _ _)).
  fold run_dir. rewrite Hdone.
  rewrite (bind_eq _ _ _ _ _ _ (bind_eq _ _ _ _ _ _ (read_text_file _ _ _ Hdone))).
  unfold ret at 1.
  rewrite (bind_eq _ _ _ _ _ _ (read_json_eq _ _ _ Hq)).
  unfold bind at 1. unfold lift at 1. rewrite Hload. rewrite Hfind.
  cbn [task_to_worktree task_base_sha running].
  change (if uses_worktree
               match Dict.get task_id (task_to_worktree l0) with
               | Some w0 => w0
               | None => worktree this
               end
          then match Dict.get task_id (task_to_worktree l0) with
               | Some w0 => w0
               | None => worktree this
               end
          else EmptyString) with wt.
  change (PyStr.lower
            (PyStr.strip
               match Dict.get "status" (parse_done done_text) with
               | Some s => s
               | None => EmptyString
               end)) with (done_status done_text).
  rewrite Hst. rewrite String.eqb_refl. cbn [negb].
  apply String.eqb_neq in Hwt. rewrite Hwt. cbn [negb].
  fold branch.
  assert (Hbase :
    (match Dict.get task_id (task_base_sha l0) with
     | Some s =>
         if negb (String.eqb s EmptyString) then ret s
         else bind (read_text (Path.join run_dir "base_sha.txt"))
                   (fun text => ret (PyStr.strip text))
     | None =>
         bind (read_text (Path.join run_dir "base_sha.txt"))
              (fun text => ret (PyStr.strip text))
     end) w = (Ok sha, w)).
  { unfold recorded_base_sha in Hsha.
    assert (Hfile :
      match Dict.get (Path.str (Path.join run_dir "base_sha.txt")) (w_fs w) with
      | Some (File text) => Some (PyStr.strip text)
      | _ => None
      end = Some sha ->
      bind (read_text (Path.join run_dir "base_sha.txt"))
           (fun text => ret (PyStr.strip text)) w = (Ok sha, w)).
    { destruct (Dict.get (Path.str (Path.join run_dir "base_sha.txt")) (w_fs w))
        as [[text|]|] eqn:Hf; try discriminate.
      intros H. injection H as <-.
      now rewrite (bind_eq _ _ _ _ _ _ (read_text_file _ _ _ Hf)). }
    destruct (Dict.get task_id (task_base_sha l0)) as [[|c s]|].
    - simpl. now apply Hfile.
    - injection Hsha as <-. reflexivity.
    - now apply Hfile. }
  match goal with
  | |- bind ?m _ _ = _ => assert (Hinner : m w = (Ok (Some branch), w))
  end.
  { rewrite (bind_eq _ _ _ _ _ _ Hbase).
    unfold bind, _run. cbn [git_reads PyStr.mem existsb String.eqb Ascii.eqb
                             Bool.eqb orb andb].
    destruct (git w ["git"; "rev-parse"; branch]) as [rc out] eqn:Hg.
    cbn [snd] in *.
    destruct Htip as [-> | ->]; [reflexivity|].
    rewrite String.eqb_refl, orb_true_r. reflexivity. }
  rewrite (bind_eq _ _ _ _ _ _ Hinner). reflexivity.
Qed.

(** A task without a commit, where the code catches it: a finished task
    whose DONE file reports success, that has a worktree, and for whose
    branch [git rev-parse] prints the recorded base SHA (or prints
    nothing) is marked blocked with the blocker "No commit produced on
    branch '<branch>' (likely commit failed)."; the only git commands run
    for it are those of the docs commit, whose message is
    "docs: finish <task_id> (blocked)", so its worktree is not removed.
    When the git commands succeed and the working tree has changes, the
    commit is made and the loop goes on. *)
Theorem no_commit_is_blocked :
  forall (task_id : string) (l0 : Loop) (w : World Ext) (done_text : string)
         (payload : json) (tasks_all : list Task) (this : Task) (sha : string),
    let run_dir := Path.join run_root task_id in
    let wt := effective_worktree l0 task_id this in
    let branch := Path.name (Path.parse wt) in
    let blocker :=
      ("No commit produced on branch '" ++ branch ++ "' (likely commit failed).")%string in
    let message := ("docs: finish " ++ task_id ++ " (blocked)")%string in
    Dict.get (Path.str (Path.join run_dir (task_id ++ ".done"))) (w_fs w)
    = Some (File done_text) ->
    done_status done_text = "success" ->
    w_queue w = Some payload ->
    _load_tasks py_repr py_int_of_str payload = Ok tasks_all ->
    find (fun t => String.eqb (id t) task_id) tasks_all = Some this ->
    wt <> EmptyString ->
    recorded_base_sha l0 w run_dir task_id = Some sha ->
    (let tip := PyStr.strip (snd (git w ["git"; "rev-parse"; branch])) in
     tip = EmptyString \/ tip = sha) ->
    forall (r : res Loop) (w' : World Ext),
      fin_task task_id l0 w = (r, w') ->
      (exists payload' ts' rec',
          w_queue w' = Some payload' /\ _queue_tasks payload' = Ok ts'
          /\ In rec' ts' /\ record_id py_repr rec' = task_id
          /\ Dict.get "status" rec' = Some (JStr "blocked")
          /\ Dict.get "blockers" rec' = Some (JArr [JStr blocker]))
      /\ git_grows (docs_commit_command message) w w'
      /\ (forall rels,
            (forall w0 cmd, fst (git w0 cmd) = 0%Z) ->
            (forall w0,
                PyStr.strip (snd (git w0 ["git"; "status"; "--porcelain=v1"]))
                <> EmptyString) ->
            relative_all repo_root track_paths = Ok rels ->
            Dict.get (Path.str (Path.join run_dir "last_message.md")) (w_fs w)
            <> Some Directory ->
            r = Ok (mkLoop (Dict.remove task_id (running l0)) (task_to_worktree l0)
                           (task_base_sha l0))
            /\ w_git w' = w_git w ++ [["git"; "add"; "--"] ++ rels;
                                      ["git"; "commit"; "-m"; message]]).
Proof.
  intros task_id l0 w done_text payload tasks_all this sha run_dir wt branch
         blocker message Hdone Hst Hq Hload Hfind Hwt Hsha Htip r w' Hfin.
  rewrite (finish_task_no_commit_eq task_id l0 w done_text payload tasks_all this
             sha Hdone Hst Hq Hload Hfind Hwt Hsha Htip) in Hfin.
  fold run_dir wt branch in Hfin.
  destruct (find_task_record _ _ _ _ Hload Hfind) as [ts [rec [Hts [Hin Hid]]]].
  set (updates :=
         [ ("status", JStr "blocked");
           ("blocked_at", JStr (utc_now (w_ext w)));
           ("blockers", JArr [JStr blocker]);
           ("unblock_steps",
            JArr (map JStr
                    [ ("Inspect " ++ Path.str (Path.join run_dir "last_message.md"))%string;
                      ("Inspect " ++ Path.str (Path.join run_dir "worker.log"))%string;
                      "Re-run the task with a less-restrictive codex sandbox." ])) ]).
  destruct (update_task_ok py_repr payload ts task_id updates Hts
              (ex_intro _ rec (conj Hin Hid))) as [payload' Hupd].
  assert (Hspec :
    forall r0 w0,
      fin_blocked payload task_id (_role_label (type this)) wt
        (Path.join run_dir "last_message.md") blocker
        [ ("Inspect " ++ Path.str (Path.join run_dir "last_message.md"))%string;
          ("Inspect " ++ Path.str (Path.join run_dir "worker.log"))%string;
          "Re-run the task with a less-restrictive codex sandbox." ]
        "- Orchestrator: marked task blocked (no commit produced)" w = (r0, w0) ->
      w_queue w0 = Some payload' /\ git_grows (docs_commit_command message) w w0).
  { intros r0 w0 H0. apply finish_blocked_spec in H0.
    fold updates in H0. now rewrite Hupd in H0. }
  assert (Hworld : w_queue w' = Some payload'
                   /\ git_grows (docs_commit_command message) w w').
  { apply bind_inv in Hfin. destruct Hfin as [[e [He _]] | [u [w1 [Hb Hr]]]].
    - exact (Hspec _ _ He).
    - injection Hr as _ <-. exact (Hspec _ _ Hb). }
  destruct Hworld as [Hq' Hg]. split; [|split; [exact Hg|]].
  - destruct (update_task_records py_repr _ _ _ _ Hupd) as [ts0 [ts' [Hts0 [Hts' Hp]]]].
    destruct (patch_first_result _ _ _ _ Hp) as [r1 [Hin1 [Hid1 Hin1']]].
    exists payload', ts', (Dict.update r1 updates).
    split; [assumption|]. split; [assumption|]. split; [assumption|].
    split; [now rewrite record_id_update|].
    split; rewrite dict_get_update; reflexivity.
  - intros rels Hgit Hchg Hrel Hmsg.
    destruct (finish_blocked_ok Hgit Hchg payload payload' task_id
                (_role_label (type this)) wt (Path.join run_dir "last_message.md")
                blocker _ "- Orchestrator: marked task blocked (no commit produced)"
                rels w Hrel Hmsg Hupd) as [w2 [Hb Hg2]].
    rewrite (bind_eq _ _ _ _ _ _ Hb) in Hfin. injection Hfin as <- <-.
    split; [reflexivity | exact Hg2].
Qed.

End Finishing.

(** ** The queue through a tick *)

Lemma Forall2_compose_In {A : Type} (R1 R2 R3 : A -> A -> Prop) (xs ys zs : list A) :
  Forall2 R1 xs ys -> Forall2 R2 ys zs ->
  (forall x y z, In x xs -> In y ys -> In z zs -> R1 x y -> R2 y z -> R3 x z) ->
  Forall2 R3 xs zs.
Proof.
  intros H1. revert zs. induction H1 as [|x y xs ys Hxy H1 IH]; intros zs H2 H.
  - inversion H2. constructor.
  - inversion H2 as [|? z ? zs' Hyz H2']; subst. constructor.
    + apply (H x y z); simpl; auto.
    + apply IH; [assumption|]. intros a b c Ha Hb Hc. apply H; simpl; auto.
Qed.

Lemma Forall2_weaken_In {A : Type} (R1 R2 : A -> A -> Prop) (xs ys : list A) :
  Forall2 R1 xs ys ->
  (forall x y, In x xs -> In y ys -> R1 x y -> R2 x y) ->
  Forall2 R2 xs ys.
Proof.
  induction 1 as [|x y xs ys Hxy H1 IH]; intros H; constructor.
  - apply H; simpl; auto.
  - apply IH. intros a b Ha Hb. apply H; simpl; auto.
Qed.

Lemma Forall2_same {A : Type} (R : A -> A -> Prop) (xs : list A) :
  (forall x, R x x) -> Forall2 R xs xs.
Proof. intros H. induction xs; constructor; auto. Qed.

Lemma Forall2_In_l {A : Type} (R : A -> A -> Prop) (xs ys : list A) (x : A) :
  Forall2 R xs ys -> In x xs -> exists y, In y ys /\ R x y.
Proof.
  induction 1 as [|a b xs ys Hab H IH]; intros Hin; [contradiction|].
  destruct Hin as [<- | Hin].
  - exists b. simpl. auto.
  - destruct (IH Hin) as [y [Hy Hr]]. exists y. simpl. auto.
Qed.

Lemma Forall2_In_r {A : Type} (R : A -> A -> Prop) (xs ys : list A) (y : A) :
  Forall2 R xs ys -> In y ys -> exists x, In x xs /\ R x y.
Proof.
  induction 1 as [|a b xs ys Hab H IH]; intros Hin; [contradiction|].
  destruct Hin as [<- | Hin].
  - exists a. simpl. auto.
  - destruct (IH Hin) as [x [Hx Hr]]. exists x. simpl. auto.
Qed.

Lemma Forall2_nth {A : Type} (R : A -> A -> Prop) (xs ys : list A) (i : nat) (x : A) :
  Forall2 R xs ys -> nth_error xs i = Some x ->
  exists y, nth_error ys i = Some y /\ R x y.
Proof.
  intros H. revert i. induction H as [|a b xs ys Hab H IH]; intros [|i] Hn;
    simpl in *; try discriminate.
  - injection Hn as <-. eauto.
  - now apply IH.
Qed.

Section Records.

Variable py_repr : json -> string.

Local Abbreviation rid := (record_id py_repr).
Local Abbreviation rstatus := (record_status py_repr).

(** With unique ids, two records of the queue that have the same id are
    the same record. *)
Lemma unique_ids_In (ts : list dict) (a b : dict) :
  unique_ids py_repr ts -> In a ts -> In b ts ->
  rid a = rid b -> rid a <> EmptyString -> a = b.
Proof.
  unfold unique_ids, record_ids. induction ts as [|t ts IH]; intros Hu Ha Hb He Hne;
    [contradiction|].
  simpl in Hu.
  assert (Hin : forall x, In x ts -> rid x <> EmptyString ->
                In (rid x) (filter (fun i => negb (String.eqb i EmptyString))
                                   (map rid ts))).
  { intros x Hx Hn. apply filter_In. split; [now apply in_map|].
    apply negb_true_iff. now apply String.eqb_neq. }
  destruct Ha as [-> | Ha]; destruct Hb as [-> | Hb]; try reflexivity.
  - exfalso. destruct (String.eqb (rid a) EmptyString) eqn:Hae;
      [apply String.eqb_eq in Hae; contradiction|].
    simpl in Hu. inversion Hu as [|? ? Hnot _]; subst. apply Hnot.
    rewrite He. apply Hin; [assumption | congruence].
  - exfalso. destruct (String.eqb (rid b) EmptyString) eqn:Hbe;
      [apply String.eqb_eq in Hbe; congruence|].
    simpl in Hu. inversion Hu as [|? ? Hnot _]; subst. apply Hnot.
    rewrite <- He. apply Hin; assumption.
  - apply IH; try assumption.
    destruct (negb (String.eqb (rid t) EmptyString)); [now inversion Hu | assumption].
Qed.

(** The ids of the queue are the same after a tick's changes. *)
Lemma touched_ids (P : dict -> dict -> Prop) (ts ts' : list dict) :
  Forall2 (touched py_repr P) ts ts' -> map rid ts' = map rid ts.
Proof.
  induction 1 as [|r r' ts ts' [Hid _] H IH]; simpl; [reflexivity|].
  now rewrite Hid, IH.
Qed.

Lemma touched_unique (P : dict -> dict -> Prop) (ts ts' : list dict) :
  Forall2 (touched py_repr P) ts ts' ->
  unique_ids py_repr ts -> unique_ids py_repr ts'.
Proof.
  intros H. unfold unique_ids, record_ids. now rewrite (touched_ids P ts ts' H).
Qed.

Lemma touched_refl (P : dict -> dict -> Prop) (ts : list dict) :
  Forall2 (touched py_repr P) ts ts.
Proof. apply Forall2_same. intros r. split; auto. Qed.

(** Changes of the same kind compose. *)
Lemma retagged_trans (ids statuses : list string) (ts1 ts2 ts3 : list dict) :
  Forall2 (touched py_repr (retagged py_repr ids statuses)) ts1 ts2 ->
  Forall2 (touched py_repr (retagged py_repr ids statuses)) ts2 ts3 ->
  Forall2 (touched py_repr (retagged py_repr ids statuses)) ts1 ts3.
Proof.
  intros H1 H2. apply (Forall2_compose_In _ _ _ _ _ _ H1 H2).
  intros x y z _ _ _ [Hi1 Hc1] [Hi2 Hc2]. split; [congruence|].
  destruct Hc2 as [-> | [Hin Hs]]; [assumption|].
  right. split; [now rewrite <- Hi1 | assumption].
Qed.

Lemma retagged_incl (ids ids' statuses : list string) (ts ts' : list dict) :
  incl ids ids' ->
  Forall2 (touched py_repr (retagged py_repr ids statuses)) ts ts' ->
  Forall2 (touched py_repr (retagged py_repr ids' statuses)) ts ts'.
Proof.
  intros Hi H. apply (Forall2_weaken_In _ _ _ _ H).
  intros r r' _ _ [Hid [-> | [Hin Hs]]]; split; auto.
  right. split; auto.
Qed.

(** The patch changes a record that has the id, and no other. *)
Lemma patch_first_touched (task_id : string) (updates : dict) (ts ts' : list dict) :
  patch_first py_repr task_id updates ts = Some ts' ->
  Forall2 (fun r r' => r' = r \/ (rid r = task_id /\ r' = Dict.update r updates))
          ts ts'.
Proof.
  revert ts'. induction ts as [|t ts IH]; intros ts' Hp; simpl in Hp; [discriminate|].
  destruct (String.eqb (rid t) task_id) eqn:He.
  - injection Hp as <-. apply String.eqb_eq in He. constructor; [auto|].
    apply Forall2_same. auto.
  - destruct (patch_first py_repr task_id updates ts) as [ts0|]; [|discriminate].
    injection Hp as <-. constructor; [auto|]. now apply IH.
Qed.

(** One update of a task: a record that has the id gets the new status, the
    others are as they were; with unique ids, the record that has the id
    does get it. *)
Lemma update_task_spec (payload payload' : json) (ts : list dict)
    (task_id : string) (updates : dict) (s : string) :
  _queue_tasks payload = Ok ts ->
  Dict.get "id" (rev updates) = None ->
  Dict.get "status" (rev updates) = Some (JStr s) ->
  s <> EmptyString ->
  _update_task py_repr payload task_id updates = Ok payload' ->
  exists ts',
    _queue_tasks payload' = Ok ts'
    /\ Forall2 (touched py_repr
                  (retagged py_repr [task_id] [_normalize_status s])) ts ts'
    /\ (task_id <> EmptyString -> unique_ids py_repr ts ->
        forall r', In r' ts' -> rid r' = task_id ->
                   rstatus r' = _normalize_status s).
Proof.
  intros Hq Hid Hst Hs Hupd.
  destruct (update_task_records py_repr _ _ _ _ Hupd) as [ts0 [ts' [Hq0 [Hq' Hp]]]].
  rewrite Hq in Hq0. injection Hq0 as <-.
  exists ts'. split; [assumption|]. split.
  - apply (Forall2_weaken_In _ _ _ _ (patch_first_touched _ _ _ _ Hp)).
    intros r r' _ _ [-> | [He ->]]; split; auto.
    + now apply record_id_update.
    + right. split; [simpl; auto|]. left. symmetry. now apply record_status_update.
  - intros Hne Hu r' Hin Hr'.
    destruct (Forall2_In_r _ _ _ _ (patch_first_unique py_repr _ _ _ _ Hp Hne Hu) Hin)
      as [r [_ Hr]].
    destruct (String.eqb (rid r) task_id) eqn:He.
    + subst r'. now apply record_status_update.
    + subst r'. apply String.eqb_neq in He. contradiction.
Qed.

End Records.

Section QueueFrame.

Variable py_repr : json -> string.
Variable Ext : Type.
Variable env : World Ext -> list (string * fnode) * Ext.

#[global] Instance rewrites_frame (p : json) (ids statuses : list string) :
  Frame env (rewrites py_repr p ids statuses).
Proof.
  constructor; unfold rewrites; intros; simpl; try (left; reflexivity).
  destruct H0 as [H0 | H0]; [|now right].
  destruct H as [H | [i [u [s [p' H]]]]]; [left; congruence|].
  right. exists i, u, s, p'. rewrite H0. exact H.
Qed.

(** The continuation of a lifted value is run on that value only. *)
Lemma kp_bind_lift {A B : Type} (F : World Ext -> World Ext -> Prop)
    {HF : Frame env F} (x : res A) (k : A -> M Ext B) :
  (forall a, x = Ok a -> keeps F (k a)) -> keeps F (bind (lift x) k).
Proof.
  intros H w. unfold bind, lift. destruct x as [a|e]; [now apply H | apply frame_refl].
Qed.

Lemma kp_write_update (p p' : json) (ids statuses : list string)
    (task_id : string) (updates : dict) (s : string) :
  In task_id ids -> In s statuses ->
  Dict.get "id" (rev updates) = None ->
  Dict.get "status" (rev updates) = Some (JStr s) ->
  _update_task py_repr p task_id updates = Ok p' ->
  keeps (rewrites py_repr p ids statuses) (@_write_json Ext p').
Proof.
  intros Hi Hs Hid Hst Hu w. right. exists task_id, updates, s, p'. simpl. tauto.
Qed.

(** What a stretch of the code that rewrites the queue does to its records. *)
Lemma rewrites_moves (p : json) (ids statuses : list string) (ts : list dict)
    (w w' : World Ext) :
  w_queue w = Some p -> _queue_tasks p = Ok ts ->
  (forall s, In s statuses -> s <> EmptyString /\ _normalize_status s = s) ->
  rewrites py_repr p ids statuses w w' ->
  exists ts',
    queue_is w' ts'
    /\ Forall2 (touched py_repr (retagged py_repr ids statuses)) ts ts'.
Proof.
  intros Hw Hq Hst [H | [i [u [s [p' [Hi [Hs [Hid [Hu [Hp Hw']]]]]]]]]].
  - exists ts. split; [exists p; split; congruence | apply touched_refl].
  - destruct (Hst s Hs) as [Hne Hn].
    destruct (update_task_spec py_repr _ _ _ _ _ _ Hq Hid Hu Hne Hp)
      as [ts' [Hq' [Hf _]]].
    exists ts'. split; [now exists p'|].
    apply (Forall2_weaken_In _ _ _ _ Hf).
    intros r r' _ _ [Hr [He | [[Hin | []] [Hs' | []]]]]; split; auto.
    right. split; [now rewrite <- Hin | now rewrite <- Hs', Hn].
Qed.

End QueueFrame.

Ltac keeps_zeta :=
  lazymatch goal with
  | |- keeps _ (let _ := _ in _) => cbv zeta
  end.

(** The steps of a stretch that holds a payload: a lifted value is named,
    and a write of the updated payload is the one the frame admits. *)
Ltac rewrites_step git env :=
  first
    [ keeps_run git env; right; intro; left; reflexivity
    | lazymatch goal with
      | |- keeps ?F (bind (lift _) _) =>
          apply (kp_bind_lift _ env F); intros ? ?
      | |- keeps _ (_write_json _) =>
          eapply (kp_write_update _ _ env);
          [ | | | | eassumption ]; [ | | reflexivity | reflexivity ];
          simpl; auto
      end
    | keeps_zeta
    | keeps_step env ].

Ltac rewrites_all git env := keeps_unfold; repeat rewrites_step git env.

Section TickQueue.

Variable py_repr : json -> string.
Variable py_int_of_str : string -> option Z.
Variable Ext : Type.
Variable utc_now : Ext -> string.
Variable now_minute : Ext -> string.
Variable git : World Ext -> list string -> Z * string.
Variable poll : Ext -> nat -> option Z.
Variable env : World Ext -> list (string * fnode) * Ext.
Variable args : Args.
Variable repo_root run_root spawn_script : Path.t.
Variable base_branch : string.
Variable only_ids : list string.
Variable id_re : option (string -> bool).
Variable track_paths : list Path.t.

Local Abbreviation rid := (record_id py_repr).
Local Abbreviation rstatus := (record_status py_repr).
Local Abbreviation spawn :=
  (spawn_task py_repr utc_now now_minute git env args repo_root run_root
              spawn_script base_branch track_paths).
Local Abbreviation admit_all :=
  (admission py_repr utc_now now_minute git env args repo_root run_root
             spawn_script base_branch track_paths).
Local Abbreviation detect_all := (detect py_repr utc_now poll run_root).
Local Abbreviation fin_blocked :=
  (finish_blocked py_repr utc_now now_minute git env repo_root track_paths).
Local Abbreviation fin_task :=
  (finish_task py_repr py_int_of_str utc_now now_minute git poll env repo_root
               run_root base_branch track_paths).
Local Abbreviation fin_all :=
  (finish py_repr py_int_of_str utc_now now_minute git poll env repo_root
          run_root base_branch track_paths).
Local Abbreviation the_tick :=
  (tick py_repr py_int_of_str utc_now now_minute git poll env args repo_root
        run_root spawn_script base_branch only_ids id_re track_paths).
Local Abbreviation ends := ["blocked"; "completed"].

Ltac quiet :=
  keeps_unfold;
  repeat first
    [ keeps_run git env; right; intro; reflexivity
    | keeps_zeta
    | keeps_step env ].

Ltac yields_all :=
  repeat first
    [ apply yields_raise
    | apply yields_bind; intro
    | match goal with
      | |- yields _ (let _ := _ in _) => cbv zeta
      | |- yields _ (if ?b then _ else _) => destruct b
      | |- yields _ (match ?x with _ => _ end) => destruct x
      | |- yields _ (let (_, _) := ?x in _) => destruct x
      end ].

(** One step of a computation: a value that is lifted is examined, and a
    head that leaves the queue file alone is passed. *)
Ltac qstep :=
  match goal with
  | H : bind (lift ?x) ?k ?w = (?r, ?w') |- _ =>
      unfold bind at 1 in H; unfold lift at 1 in H;
      let Hx := fresh "Hlift" in
      destruct x eqn:Hx; cbv beta iota in H
  | H : bind ?m ?k ?w = (?r, ?w') |- _ =>
      let Hk := fresh "Hk" in
      assert (Hk : keeps same_queue m) by quiet;
      let e := fresh "e" in
      let a := fresh "a" in
      let w1 := fresh "w" in
      let Hq := fresh "Hq" in
      let H' := fresh "Hrun" in
      destruct (bind_keeps_inv _ same_queue m k w w' r Hk H)
        as [[e [-> Hq]] | [a [w1 [Hq H']]]];
      clear Hk H; [ | cbv beta in H' ]
  end.

Ltac same_q := unfold same_queue in *; first [ congruence | simpl in *; congruence ].

Ltac on_run tac := match goal with H : _ = (_, _) |- _ => tac H end.

Lemma read_json_bind {A : Type} (k : json -> M Ext A) (w : World Ext) (q : json) :
  w_queue w = Some q -> bind (@_read_json Ext) k w = k q w.
Proof. intros H. unfold bind at 1. unfold _read_json, bind, gets, ret. now rewrite H. Qed.

Lemma ends_normal (s : string) :
  In s ends -> s <> EmptyString /\ _normalize_status s = s.
Proof. intros [<- | [<- | []]]; split; (discriminate || reflexivity). Qed.

Lemma finish_blocked_queue (payload : json) (task_id role wt : string)
    (last : Path.t) (blocker : string) (steps : list string) (note : string) :
  keeps (rewrites py_repr payload [task_id] ends)
        (fin_blocked payload task_id role wt last blocker steps note).
Proof. unfold finish_blocked. rewrites_all git env. Qed.

Lemma finish_task_running (task_id : string) (l0 : Loop) :
  yields (fun l' => running l' = Dict.remove task_id (running l0))
         (fin_task task_id l0).
Proof. unfold finish_task. yields_all; apply yields_ret; reflexivity. Qed.

Ltac unchanged ts q :=
  exists ts; split; [exists q; split; [same_q | assumption] | apply touched_refl].

(** One finished task: its record, if any, becomes [blocked] or
    [completed], and no other record changes. *)
Lemma finish_task_queue (task_id : string) (l0 : Loop) (w w' : World Ext)
    (r : res Loop) (ts : list dict) :
  queue_is w ts ->
  fin_task task_id l0 w = (r, w') ->
  exists ts',
    queue_is w' ts'
    /\ Forall2 (touched py_repr (retagged py_repr [task_id] ends)) ts ts'.
Proof.
  intros [q [Hw Hq]] H. unfold finish_task in H.
  do 3 (qstep; [unchanged ts q|]).
  match goal with
  | H : bind (@_read_json Ext) _ ?w2 = _ |- _ =>
      assert (Hw2 : w_queue w2 = Some q) by same_q;
      rewrite (read_json_bind _ _ _ Hw2) in H;
      match type of H with
      | ?m _ = _ =>
          assert (Hk : keeps (rewrites py_repr q [task_id] ends) m)
            by (keeps_unfold;
                repeat first [ apply finish_blocked_queue | rewrites_step git env ]);
          pose proof (@keeps_snd _ _ _ m _ _ _ H Hk) as Hr
      end;
      apply (rewrites_moves py_repr Ext q [task_id] ends ts w2 w' Hw2 Hq
                            ends_normal Hr)
  end.
Qed.

(** The loop over the finished tasks: their records become [blocked] or
    [completed], and they leave the running map. *)
Lemma finish_queue (finished : list string) :
  forall (l : Loop) (w w' : World Ext) (r : res Loop) (ts : list dict),
    queue_is w ts ->
    fin_all finished l w = (r, w') ->
    exists ts',
      queue_is w' ts'
      /\ Forall2 (touched py_repr (retagged py_repr finished ends)) ts ts'
      /\ forall l', r = Ok l' -> NoDup (Dict.keys (running l)) ->
           NoDup (Dict.keys (running l'))
           /\ forall x, In x (Dict.keys (running l'))
                        <-> In x (Dict.keys (running l)) /\ ~ In x finished.
Proof.
  induction finished as [|task_id rest IH]; intros l w w' r ts Hts H; simpl in H.
  - injection H as <- <-. exists ts. split; [assumption|].
    split; [apply touched_refl|]. intros l' Hl Hnd. injection Hl as <-.
    split; [assumption|]. intros x. simpl. tauto.
  - unfold bind in H. destruct (fin_task task_id l w) as [r1 w1] eqn:H1.
    destruct (finish_task_queue _ _ _ _ _ _ Hts H1) as [ts1 [Hts1 Hf1]].
    assert (Hf1' : Forall2 (touched py_repr
                              (retagged py_repr (task_id :: rest) ends)) ts ts1).
    { apply (retagged_incl py_repr [task_id]); [|assumption].
      intros x [<- | []]. now left. }
    destruct r1 as [l1|e].
    + pose proof (finish_task_running task_id l w l1) as Hrun.
      rewrite H1 in Hrun. specialize (Hrun eq_refl). simpl in Hrun.
      destruct (IH _ _ _ _ _ Hts1 H) as [ts' [Hts' [Hf' Hk]]].
      exists ts'. split; [assumption|]. split.
      * apply (retagged_trans py_repr _ _ _ ts1 _ Hf1').
        apply (retagged_incl py_repr rest); [|assumption].
        intros x Hx. now right.
      * intros l' Hl Hnd. rewrite Hrun in Hk.
        destruct (dict_remove_keys _ task_id (running l) Hnd) as [Hnd1 Hin1].
        destruct (Hk l' Hl Hnd1) as [Hnd' Hin']. split; [assumption|].
        intros x. rewrite Hin', Hin1. simpl. intuition congruence.
    + injection H as <- <-. exists ts1. split; [assumption|].
      split; [assumption|]. intros l' Hl. discriminate.
Qed.

(** The loop that looks for finished tasks: the record of a task whose
    worker is gone without a DONE file becomes [blocked]; the tasks found
    are keys of the running map. *)
Lemma detect_queue (items : list (string * nat)) :
  forall (finished : list string) (w w' : World Ext) (r : res (list string))
         (ts : list dict),
    queue_is w ts ->
    detect_all items finished w = (r, w') ->
    exists ts' found,
      queue_is w' ts'
      /\ incl found (Dict.keys items)
      /\ Forall2 (touched py_repr (retagged py_repr found ends)) ts ts'
      /\ forall fin', r = Ok fin' -> fin' = finished ++ found.
Proof.
  induction items as [|[task_id proc] rest IH]; intros finished w w' r ts Hts H;
    simpl in H.
  - injection H as <- <-. exists ts, []. split; [assumption|].
    split; [intros x []|]. split; [apply touched_refl|].
    intros fin' Hf. injection Hf as <-. now rewrite app_nil_r.
  - destruct Hts as [q [Hw Hq]].
    assert (Hstay : forall w1 e, same_queue w w1 ->
              exists ts' found,
                queue_is w1 ts'
                /\ incl found (Dict.keys ((task_id, proc) :: rest))
                /\ Forall2 (touched py_repr (retagged py_repr found ends)) ts ts'
                /\ forall fin', @Raise (list string) e = Ok fin' ->
                                fin' = finished ++ found).
    { intros w1 e Hs. exists ts, []. split; [exists q; split; [same_q | assumption]|].
      split; [intros x []|]. split; [apply touched_refl | intros ? ?; discriminate]. }
    assert (Hgo : forall w1 fin1 ts1 seen,
              queue_is w1 ts1 ->
              Forall2 (touched py_repr (retagged py_repr seen ends)) ts ts1 ->
              incl seen [task_id] ->
              (forall found, fin1 ++ found = finished ++ seen ++ found) ->
              detect_all rest fin1 w1 = (r, w') ->
              exists ts' found,
                queue_is w' ts'
                /\ incl found (Dict.keys ((task_id, proc) :: rest))
                /\ Forall2 (touched py_repr (retagged py_repr found ends)) ts ts'
                /\ forall fin', r = Ok fin' -> fin' = finished ++ found).
    { intros w1 fin1 ts1 seen Hts1 Hf1 Hseen Hfin Hd.
      destruct (IH _ _ _ _ _ Hts1 Hd) as [ts' [found [Hts' [Hin [Hf' Hr]]]]].
      exists ts', (seen ++ found). split; [assumption|]. split.
      { intros x Hx. apply in_app_or in Hx. destruct Hx as [Hx | Hx].
        - apply Hseen in Hx. destruct Hx as [<- | []]. now left.
        - right. now apply Hin. }
      split.
      { apply (retagged_trans py_repr _ _ _ ts1).
        - apply (retagged_incl py_repr seen); [|assumption].
          intros x Hx. apply in_or_app. now left.
        - apply (retagged_incl py_repr found); [|assumption].
          intros x Hx. apply in_or_app. now right. }
      intros fin' Hfin'. rewrite (Hr fin' Hfin'). apply Hfin. }
    qstep; [now apply Hstay|].
    match goal with H : (if ?b then _ else _) _ = _ |- _ => destruct b end.
    { apply (Hgo w0 (finished ++ [task_id]) ts [task_id]); try assumption.
      - exists q. split; [same_q | assumption].
      - apply touched_refl.
      - apply incl_refl.
      - intros found. now rewrite <- app_assoc. }
    do 2 (qstep; [apply Hstay; same_q|]).
    match goal with H : (if ?b then _ else _) _ = _ |- _ => destruct b end.
    2: { apply (Hgo w2 finished ts []); try assumption.
         - exists q. split; [same_q | assumption].
         - apply touched_refl.
         - intros x [].
         - reflexivity. }
    do 3 (qstep; [apply Hstay; same_q|]).
    match goal with
    | H : bind (@_read_json Ext) _ ?w5 = _ |- _ =>
        assert (Hw5 : w_queue w5 = Some q) by same_q;
        rewrite (read_json_bind _ _ _ Hw5) in H
    end.
    qstep; [apply Hstay; same_q|].
    qstep.
    2: { on_run ltac:(fun H => injection H as <- <-). apply Hstay; same_q. }
    on_run ltac:(fun H => unfold bind at 1 in H; unfold _write_json, modify in H;
                          cbv beta iota in H).
    match goal with
    | Hu : _update_task _ _ _ ?u = Ok ?p' |- _ =>
        destruct (update_task_spec py_repr q p' ts task_id u "blocked" Hq
                    eq_refl eq_refl ltac:(discriminate) Hu)
          as [ts1 [Hq1' [Hf1 _]]]
    end.
    match goal with
    | H : detect_all rest _ ?w7 = _ |- _ =>
        apply (Hgo w7 (finished ++ [task_id]) ts1 [task_id]); try assumption
    end.
    + eexists. split; [reflexivity | eassumption].
    + apply (Forall2_weaken_In _ _ _ _ Hf1).
      intros x y _ _ [Hi [Hxy | [Hx [Hy | []]]]]; split; auto.
      right. split; [assumption | left; exact Hy].
    + apply incl_refl.
    + intros found. now rewrite <- app_assoc.
Qed.

(** One task admitted: the run fails with the queue file as it was, or the
    record of the task is updated and written, whatever happens next. *)
Lemma spawn_task_queue (t : Task) (a : Pass) (w w' : World Ext) (r : res Pass) :
  arg_dry_run args = false ->
  spawn t a w = (r, w') ->
  (same_queue w w' /\ exists e, r = Raise e)
  \/ (exists now p',
         _update_task py_repr (ad_payload a) (id t)
           [("status", JStr "in_progress"); ("started_at", JStr now)] = Ok p'
         /\ w_queue w' = Some p'
         /\ forall a', r = Ok a' ->
              ad_payload a' = p'
              /\ exists proc,
                   running (ad_loop a') = Dict.set (id t) proc (running (ad_loop a))).
Proof.
  intros Hdry H. unfold spawn_task in H. rewrite Hdry in H.
  do 5 (qstep; [left; split; [same_q | eauto]|]).
  qstep.
  2: { on_run ltac:(fun H => injection H as <- <-). left. split; [same_q | eauto]. }
  do 2 (qstep; [left; split; [same_q | eauto]|]).
  right.
  match goal with
  | Hu : _update_task _ _ _ [_; (_, JStr ?now)] = Ok ?p' |- _ =>
      exists now, p'; split; [exact Hu|]
  end.
  on_run ltac:(fun H => unfold bind at 1 in H; unfold _write_json, modify in H;
                        cbv beta iota in H).
  match goal with
  | H : ?m ?w7 = _ |- _ /\ (forall a', _ -> ad_payload a' = ?p /\ _) =>
      assert (Hk : keeps same_queue m) by quiet;
      assert (Hy : yields (fun a' =>
                     ad_payload a' = p
                     /\ exists proc,
                          running (ad_loop a')
                          = Dict.set (id t) proc (running (ad_loop a))) m)
        by (yields_all; apply yields_ret; simpl; eauto);
      pose proof (@keeps_snd _ _ same_queue m _ _ _ H Hk) as Hq6;
      pose proof (Hy w7) as Hy7;
      rewrite H in Hy7
  end.
  split.
  - unfold same_queue in Hq6. simpl in Hq6. congruence.
  - intros a' ->. now apply Hy7.
Qed.

(** The admission loop: the records of the tasks it admits become
    [in_progress], and their ids are added to the running map. *)
Lemma admission_queue (runnable : list Task) :
  arg_dry_run args = false ->
  (forall t, In t runnable -> id t <> EmptyString) ->
  forall (a : Pass) (w w' : World Ext) (r : res Pass) (ts : list dict),
    w_queue w = Some (ad_payload a) ->
    _queue_tasks (ad_payload a) = Ok ts ->
    admit_all runnable a w = (r, w') ->
    exists ts' admitted,
      queue_is w' ts'
      /\ incl admitted (map id runnable)
      /\ Forall2 (touched py_repr (retagged py_repr admitted ["in_progress"])) ts ts'
      /\ forall a', r = Ok a' ->
           Dict.keys (running (ad_loop a'))
           = Dict.keys (running (ad_loop a)) ++ admitted
           /\ (NoDup (Dict.keys (running (ad_loop a))) ->
               NoDup (Dict.keys (running (ad_loop a'))))
           /\ (unique_ids py_repr ts ->
               forall r', In r' ts' -> In (rid r') admitted ->
                          rstatus r' = "in_progress").
Proof.
  intros Hdry.
  induction runnable as [|t rest IH]; intros Hids a w w' r ts Hw Hq H; simpl in H.
  - injection H as <- <-. exists ts, []. split; [now exists (ad_payload a)|].
    split; [intros x []|]. split; [apply touched_refl|].
    intros a' Ha. injection Ha as <-. rewrite app_nil_r.
    split; [reflexivity|]. split; [auto|]. intros _ r' _ [].
  - assert (Hids' : forall u, In u rest -> id u <> EmptyString)
      by (intros u Hu; apply Hids; now right).
    assert (Hskip : admit_all rest a w = (r, w') ->
                    exists ts' admitted,
      queue_is w' ts'
      /\ incl admitted (map id (t :: rest))
      /\ Forall2 (touched py_repr (retagged py_repr admitted ["in_progress"])) ts ts'
      /\ forall a', r = Ok a' ->
           Dict.keys (running (ad_loop a'))
           = Dict.keys (running (ad_loop a)) ++ admitted
           /\ (NoDup (Dict.keys (running (ad_loop a))) ->
               NoDup (Dict.keys (running (ad_loop a'))))
           /\ (unique_ids py_repr ts ->
               forall r', In r' ts' -> In (rid r') admitted ->
                          rstatus r' = "in_progress")).
    { intros Hr. destruct (IH Hids' _ _ _ _ _ Hw Hq Hr) as [ts' [adm [H1 [H2 H3]]]].
      exists ts', adm. split; [assumption|]. split; [|assumption].
      intros x Hx. right. now apply H2. }
    destruct (Dict.has (id t) (running (ad_loop a))) eqn:Hin; [now apply Hskip|].
    destruct (arg_max_workers args <=? Z.of_nat (List.length (running (ad_loop a))))%Z.
    { injection H as <- <-. exists ts, []. split; [now exists (ad_payload a)|].
      split; [intros x []|]. split; [apply touched_refl|].
      intros a' Ha. injection Ha as <-. rewrite app_nil_r.
      split; [reflexivity|]. split; [auto|]. intros _ r' _ []. }
    destruct ((0 <? arg_per_workstream args)%Z
              && PyStr.mem (workstream_id t) (ad_active a)); [now apply Hskip|].
    unfold bind in H. destruct (spawn t a w) as [r1 w1] eqn:Hsp.
    destruct (spawn_task_queue _ _ _ _ _ Hdry Hsp)
      as [[Hsame [e ->]] | [now [p' [Hu [Hw1 Ha1]]]]].
    { injection H as <- <-. exists ts, [].
      split; [exists (ad_payload a); split; [same_q | assumption]|].
      split; [intros x []|]. split; [apply touched_refl|]. intros a' Ha. discriminate. }
    destruct (update_task_spec py_repr (ad_payload a) p' ts (id t)
                [("status", JStr "in_progress"); ("started_at", JStr now)]
                "in_progress" Hq eq_refl eq_refl ltac:(discriminate) Hu)
      as [ts1 [Hq1 [Hf1 Hex1]]].
    change (_normalize_status "in_progress") with "in_progress" in Hf1, Hex1.
    destruct r1 as [a1|e].
    2: { injection H as <- <-. exists ts1, [id t]. split; [now exists p'|].
         split; [intros x [<- | []]; now left|]. split; [assumption|].
         intros a' Ha. discriminate. }
    destruct (Ha1 a1 eq_refl) as [Hp1 [proc Hrun1]].
    rewrite <- Hp1 in Hw1, Hq1.
    destruct (IH Hids' _ _ _ _ _ Hw1 Hq1 H) as [ts' [adm [Hts' [Hincl [Hf' Hok]]]]].
    exists ts', (id t :: adm). split; [assumption|].
    split; [intros x [<- | Hx]; [now left | right; now apply Hincl]|].
    split.
    { apply (retagged_trans py_repr _ _ _ ts1).
      - apply (retagged_incl py_repr [id t]); [|assumption].
        intros x [<- | []]. now left.
      - apply (retagged_incl py_repr adm); [|assumption].
        intros x Hx. now right. }
    intros a' Ha'. destruct (Hok a' Ha') as [Hkeys [Hnd Hexact]].
    assert (Hk1 : Dict.keys (running (ad_loop a1))
                  = Dict.keys (running (ad_loop a)) ++ [id t]).
    { rewrite Hrun1, (dict_set_absent _ _ _ _ Hin), dict_keys_app. reflexivity. }
    split; [rewrite Hkeys, Hk1, <- app_assoc; reflexivity|].
    split.
    { intros Hnd0. apply Hnd. rewrite Hk1. apply NoDup_app.
      - assumption.
      - repeat constructor. intros [].
      - intros x Hx [<- | []].
        apply dict_has_In in Hx. congruence. }
    intros Hu0 r' Hr' [Hr | Hr].
    + destruct (Forall2_In_r _ _ _ _ Hf' Hr') as [r1 [Hr1 [Hid1 Hc]]].
      destruct Hc as [-> | [_ [Hs | []]]]; [|now symmetry].
      apply Hex1; try assumption.
      * apply Hids. now left.
      * congruence.
    + apply Hexact; try assumption.
      apply (touched_unique py_repr _ _ _ Hf1 Hu0).
Qed.

Lemma print_planned_quiet (planned : list Task) :
  keeps same_queue (@print_planned Ext repo_root planned).
Proof.
  induction planned as [|t rest IH]; simpl; [quiet|].
  apply (kp_bind _ env same_queue); [quiet | intros _; exact IH].
Qed.

(** A task that is loaded comes from a record that has its id and its
    status. *)
Lemma loaded_task_record (q : json) (ts : list dict) (tasks_all : list Task)
    (t : Task) :
  _queue_tasks q = Ok ts ->
  _load_tasks py_repr py_int_of_str q = Ok tasks_all ->
  In t tasks_all ->
  exists r0, nth_error ts (index t) = Some r0 /\ rid r0 = id t
             /\ id t <> EmptyString /\ rstatus r0 = status t.
Proof.
  intros Hq Hl Hin. unfold _load_tasks in Hl. rewrite Hq in Hl.
  destruct (load_from_origin py_repr py_int_of_str ts 0 tasks_all t Hl Hin)
    as [_ [r0 [Hn Hr]]].
  rewrite Nat.sub_0_r in Hn.
  destruct (load_record_some py_repr py_int_of_str _ _ _ Hr) as [_ [Hi [Hne Hs]]].
  exists r0. repeat split; congruence.
Qed.

(** One tick, on the records of the queue: the tasks admitted were
    [pending] and are made [in_progress]; then tasks of the running map are
    made [blocked] or [completed], and leave the map. *)
Lemma tick_queue (l : Loop) (w w' : World Ext) (r : res (Z + Loop)) (q : json)
    (ts : list dict) :
  w_queue w = Some q -> _queue_tasks q = Ok ts ->
  the_tick l w = (r, w') ->
  exists ts1 ts' admitted finished,
    queue_is w' ts'
    /\ (forall i, In i admitted ->
          exists r0, In r0 ts /\ rid r0 = i /\ i <> EmptyString
                     /\ rstatus r0 = "pending")
    /\ incl finished (Dict.keys (running l) ++ admitted)
    /\ Forall2 (touched py_repr (retagged py_repr admitted ["in_progress"])) ts ts1
    /\ Forall2 (touched py_repr (retagged py_repr finished ends)) ts1 ts'
    /\ forall l', r = Ok (inr l') ->
         (NoDup (Dict.keys (running l)) ->
          NoDup (Dict.keys (running l'))
          /\ forall x, In x (Dict.keys (running l'))
                       <-> In x (Dict.keys (running l) ++ admitted)
                           /\ ~ In x finished)
         /\ (unique_ids py_repr ts ->
             forall r1, In r1 ts1 -> In (rid r1) admitted ->
                        rstatus r1 = "in_progress").
Proof.
  intros Hw Hq H. unfold tick in H. rewrite (read_json_bind _ _ _ Hw) in H.
  assert (Htriv : same_queue w w' /\ (forall l', r <> Ok (inr l')) ->
    exists ts1 ts' admitted finished,
    queue_is w' ts'
    /\ (forall i, In i admitted ->
          exists r0, In r0 ts /\ rid r0 = i /\ i <> EmptyString
                     /\ rstatus r0 = "pending")
    /\ incl finished (Dict.keys (running l) ++ admitted)
    /\ Forall2 (touched py_repr (retagged py_repr admitted ["in_progress"])) ts ts1
    /\ Forall2 (touched py_repr (retagged py_repr finished ends)) ts1 ts'
    /\ forall l', r = Ok (inr l') ->
         (NoDup (Dict.keys (running l)) ->
          NoDup (Dict.keys (running l'))
          /\ forall x, In x (Dict.keys (running l'))
                       <-> In x (Dict.keys (running l) ++ admitted)
                           /\ ~ In x finished)
         /\ (unique_ids py_repr ts ->
             forall r1, In r1 ts1 -> In (rid r1) admitted ->
                        rstatus r1 = "in_progress")).
  { intros [Hs Hr]. exists ts, ts, [], []. split; [exists q; split; [same_q | assumption]|].
    split; [intros i []|]. split; [intros x []|].
    split; [apply touched_refl|]. split; [apply touched_refl|].
    intros l' Hl. destruct (Hr l' Hl). }
  qstep.
  2: { on_run ltac:(fun H => injection H as <- <-).
       apply Htriv; split; [same_q | discriminate]. }
  set (runnable := _runnable_tasks (filter (in_scope only_ids id_re) a) (done_ids a))
    in *.
  assert (Hrunnable : forall t, In t runnable ->
            exists r0, In r0 ts /\ rid r0 = id t /\ id t <> EmptyString
                       /\ rstatus r0 = "pending").
  { intros t Ht. apply runnable_In in Ht. destruct Ht as [Ht [Hp _]].
    apply filter_In in Ht. destruct Ht as [Ht _].
    destruct (loaded_task_record _ _ _ _ Hq Hlift Ht) as [r0 [Hn [Hi [Hne Hs]]]].
    exists r0. split; [now apply nth_error_In in Hn|]. repeat split; congruence. }
  assert (Hleaves : forall (m : M Ext (Z + Loop)),
            m w = (r, w') ->
            keeps same_queue m -> yields (fun x => exists c, x = inl c) m ->
            same_queue w w' /\ forall l', r <> Ok (inr l')).
  { intros m Hm Hk Hy. split; [apply (@keeps_snd _ _ same_queue m _ _ _ Hm Hk)|].
    intros l' ->. specialize (Hy w (inr l')). rewrite Hm in Hy.
    destruct (Hy eq_refl) as [c Hc]. discriminate. }
  match goal with H : (if ?b then _ else _) _ = _ |- _ => destruct b end.
  { apply Htriv; eapply Hleaves; [exact H | quiet |].
    yields_all; apply yields_ret; eauto. }
  destruct (arg_dry_run args) eqn:Hdry.
  { apply Htriv; eapply Hleaves; [exact H | |].
    - quiet; apply print_planned_quiet.
    - yields_all; apply yields_ret; eauto. }
  match goal with H : (if ?b then _ else _) _ = _ |- _ => destruct b end.
  { apply Htriv; eapply Hleaves; [exact H | quiet |].
    yields_all; apply yields_ret; eauto. }
  qstep.
  2: { on_run ltac:(fun H => injection H as <- <-).
       apply Htriv; split; [same_q | discriminate]. }
  unfold bind at 1 in H.
  match type of H with
  | context [admit_all runnable ?a0 w] =>
      destruct (admit_all runnable a0 w) as [ra wa] eqn:Had;
      destruct (admission_queue runnable Hdry
                  (fun t Ht => match Hrunnable t Ht with
                               | ex_intro _ _ (conj _ (conj _ (conj Hne _))) => Hne
                               end)
                  a0 w wa ra ts Hw Hq Had)
        as [ts1 [adm [Hts1 [Hadm [Hf1 Hok1]]]]]
  end.
  assert (Hprov : forall i, In i adm ->
            exists r0, In r0 ts /\ rid r0 = i /\ i <> EmptyString
                       /\ rstatus r0 = "pending").
  { intros i Hi. apply Hadm in Hi. apply in_map_iff in Hi.
    destruct Hi as [t [<- Ht]]. now apply Hrunnable. }
  assert (Hrest : forall ts' finished,
            queue_is w' ts' ->
            incl finished (Dict.keys (running l) ++ adm) ->
            Forall2 (touched py_repr (retagged py_repr finished ends)) ts1 ts' ->
            (forall l', r = Ok (inr l') ->
               exists a', ra = Ok a'
               /\ (NoDup (Dict.keys (running (ad_loop a'))) ->
                   NoDup (Dict.keys (running l'))
                   /\ forall x, In x (Dict.keys (running l'))
                                <-> In x (Dict.keys (running (ad_loop a')))
                                    /\ ~ In x finished)) ->
    exists ts1 ts' admitted finished,
    queue_is w' ts'
    /\ (forall i, In i admitted ->
          exists r0, In r0 ts /\ rid r0 = i /\ i <> EmptyString
                     /\ rstatus r0 = "pending")
    /\ incl finished (Dict.keys (running l) ++ admitted)
    /\ Forall2 (touched py_repr (retagged py_repr admitted ["in_progress"])) ts ts1
    /\ Forall2 (touched py_repr (retagged py_repr finished ends)) ts1 ts'
    /\ forall l', r = Ok (inr l') ->
         (NoDup (Dict.keys (running l)) ->
          NoDup (Dict.keys (running l'))
          /\ forall x, In x (Dict.keys (running l'))
                       <-> In x (Dict.keys (running l) ++ admitted)
                           /\ ~ In x finished)
         /\ (unique_ids py_repr ts ->
             forall r1, In r1 ts1 -> In (rid r1) admitted ->
                        rstatus r1 = "in_progress")).
  { intros ts' finished Hts' Hfin Hf2 Hl. exists ts1, ts', adm, finished.
    repeat (split; [assumption|]).
    intros l' Hl'. destruct (Hl l' Hl') as [a' [-> Hkeys']].
    destruct (Hok1 a' eq_refl) as [Hkeys [Hnd Hexact]]. simpl in Hkeys, Hnd.
    split; [|assumption].
    intros Hnd0. rewrite <- Hkeys. apply Hkeys'. now apply Hnd. }
  destruct ra as [a'|e].
  2: { injection H as <- <-. apply (Hrest ts1 []); try assumption.
       - intros x [].
       - apply touched_refl.
       - intros l' Hl'. discriminate. }
  destruct (Hok1 a' eq_refl) as [Hkeys _]. simpl in Hkeys.
  destruct Hts1 as [q1 [Hw1 Hq1]].
  qstep.
  { apply (Hrest ts1 []).
    - exists q1. split; [same_q | assumption].
    - intros x [].
    - apply touched_refl.
    - intros l' Hl'. discriminate. }
  match goal with
  | H : bind (detect_all ?items []) _ ?wb = _ |- _ =>
      unfold bind at 1 in H;
      destruct (detect_all items [] wb) as [rd wd] eqn:Hdet;
      assert (Hwb : queue_is wb ts1) by (exists q1; split; [same_q | assumption]);
      destruct (detect_queue items [] wb wd rd ts1 Hwb Hdet)
        as [ts2 [found [Hts2 [Hfound [Hf2 Hfin]]]]]
  end.
  rewrite Hkeys in Hfound.
  destruct rd as [fin|e].
  2: { on_run ltac:(fun H => injection H as <- <-).
       apply (Hrest ts2 found); try assumption.
       intros l' Hl'. discriminate. }
  rewrite (Hfin fin eq_refl) in *. simpl in *.
  match goal with
  | H : bind (fin_all found ?la) _ wd = _ |- _ =>
      unfold bind at 1 in H;
      destruct (fin_all found la wd) as [rf wf] eqn:Hfinish;
      destruct (finish_queue found la wd wf rf ts2 Hts2 Hfinish)
        as [ts3 [Hts3 [Hf3 Hrun3]]]
  end.
  assert (Hf23 : Forall2 (touched py_repr (retagged py_repr found ends)) ts1 ts3)
    by (apply (retagged_trans py_repr _ _ _ ts2); assumption).
  destruct rf as [l3|e].
  2: { on_run ltac:(fun H => injection H as <- <-).
       apply (Hrest ts3 found); try assumption.
       intros l' Hl'. discriminate. }
  on_run ltac:(fun H => injection H as <- <-).
  apply (Hrest ts3 found); try assumption.
  intros l' Hl'. injection Hl' as <-. exists a'. split; [reflexivity|].
  apply Hrun3. reflexivity.
Qed.

(** A tick that returns has read and loaded the queue. *)
Lemma tick_ok_queue (l : Loop) (w w' : World Ext) (x : Z + Loop) :
  the_tick l w = (Ok x, w') -> exists ts, queue_is w ts.
Proof.
  intros H. unfold tick in H. unfold bind at 1 in H.
  unfold _read_json, bind, gets, ret in H.
  destruct (w_queue w) as [q|] eqn:Hw; [|discriminate].
  unfold lift at 1 in H.
  destruct (_load_tasks py_repr py_int_of_str q) as [tasks_all|] eqn:Hl;
    [|discriminate].
  destruct (queue_tasks_of_load _ _ _ _ Hl) as [ts Hq].
  exists ts, q. auto.
Qed.

Lemma queue_is_fun (w : World Ext) (ts ts' : list dict) :
  queue_is w ts -> queue_is w ts' -> ts' = ts.
Proof. intros [q [Hw Hq]] [q' [Hw' Hq']]. congruence. Qed.

(** A tick keeps the running map well keyed. *)
Lemma tick_well_keyed (l l' : Loop) (w w' : World Ext) :
  well_keyed l -> the_tick l w = (Ok (inr l'), w') -> well_keyed l'.
Proof.
  intros [Hnd Hne] H. destruct (tick_ok_queue _ _ _ _ H) as [ts [q [Hw Hq]]].
  destruct (tick_queue _ _ _ _ _ _ Hw Hq H)
    as [ts1 [ts' [adm [fin [_ [Hprov [_ [_ [_ Hok]]]]]]]]].
  destruct (Hok l' eq_refl) as [Hkeys _]. destruct (Hkeys Hnd) as [Hnd' Hin].
  split; [assumption|]. intros He. apply Hin in He. destruct He as [He _].
  apply in_app_or in He. destruct He as [He | He]; [contradiction|].
  destruct (Hprov _ He) as [r0 [_ [_ [Hn _]]]]. now apply Hn.
Qed.

(** A tick leaves the records that have no id as they are. *)
Lemma tick_skips_blank (l : Loop) (w w' : World Ext) (r : res (Z + Loop))
    (ts : list dict) :
  well_keyed l -> queue_is w ts -> the_tick l w = (r, w') ->
  exists ts',
    queue_is w' ts'
    /\ Forall2 (fun r0 r' => rid r0 = EmptyString -> r' = r0) ts ts'.
Proof.
  intros [Hnd Hne] [q [Hw Hq]] H.
  destruct (tick_queue _ _ _ _ _ _ Hw Hq H)
    as [ts1 [ts' [adm [fin [Hts' [Hprov [Hfin [Hf1 [Hf2 _]]]]]]]]].
  assert (Hadm : ~ In EmptyString adm).
  { intros He. destruct (Hprov _ He) as [r0 [_ [_ [Hn _]]]]. now apply Hn. }
  exists ts'. split; [assumption|].
  apply (Forall2_compose_In _ _ _ _ _ _ Hf1 Hf2).
  intros x y z _ _ _ [Hi1 Hc1] [Hi2 Hc2] Hx.
  assert (Hyx : y = x).
  { destruct Hc1 as [-> | [Hin _]]; [reflexivity|]. rewrite Hx in Hin. contradiction. }
  subst y. destruct Hc2 as [-> | [Hin _]]; [reflexivity|].
  rewrite Hx in Hin. apply Hfin in Hin. apply in_app_or in Hin.
  destruct Hin as [Hin | Hin]; contradiction.
Qed.

(** A tick keeps the state consistent. *)
Lemma tick_consistent (l l' : Loop) (w w' : World Ext) :
  consistent py_repr l w -> the_tick l w = (Ok (inr l'), w') ->
  consistent py_repr l' w'.
Proof.
  intros [Hnd [Hne Hc]] H. destruct (tick_ok_queue _ _ _ _ H) as [ts [q [Hw Hq]]].
  destruct (Hc q ts Hw Hq) as [Hu Hip].
  destruct (tick_well_keyed l l' w w' (conj Hnd Hne) H) as [Hnd' Hne'].
  destruct (tick_queue _ _ _ _ _ _ Hw Hq H)
    as [ts1 [ts' [adm [fin [Hts' [Hprov [Hfin [Hf1 [Hf2 Hok]]]]]]]]].
  destruct (Hok l' eq_refl) as [Hkeys Hexact]. destruct (Hkeys Hnd) as [_ Hin].
  specialize (Hexact Hu).
  split; [assumption|]. split; [assumption|].
  intros q' ts'' Hw' Hq'.
  assert (ts'' = ts') by (apply (queue_is_fun w'); [assumption | now exists q']).
  subst ts''. split.
  { apply (touched_unique py_repr _ _ _ Hf2), (touched_unique py_repr _ _ _ Hf1), Hu. }
  intros r' Hr' Hk. apply Hin in Hk. destruct Hk as [Hk Hnf].
  destruct (Forall2_In_r _ _ _ _ Hf2 Hr') as [r1 [Hr1 [Hi2 Hc2]]].
  assert (r' = r1).
  { destruct Hc2 as [-> | [Hx _]]; [reflexivity|]. rewrite Hi2 in Hnf. contradiction. }
  subst r'. apply in_app_or in Hk. destruct Hk as [Hk | Hk]; [|now apply Hexact].
  destruct (Forall2_In_r _ _ _ _ Hf1 Hr1) as [r0 [Hr0 [Hi1 Hc1]]].
  destruct Hc1 as [-> | [_ [Hs | []]]]; [now apply Hip | now symmetry].
Qed.

(** One tick from a consistent state moves each record as the life cycle
    allows. *)
Lemma tick_moves (l : Loop) (w w' : World Ext) (r : res (Z + Loop))
    (ts : list dict) :
  consistent py_repr l w -> queue_is w ts -> the_tick l w = (r, w') ->
  exists ts' admitted finished,
    queue_is w' ts'
    /\ (forall i, In i admitted ->
          exists r0, In r0 ts /\ rid r0 = i /\ rstatus r0 = "pending")
    /\ incl finished (Dict.keys (running l) ++ admitted)
    /\ (forall l', r = Ok (inr l') ->
          forall x, In x (Dict.keys (running l'))
                    <-> In x (Dict.keys (running l) ++ admitted)
                        /\ ~ In x finished)
    /\ Forall2 (moved py_repr admitted finished (Dict.keys (running l))) ts ts'.
Proof.
  intros [Hnd [Hne Hc]] [q [Hw Hq]] H.
  destruct (Hc q ts Hw Hq) as [Hu Hip].
  destruct (tick_queue _ _ _ _ _ _ Hw Hq H)
    as [ts1 [ts' [adm [fin [Hts' [Hprov [Hfin [Hf1 [Hf2 Hret]]]]]]]]].
  exists ts', adm, fin. split; [assumption|].
  split.
  { intros i Hi. destruct (Hprov _ Hi) as [r0 [Hr0 [Hi0 [_ Hs0]]]]. eauto. }
  split; [assumption|].
  split.
  { intros l' Hl'. destruct (Hret l' Hl') as [Hkeys _].
    exact (proj2 (Hkeys Hnd)). }
  apply (Forall2_compose_In _ _ _ _ _ _ Hf1 Hf2).
  intros x y z Hx _ _ [Hi1 Hc1] [Hi2 Hc2].
  assert (Hpend : In (rid x) adm -> rstatus x = "pending").
  { intros Hin. destruct (Hprov _ Hin) as [r0 [Hr0 [Hi0 [Hn0 Hs0]]]].
    rewrite <- Hi0 in Hn0.
    now rewrite <- (unique_ids_In py_repr ts r0 x Hu Hr0 Hx Hi0 Hn0). }
  split; [congruence|].
  destruct Hc1 as [-> | [Ha [Hs1 | []]]].
  - destruct Hc2 as [-> | [Hf Hs2]]; [now left|]. right.
    pose proof (Hfin _ Hf) as Hf'. apply in_app_or in Hf'.
    destruct Hf' as [Hk | Ha].
    + right. split; [now apply Hip|]. repeat split; assumption.
    + left. split; [now apply Hpend|]. split; [assumption|]. right.
      split; assumption.
  - right. left. split; [now apply Hpend|]. split; [assumption|].
    destruct Hc2 as [-> | [Hf Hs2]]; [left; congruence|]. right.
    rewrite Hi1 in Hf. split; assumption.
Qed.

Lemma reachable_well_keyed (w0 w : World Ext) (l : Loop) :
  reachable py_repr py_int_of_str utc_now now_minute git poll env args repo_root
            run_root spawn_script base_branch only_ids id_re track_paths w0 l w ->
  well_keyed l.
Proof.
  induction 1 as [|l w l' w' _ IH Ht|l w _ IH].
  - split; [constructor | intros []].
  - exact (tick_well_keyed _ _ _ _ IH Ht).
  - exact IH.
Qed.

Lemma reachable_consistent (w0 w : World Ext) (l : Loop) :
  (forall q0 ts0, w_queue w0 = Some q0 -> _queue_tasks q0 = Ok ts0 ->
                  unique_ids py_repr ts0) ->
  reachable py_repr py_int_of_str utc_now now_minute git poll env args repo_root
            run_root spawn_script base_branch only_ids id_re track_paths w0 l w ->
  consistent py_repr l w.
Proof.
  intros Hu. induction 1 as [|l w l' w' _ IH Ht|l w _ IH].
  - split; [constructor|]. split; [intros []|].
    intros q ts Hw Hq. split; [now apply (Hu q)|]. intros r _ [].
  - exact (tick_consistent _ _ _ _ IH Ht).
  - destruct IH as [Hnd [Hne Hc]]. split; [assumption|]. split; [assumption|].
    intros q ts Hw Hq. apply (Hc q ts); assumption.
Qed.

End TickQueue.
(** ** The life cycle of a record *)

Lemma blank_id_record_id (py_repr : json -> string) (r : dict) :
  id_is_blank r -> record_id py_repr r = EmptyString.
Proof.
  unfold record_id, get_default. intros [H | [s [H Hs]]]; rewrite H; simpl.
  - reflexivity.
  - exact Hs.
Qed.

Section Lifecycle.

Variable py_repr : json -> string.
Variable py_int_of_str : string -> option Z.
Variable Ext : Type.
Variable utc_now : Ext -> string.
Variable now_minute : Ext -> string.
Variable git : World Ext -> list string -> Z * string.
Variable poll : Ext -> nat -> option Z.
Variable env : World Ext -> list (string * fnode) * Ext.
Variable args : Args.
Variable repo_root run_root spawn_script : Path.t.
Variable base_branch : string.
Variable only_ids : list string.
Variable id_re : option (string -> bool).
Variable track_paths : list Path.t.

Local Abbreviation tick_here :=
  (tick py_repr py_int_of_str utc_now now_minute git poll env args repo_root
        run_root spawn_script base_branch only_ids id_re track_paths).
Local Abbreviation reached :=
  (reachable py_repr py_int_of_str utc_now now_minute git poll env args repo_root
             run_root spawn_script base_branch only_ids id_re track_paths).

(** C7: [completed] is terminal when the ids are unique.  No two records of
    the queue the run starts with have the same id, the ids being read as
    the orchestrator reads them (as text, stripped of the whitespace around
    them; records with a blank id apart).  Then at every tick the loop of
    [main] comes to, whether the tick returns or raises, the queue file
    still holds a list of records, one for each record it held, with the
    same id.  There are the ids the tick admits, each the id of a record
    that was [pending], and the ids it finishes, each in the running map or
    admitted in this tick; when the tick returns, the running map holds the
    ids it held and the admitted ones, without the finished ones.  A record
    is as it was; or it was [pending], its id was admitted, and it is now
    [in_progress], or [blocked] or [completed] if its id was finished as
    well; or it was [in_progress], its id was in the running map and was
    finished, and it is now [blocked] or [completed].  So a record that is
    [completed] is as it was. *)
Theorem completed_is_terminal :
  forall (w0 w w' : World Ext) (l : Loop) (r : res (Z + Loop)) (ts : list dict),
    (forall q0 ts0, w_queue w0 = Some q0 -> _queue_tasks q0 = Ok ts0 ->
                    unique_ids py_repr ts0) ->
    reached w0 l w ->
    queue_is w ts ->
    tick_here l w = (r, w') ->
    exists ts' admitted finished,
      queue_is w' ts'
      /\ (forall i, In i admitted ->
            exists r0, In r0 ts /\ record_id py_repr r0 = i
                       /\ record_status py_repr r0 = "pending")
      /\ incl finished (Dict.keys (running l) ++ admitted)
      /\ (forall l', r = Ok (inr l') ->
            forall x, In x (Dict.keys (running l'))
                      <-> In x (Dict.keys (running l) ++ admitted)
                          /\ ~ In x finished)
      /\ Forall2 (moved py_repr admitted finished (Dict.keys (running l))) ts ts'
      /\ Forall2 (fun r0 r' => record_status py_repr r0 = "completed" -> r' = r0)
                 ts ts'.
Proof.
  intros w0 w w' l r ts Hu Hreach Hts Ht.
  pose proof (reachable_consistent _ _ _ _ _ _ _ _ _ _ _ _ _ _ _ _ _ _ _ Hu Hreach)
    as Hc.
  destruct (tick_moves _ _ _ _ _ _ _ _ _ _ _ _ _ _ _ _ _ _ _ _ _ Hc Hts Ht)
    as [ts' [adm [fin [Hts' [Hadm [Hfin [Hrun Hm]]]]]]].
  exists ts', adm, fin. repeat (split; [assumption|]).
  apply (Forall2_weaken_In _ _ _ _ Hm).
  intros r0 r' _ _ [_ [-> | [[Hp _] | [Hp _]]]] Hs; [reflexivity | |];
    rewrite Hs in Hp; discriminate.
Qed.

(** C10: a record whose [id] is missing, empty or only whitespace is passed
    over.  Loading it gives no task and no error; no task that is loaded,
    and so none that is runnable, comes from its place in the queue; every
    id counted as done is the id of a completed task loaded from another
    place; and at every tick the loop of [main] comes to, whether the tick
    returns or raises, the record is in its place as it was. *)
Theorem blank_id_is_skipped :
  forall (ts : list dict) (i : nat) (r0 : dict),
    id_is_blank r0 ->
    nth_error ts i = Some r0 ->
    load_record py_repr py_int_of_str i r0 = Ok None
    /\ (forall q tasks_all,
          _queue_tasks q = Ok ts ->
          _load_tasks py_repr py_int_of_str q = Ok tasks_all ->
          (forall t, In t tasks_all -> index t <> i)
          /\ (forall t,
                In t (_runnable_tasks (filter (in_scope only_ids id_re) tasks_all)
                                      (done_ids tasks_all)) ->
                index t <> i)
          /\ (forall d, In d (done_ids tasks_all) ->
                exists t, In t tasks_all /\ id t = d /\ status t = "completed"
                          /\ index t <> i))
    /\ (forall (w0 w w' : World Ext) (l : Loop) (r : res (Z + Loop)),
          reached w0 l w ->
          queue_is w ts ->
          tick_here l w = (r, w') ->
          exists ts', queue_is w' ts' /\ nth_error ts' i = Some r0).
Proof.
  intros ts i r0 Hb Hn.
  pose proof (blank_id_record_id py_repr r0 Hb) as Hid.
  split; [now apply load_record_none|]. split.
  - intros q tasks_all Hq Hl.
    assert (Hskip : forall t, In t tasks_all -> index t <> i).
    { intros t Ht. unfold _load_tasks in Hl. rewrite Hq in Hl.
      exact (load_from_skips py_repr py_int_of_str ts 0 tasks_all t i r0
               Hl Ht Hn Hid). }
    split; [assumption|]. split.
    + intros t Ht. apply runnable_In in Ht. destruct Ht as [Ht _].
      apply filter_In in Ht. apply Hskip. tauto.
    + intros d Hd. apply mem_In, done_ids_In in Hd.
      destruct Hd as [t [Ht [Hi Hs]]]. exists t. auto.
  - intros w0 w w' l r Hreach Hts Ht.
    assert (Hk : well_keyed l) by (eapply reachable_well_keyed; eassumption).
    destruct (tick_skips_blank _ _ _ _ _ _ _ _ _ _ _ _ _ _ _ _ _ _ _ _ _ Hk Hts Ht)
      as [ts' [Hts' Hf]].
    exists ts'. split; [assumption|].
    destruct (Forall2_nth _ _ _ _ _ Hf Hn) as [r' [Hn' Hr]].
    now rewrite (Hr Hid) in Hn'.
Qed.

End Lifecycle.

(** * The properties at concrete inputs *)

(** C3: a dry run of the sample queue changes nothing but the output. *)
Lemma dry_run_is_pure_witness :
  only_printed
    (Sample.world Sample.queue_blocked [])
    (snd (Sample.run_main 1 (Sample.args false true EmptyString EmptyString)
            (Sample.world Sample.queue_blocked []))).
Proof.
  exact (proj1 (dry_run_is_pure Sample.repr Sample.int_of_str Sample.compile unit
                  Sample.now Sample.minute Sample.git_ok Sample.exited Sample.still
                  0 (Sample.args false true EmptyString EmptyString)
                  (Sample.world Sample.queue_blocked []) eq_refl)).
Defined.

(** C3, as the claim words it, fails: with [--dry-run] and
    [--stop-on-blocked] on a queue that has a blocked task, the run prints
    the line of the stop and returns 1, not 0.  And a dry run does not
    always return: when the queue file cannot be read as JSON, it raises. *)
Lemma dry_run_claim_counterexample :
  arg_dry_run (Sample.args true true EmptyString EmptyString) = true
  /\ fst (Sample.run_main 1 (Sample.args true true EmptyString EmptyString)
            (Sample.world Sample.queue_blocked []))
     = Ok (Some 1%Z)
  /\ w_out (snd (Sample.run_main 1 (Sample.args true true EmptyString EmptyString)
                   (Sample.world Sample.queue_blocked [])))
     = ["STOP: 1 blocked task(s)."]
  /\ arg_dry_run (Sample.args false true EmptyString EmptyString) = true
  /\ fst (Sample.run_main 1 (Sample.args false true EmptyString EmptyString)
            (with_queue None (Sample.world Sample.queue_blocked [])))
     = Raise JSONDecodeError.
Proof. repeat split. Qed.


(** C1 at a crash: task [A] is running, its supervisor has exited and there
    is no DONE file.  The pass that detects it writes [failure.md] with the
    tail of the log and the blocker the claim names; the pass over the
    finished tasks, later in the same tick, finds no status and replaces the
    blocker. *)
Theorem exit_without_sentinel_blocker_is_overwritten :
  (let detected :=
     detect Sample.repr Sample.now Sample.exited (Path.parse "/repo/.runs")
            (running Sample.crashed_loop) [] Sample.crashed_world in
   fst detected = Ok ["A"]
   /\ Dict.get "/repo/.runs/A/failure.md" (w_fs (snd detected))
      = Some (File (failure_text "2025-01-01T00:00:00Z"
                      ("starting" ++ Sample.lf ++ "boom" ++ Sample.lf)))
   /\ Dict.get "blockers" (Sample.first_record (snd detected))
      = Some (JArr [JStr "Worker exited without writing DONE sentinel."]))
  /\ (let ticked :=
        Sample.run_tick (Sample.args false false EmptyString EmptyString) None
                        Sample.crashed_loop Sample.crashed_world in
      fst ticked = Ok (inr (mkLoop [] [] []))
      /\ Dict.get "/repo/.runs/A/failure.md" (w_fs (snd ticked))
         = Some (File (failure_text "2025-01-01T00:00:00Z"
                         ("starting" ++ Sample.lf ++ "boom" ++ Sample.lf)))
      /\ Dict.get "status" (Sample.first_record (snd ticked)) = Some (JStr "blocked")
      /\ Dict.get "blockers" (Sample.first_record (snd ticked))
         = Some (JArr [JStr "Worker status=unknown (see .runs)."])).
Proof. vm_compute. repeat split. Qed.

(** The sample task that made no commit. *)
Lemma no_commit_is_blocked_witness :
  git_grows (docs_commit_command "docs: finish A (blocked)")
    Sample.nocommit_world
    (snd (Sample.run_finish "A" Sample.nocommit_loop Sample.nocommit_world)).
Proof.
  pose (queue := JArr [Sample.task "A" "in_progress" [("worktree", JStr "wt/A")]]).
  pose (this := hd (mkTask EmptyString 0 0 EmptyString [] EmptyString EmptyString
                           EmptyString EmptyString)
                   (Sample.tasks_of queue)).
  pose (result := Sample.run_finish "A" Sample.nocommit_loop Sample.nocommit_world).
  assert (H :=
    no_commit_is_blocked Sample.repr Sample.int_of_str unit Sample.now
      Sample.minute Sample.git_ok Sample.exited Sample.still
      (Path.parse "/repo") (Path.parse "/repo/.runs") "main"
      [Path.parse "/repo/docs/tasks.json"]
      "A" Sample.nocommit_loop Sample.nocommit_world Sample.done_ok
      queue (Sample.tasks_of queue) this "c0ffee").
  cbv zeta in H.
  assert (H1 : Dict.get (Path.str (Path.join (Path.join (Path.parse "/repo/.runs") "A")
                                             ("A" ++ ".done")))
                        (w_fs Sample.nocommit_world)
               = Some (File Sample.done_ok)) by (vm_compute; reflexivity).
  assert (H2 : done_status Sample.done_ok = "success") by (vm_compute; reflexivity).
  assert (H3 : w_queue Sample.nocommit_world = Some queue) by reflexivity.
  assert (H4 : _load_tasks Sample.repr Sample.int_of_str queue
               = Ok (Sample.tasks_of queue)) by (vm_compute; reflexivity).
  assert (H5 : find (fun t => String.eqb (id t) "A") (Sample.tasks_of queue)
               = Some this) by (vm_compute; reflexivity).
  assert (H6 : effective_worktree Sample.nocommit_loop "A" this <> EmptyString)
    by (vm_compute; discriminate).
  assert (H7 : recorded_base_sha Sample.nocommit_loop Sample.nocommit_world
                 (Path.join (Path.parse "/repo/.runs") "A") "A" = Some "c0ffee")
    by (vm_compute; reflexivity).
  assert (H8 :
    PyStr.strip
      (snd (Sample.git_ok Sample.nocommit_world
              ["git"; "rev-parse";
               Path.name (Path.parse (effective_worktree Sample.nocommit_loop "A" this))]))
    = EmptyString
    \/ PyStr.strip
         (snd (Sample.git_ok Sample.nocommit_world
                 ["git"; "rev-parse";
                  Path.name (Path.parse (effective_worktree Sample.nocommit_loop "A" this))]))
       = "c0ffee") by (right; vm_compute; reflexivity).
  assert (H9 :
    finish_task Sample.repr Sample.int_of_str Sample.now Sample.minute Sample.git_ok
      Sample.exited Sample.still (Path.parse "/repo") (Path.parse "/repo/.runs")
      "main" [Path.parse "/repo/docs/tasks.json"] "A" Sample.nocommit_loop
      Sample.nocommit_world = (fst result, snd result))
    by (vm_compute; reflexivity).
  destruct (H H1 H2 H3 H4 H5 H6 H7 H8 (fst result) (snd result) H9) as [_ [Hg _]].
  exact Hg.
Defined.

(** C2 where the branch cannot be resolved: task [A] has finished with
    success in its worktree [wt/A], the base SHA noted at its admission is
    [c0ffee], and the branch [A] is gone, so that [git rev-parse A] exits
    with 128 and prints the name.  The text it prints is neither empty nor
    the base SHA: the task is marked [completed] with no blocker, the docs
    commit is "docs: finish A", and the worktree is removed. *)
Theorem unresolved_branch_is_completed :
  let finished :=
    finish_task Sample.repr Sample.int_of_str Sample.now Sample.minute
                Sample.git_gone Sample.exited Sample.still
                (Path.parse "/repo") (Path.parse "/repo/.runs") "main"
                [Path.parse "/repo/docs/tasks.json"]
                "A" Sample.nocommit_loop Sample.finished_world in
  Sample.git_gone Sample.finished_world ["git"; "rev-parse"; "A"]
  = (128%Z, ("A" ++ Sample.lf)%string)
  /\ recorded_base_sha Sample.nocommit_loop Sample.finished_world
       (Path.join (Path.parse "/repo/.runs") "A") "A" = Some "c0ffee"
  /\ fst finished = Ok (mkLoop [] [("A", "wt/A")] [("A", "c0ffee")])
  /\ Dict.get "status" (Sample.first_record (snd finished))
     = Some (JStr "completed")
  /\ Dict.get "blockers" (Sample.first_record (snd finished)) = None
  /\ w_git (snd finished)
     = [ ["git"; "add"; "--"; "docs/tasks.json"];
         ["git"; "commit"; "-m"; "docs: finish A"];
         ["git"; "worktree"; "remove"; "--force"; "/repo/wt/A"] ].
Proof. vm_compute. repeat split. Qed.


(** The ids admitted in that pass. *)
Example admission_sample_ids :
  Dict.keys (running (ad_loop
    (Sample.pass_of
       (Sample.run_admission (Sample.args false false EmptyString EmptyString)
          (Sample.tasks_of Sample.queue_streams)
          (mkPass Sample.queue_streams [] false (mkLoop [] [] []))
          (Sample.world Sample.queue_streams []))
       (mkPass Sample.queue_streams [] false (mkLoop [] [] [])))))
  = ["A"; "B"].
Proof. vm_compute. reflexivity. Qed.

(** C6 at a queue whose blocked task is outside the scope: with
    [--id-regex ^B] only [B] is in scope and [B] is not blocked, yet the
    loop stops with exit code 1 because [A] is blocked. *)
Theorem stop_on_blocked_ignores_id_regex :
  let run_args := Sample.args true false EmptyString "^B" in
  let tasks_all := Sample.tasks_of Sample.queue_blocked in
  let scope :=
    filter (in_scope (parse_only_ids (arg_only_task_ids run_args))
                     (Sample.compile "^B")) tasks_all in
  map id scope = ["B"]
  /\ filter (fun t => String.eqb (status t) "blocked") scope = []
  /\ fst (Sample.run_tick run_args (Sample.compile "^B") (mkLoop [] [] [])
            (Sample.world Sample.queue_blocked []))
     = Ok (inl 1%Z)
  /\ fst (Sample.run_main 1 run_args (Sample.world Sample.queue_blocked []))
     = Ok (Some 1%Z)
  /\ w_out (snd (Sample.run_main 1 run_args (Sample.world Sample.queue_blocked [])))
     = ["STOP: 1 blocked task(s)."].
Proof. vm_compute. repeat split. Qed.

Local Abbreviation sample_tick :=
  (tick Sample.repr Sample.int_of_str Sample.now Sample.minute Sample.git_ok
        Sample.exited Sample.still (Sample.args false false "" "")
        (Path.parse "/repo") (Path.parse "/repo/.runs")
        (Path.parse "/repo/scripts/spawn_worker.py") "main" [] None
        [Path.parse "/repo/docs/tasks.json"]).

(** C7: the first tick on the sample queue. *)
Lemma completed_is_terminal_witness :
  exists ts' admitted finished,
    queue_is (snd (sample_tick (mkLoop [] [] []) (Sample.world Sample.queue3 []))) ts'
    /\ (forall i, In i admitted ->
          exists r0, In r0 (Sample.records_of Sample.queue3)
                     /\ record_id Sample.repr r0 = i
                     /\ record_status Sample.repr r0 = "pending")
    /\ incl finished (Dict.keys (running (mkLoop [] [] [])) ++ admitted)
    /\ (forall l',
          fst (sample_tick (mkLoop [] [] []) (Sample.world Sample.queue3 []))
          = Ok (inr l') ->
          forall x, In x (Dict.keys (running l'))
                    <-> In x (Dict.keys (running (mkLoop [] [] [])) ++ admitted)
                        /\ ~ In x finished)
    /\ Forall2 (moved Sample.repr admitted finished
                      (Dict.keys (running (mkLoop [] [] []))))
               (Sample.records_of Sample.queue3) ts'
    /\ Forall2 (fun r0 r' => record_status Sample.repr r0 = "completed" -> r' = r0)
               (Sample.records_of Sample.queue3) ts'.
Proof.
  assert (Hu : forall q0 ts0,
            w_queue (Sample.world Sample.queue3 []) = Some q0 ->
            _queue_tasks q0 = Ok ts0 -> unique_ids Sample.repr ts0).
  { intros q0 ts0 Hw Hq. injection Hw as <-. vm_compute in Hq. injection Hq as <-.
    unfold unique_ids. vm_compute. repeat constructor; simpl; intuition discriminate. }
  assert (Hts : queue_is (Sample.world Sample.queue3 [])
                         (Sample.records_of Sample.queue3)).
  { exists Sample.queue3. split; reflexivity. }
  exact (completed_is_terminal Sample.repr Sample.int_of_str unit Sample.now
           Sample.minute Sample.git_ok Sample.exited Sample.still
           (Sample.args false false "" "") (Path.parse "/repo")
           (Path.parse "/repo/.runs")
           (Path.parse "/repo/scripts/spawn_worker.py") "main"
           [] None [Path.parse "/repo/docs/tasks.json"]
           (Sample.world Sample.queue3 []) (Sample.world Sample.queue3 []) _
           (mkLoop [] [] []) _ (Sample.records_of Sample.queue3)
           Hu
           (reach_start Sample.repr Sample.int_of_str Sample.now Sample.minute
              Sample.git_ok Sample.exited Sample.still
              (Sample.args false false "" "") (Path.parse "/repo")
              (Path.parse "/repo/.runs")
              (Path.parse "/repo/scripts/spawn_worker.py") "main"
              [] None [Path.parse "/repo/docs/tasks.json"]
              (Sample.world Sample.queue3 []))
           Hts
           (surjective_pairing
              (sample_tick (mkLoop [] [] []) (Sample.world Sample.queue3 [])))).
Defined.

(** C7, as the claim words it, fails: a [completed] record is changed when
    another record has its id.  With two records of id [A], the first
    [completed] and the second [pending], the tick that admits the second
    changes the first (to [blocked], as the worker of this setting is gone at
    once); and so it is when the id of the second is [A] with a space after
    it, which the orchestrator strips. *)
Lemma duplicate_id_reopens_completed :
  let w := Sample.world Sample.queue_twice [] in
  let result := Sample.run_tick (Sample.args false false "" "") None
                                (mkLoop [] [] []) w in
  let w2 := Sample.world Sample.queue_padded [] in
  let result2 := Sample.run_tick (Sample.args false false "" "") None
                                 (mkLoop [] [] []) w2 in
  (record_status Sample.repr (Sample.first_record w) = "completed"
   /\ record_status Sample.repr (Sample.first_record (snd result)) = "blocked")
  /\ (map (Dict.get "id") (Sample.records_of Sample.queue_padded)
      = [Some (JStr "A"); Some (JStr "A ")]
      /\ record_status Sample.repr (Sample.first_record w2) = "completed"
      /\ record_status Sample.repr (Sample.first_record (snd result2)) = "blocked").
Proof. vm_compute. repeat split. Qed.

Lemma blank_id_is_skipped_witness :
  let ts := Sample.records_of Sample.queue_blank in
  let r0 := [("status", JStr "completed")] in
  load_record Sample.repr Sample.int_of_str 1 r0 = Ok None
  /\ (forall q tasks_all,
        _queue_tasks q = Ok ts ->
        _load_tasks Sample.repr Sample.int_of_str q = Ok tasks_all ->
        (forall t, In t tasks_all -> index t <> 1)
        /\ (forall t,
              In t (_runnable_tasks (filter (in_scope [] None) tasks_all)
                                    (done_ids tasks_all)) ->
              index t <> 1)
        /\ (forall d, In d (done_ids tasks_all) ->
              exists t, In t tasks_all /\ id t = d /\ status t = "completed"
                        /\ index t <> 1))
  /\ (forall (w0 w w' : World unit) (l : Loop) (r : res (Z + Loop)),
        reachable Sample.repr Sample.int_of_str Sample.now Sample.minute
                  Sample.git_ok Sample.exited Sample.still
                  (Sample.args false false "" "") (Path.parse "/repo")
                  (Path.parse "/repo/.runs")
                  (Path.parse "/repo/scripts/spawn_worker.py") "main" [] None
                  [Path.parse "/repo/docs/tasks.json"] w0 l w ->
        queue_is w ts ->
        sample_tick l w = (r, w') ->
        exists ts', queue_is w' ts' /\ nth_error ts' 1 = Some r0).
Proof.
  intros ts r0.
  refine (blank_id_is_skipped Sample.repr Sample.int_of_str unit Sample.now
            Sample.minute Sample.git_ok Sample.exited Sample.still
            (Sample.args false false "" "") (Path.parse "/repo")
            (Path.parse "/repo/.runs")
            (Path.parse "/repo/scripts/spawn_worker.py") "main"
            [] None [Path.parse "/repo/docs/tasks.json"]
            ts 1 r0 _ _).
  - left. reflexivity.
  - reflexivity.
Defined.

(** * Further properties of the orchestrator *)

(** * Further properties of the orchestrator *)

(** ** Statuses and workstreams *)

Lemma is_space_lower_char (c : ascii) :
  PyStr.is_space (PyStr.lower_char c) = PyStr.is_space c.
Proof. destruct c as [[] [] [] [] [] [] [] []]; reflexivity. Qed.

Lemma lower_char_idem (c : ascii) :
  PyStr.lower_char (PyStr.lower_char c) = PyStr.lower_char c.
Proof. destruct c as [[] [] [] [] [] [] [] []]; reflexivity. Qed.

Lemma lower_idem (s : string) : PyStr.lower (PyStr.lower s) = PyStr.lower s.
Proof.
  unfold PyStr.lower. induction s as [|c s IH]; simpl; [reflexivity|].
  now rewrite lower_char_idem, IH.
Qed.

Lemma lstrip_lower (s : string) :
  PyStr.lstrip (PyStr.lower s) = PyStr.lower (PyStr.lstrip s).
Proof.
  unfold PyStr.lower. induction s as [|c s IH]; simpl; [reflexivity|].
  rewrite is_space_lower_char. destruct (PyStr.is_space c); [exact IH | reflexivity].
Qed.

Lemma rstrip_lower (s : string) :
  PyStr.rstrip (PyStr.lower s) = PyStr.lower (PyStr.rstrip s).
Proof.
  unfold PyStr.lower. induction s as [|c s IH]; [reflexivity|].
  change (PyStr.map_chars PyStr.lower_char (String c s))
    with (String (PyStr.lower_char c) (PyStr.map_chars PyStr.lower_char s)).
  rewrite !rstrip_cons, IH, is_space_lower_char.
  destruct (PyStr.rstrip s); simpl; [|reflexivity].
  destruct (PyStr.is_space c); reflexivity.
Qed.

Lemma strip_lower (s : string) :
  PyStr.strip (PyStr.lower s) = PyStr.lower (PyStr.strip s).
Proof. unfold PyStr.strip. now rewrite lstrip_lower, rstrip_lower. Qed.

(** The value [_normalize_status] works on is left as it is by the two
    steps that make it. *)
Lemma lower_strip_fixed (s : string) :
  PyStr.lower (PyStr.strip (PyStr.lower (PyStr.strip s)))
  = PyStr.lower (PyStr.strip s).
Proof. now rewrite strip_lower, strip_idem, lower_idem. Qed.

Lemma normalize_status_fixed (s : string) :
  PyStr.lower (PyStr.strip (_normalize_status s)) = _normalize_status s.
Proof.
  unfold _normalize_status. cbv zeta.
  repeat match goal with
         | |- context [if ?b then _ else _] => destruct b; [reflexivity|]
         end.
  apply lower_strip_fixed.
Qed.

(** X1: [_normalize_status] gives a canonical status.  Normalizing twice
    is normalizing once; the case of the letters and the whitespace around
    the text do not count; and the result is never empty, a blank status
    being [pending]. *)
Theorem normalize_status_canonical (s : string) :
  _normalize_status (_normalize_status s) = _normalize_status s
  /\ _normalize_status (PyStr.lower (PyStr.strip s)) = _normalize_status s
  /\ String.eqb (_normalize_status s) EmptyString = false
  /\ (String.eqb (PyStr.strip s) EmptyString = true ->
      _normalize_status s = "pending").
Proof.
  split; [|split; [|split]].
  - unfold _normalize_status at 1. cbv zeta. rewrite normalize_status_fixed.
    unfold _normalize_status. cbv zeta.
    destruct (PyStr.mem (PyStr.lower (PyStr.strip s)) ["todo"; "pending"]) eqn:H1;
      [reflexivity|].
    destruct (PyStr.mem (PyStr.lower (PyStr.strip s)) ["in_progress"; "in-progress"])
      eqn:H2; [reflexivity|].
    destruct (PyStr.mem (PyStr.lower (PyStr.strip s)) ["done"; "completed"; "complete"])
      eqn:H3; [reflexivity|].
    destruct (PyStr.mem (PyStr.lower (PyStr.strip s)) ["blocked"]) eqn:H4;
      [reflexivity|].
    destruct (PyStr.mem (PyStr.lower (PyStr.strip s)) ["deferred"]) eqn:H5;
      [reflexivity|].
    destruct (String.eqb (PyStr.lower (PyStr.strip s)) EmptyString) eqn:H6;
      [reflexivity|].
    now rewrite H1, H2, H3, H4, H5, H6.
  - unfold _normalize_status. cbv zeta. now rewrite lower_strip_fixed.
  - unfold _normalize_status. cbv zeta.
    repeat match goal with
           | |- context [if ?b then _ else _] => destruct b eqn:?; [reflexivity|]
           end.
    assumption.
  - intros H. apply String.eqb_eq in H. unfold _normalize_status. cbv zeta.
    now rewrite H.
Qed.

(** ** Records of the queue *)

Section QueueOps.

Variable py_repr : json -> string.
Variable py_int_of_str : string -> option Z.

Local Abbreviation qid := (record_id py_repr).

Lemma patch_first_split (task_id : string) (updates : dict) (ts ts' : list dict) :
  patch_first py_repr task_id updates ts = Some ts' ->
  exists pre r post,
    ts = pre ++ r :: post
    /\ (forall x, In x pre -> qid x <> task_id)
    /\ qid r = task_id
    /\ ts' = pre ++ Dict.update r updates :: post.
Proof.
  revert ts'. induction ts as [|t ts IH]; intros ts' H; simpl in H; [discriminate|].
  destruct (String.eqb (qid t) task_id) eqn:He.
  - injection H as <-. apply String.eqb_eq in He.
    exists [], t, ts. simpl.
    split; [reflexivity|]. split; [intros x []|]. split; [assumption | reflexivity].
  - destruct (patch_first py_repr task_id updates ts) as [ts0|]; [|discriminate].
    injection H as <-. destruct (IH _ eq_refl) as [pre [r [post [-> [Hpre [Hr ->]]]]]].
    apply String.eqb_neq in He.
    exists (t :: pre), r, post. simpl.
    split; [reflexivity|]. split; [|split; [assumption | reflexivity]].
    intros x [<- | Hx]; auto.
Qed.

Lemma patch_first_none (task_id : string) (updates : dict) (ts : list dict) :
  patch_first py_repr task_id updates ts = None
  <-> forall r, In r ts -> qid r <> task_id.
Proof.
  induction ts as [|t ts IH]; simpl.
  - split; [intros _ r [] | reflexivity].
  - destruct (String.eqb (qid t) task_id) eqn:He.
    + apply String.eqb_eq in He. split; [discriminate|].
      intros H. destruct (H t (or_introl eq_refl) He).
    + apply String.eqb_neq in He.
      destruct (patch_first py_repr task_id updates ts) as [ts0|]; simpl.
      * split; [discriminate|]. intros H. exfalso.
        assert (Hn : Some ts0 = None)
          by (apply IH; intros r Hr; apply H; now right).
        discriminate.
      * split; [|reflexivity]. intros _ r [<- | Hr]; [assumption|].
        now apply (proj1 IH eq_refl).
Qed.

(** X2: [_update_task] changes the first record that has the id, and
    nothing else.  When it returns, the records of the payload are those
    before, with the first one whose id is [task_id] updated: a key of
    [updates] has its (last) value there, every other key the value it
    had. *)
Theorem update_task_first_match :
  forall (payload payload' : json) (task_id : string) (updates : dict),
    _update_task py_repr payload task_id updates = Ok payload' ->
    exists pre r post,
      _queue_tasks payload = Ok (pre ++ r :: post)
      /\ (forall x, In x pre -> record_id py_repr x <> task_id)
      /\ record_id py_repr r = task_id
      /\ _queue_tasks payload' = Ok (pre ++ Dict.update r updates :: post)
      /\ forall k,
           Dict.get k (Dict.update r updates)
           = match Dict.get k (rev updates) with
             | Some v => Some v
             | None => Dict.get k r
             end.
Proof.
  intros payload payload' task_id updates H.
  destruct (update_task_records py_repr _ _ _ _ H) as [ts [ts' [Hq [Hq' Hp]]]].
  destruct (patch_first_split _ _ _ _ Hp) as [pre [r [post [-> [Hpre [Hr ->]]]]]].
  exists pre, r, post. repeat split; try assumption.
  intros k. apply dict_get_update.
Qed.

(** X3: [_update_task] finds a task or raises [KeyError].  On a payload
    that holds records, it returns when some record has the id, and raises
    [KeyError("Task not found: <id>")] when none has. *)
Theorem update_task_found_or_key_error :
  forall (payload : json) (ts : list dict) (task_id : string) (updates : dict),
    _queue_tasks payload = Ok ts ->
    ((exists r, In r ts /\ record_id py_repr r = task_id) ->
     exists payload', _update_task py_repr payload task_id updates = Ok payload')
    /\ ((forall r, In r ts -> record_id py_repr r <> task_id) ->
        _update_task py_repr payload task_id updates
        = Raise (KeyError ("Task not found: " ++ task_id))).
Proof.
  intros payload ts task_id updates Hq. split.
  - now apply update_task_ok.
  - intros Hnone. apply (patch_first_none task_id updates) in Hnone.
    destruct payload as [| | | |xs|kv]; simpl in *; try discriminate.
    + injection Hq as <-.
      pose proof (update_first_dicts py_repr task_id updates xs) as Hd.
      destruct (update_first py_repr task_id updates xs); [congruence | reflexivity].
    + unfold get_default in *.
      destruct (Dict.get "tasks" kv) as [v|].
      * destruct v as [| | |s|xs|kv']; simpl in Hq; try discriminate; try reflexivity.
        injection Hq as <-.
        pose proof (update_first_dicts py_repr task_id updates xs) as Hd.
        destruct (update_first py_repr task_id updates xs); [congruence | reflexivity].
      * reflexivity.
Qed.

(** X4: the tasks [_load_tasks] gives are the records that have an id, in
    the order of the queue: their ids are the ids of the queue that are not
    blank, their indices increase, and each has the status of its record. *)
Theorem load_tasks_ids :
  forall (payload : json) (ts : list dict) (tasks_all : list Task),
    _queue_tasks payload = Ok ts ->
    _load_tasks py_repr py_int_of_str payload = Ok tasks_all ->
    map id tasks_all = record_ids py_repr ts
    /\ StronglySorted (fun a b => index a < index b) tasks_all
    /\ forall t, In t tasks_all ->
         exists r, nth_error ts (index t) = Some r
                   /\ record_id py_repr r = id t
                   /\ record_status py_repr r = status t.
Proof.
  intros payload ts tasks_all Hq Hl. split; [|split].
  - unfold _load_tasks in Hl. rewrite Hq in Hl. clear Hq.
    unfold record_ids. revert Hl. generalize 0. revert tasks_all.
    induction ts as [|t ts IH]; intros tasks_all idx Hl; simpl in Hl.
    + now injection Hl as <-.
    + destruct (load_record py_repr py_int_of_str idx t) as [o|] eqn:Hr;
        [|discriminate].
      destruct (load_from py_repr py_int_of_str (S idx) ts) as [out|] eqn:Ho;
        [|discriminate].
      injection Hl as <-. simpl. specialize (IH _ _ Ho).
      destruct o as [x|].
      * destruct (load_record_some _ _ _ _ _ Hr) as [_ [Hi [Hne _]]].
        rewrite <- Hi. apply String.eqb_neq in Hne. rewrite Hne. simpl.
        now rewrite IH.
      * apply load_record_none in Hr. rewrite Hr. simpl. exact IH.
  - unfold _load_tasks in Hl. rewrite Hq in Hl.
    exact (load_from_increasing _ _ _ _ _ Hl).
  - intros t Ht. unfold _load_tasks in Hl. rewrite Hq in Hl.
    destruct (load_from_origin _ _ _ _ _ _ Hl Ht) as [_ [r [Hn Hr]]].
    rewrite Nat.sub_0_r in Hn.
    destruct (load_record_some _ _ _ _ _ Hr) as [_ [Hi [_ Hs]]].
    exists r. auto.
Qed.

Lemma set_add_NoDup (x : string) (s : list string) :
  NoDup s -> NoDup (set_add x s).
Proof.
  intros H. unfold set_add. destruct (PyStr.mem x s) eqn:Hm; [assumption|].
  apply mem_false_not_In in Hm. apply NoDup_app; [assumption | | ].
  - repeat constructor. intros [].
  - intros y Hy [<- | []]. contradiction.
Qed.

Lemma derive_workstream_id_named (r : dict) :
  String.eqb (_derive_workstream_id py_repr r) EmptyString = false.
Proof.
  unfold _derive_workstream_id. cbv zeta.
  destruct (String.eqb (PyStr.strip (py_str py_repr
              (get_or r "workstream_id" (JStr EmptyString)))) EmptyString) eqn:He;
    simpl; [|assumption].
  repeat match goal with
         | |- context [if ?b then _ else _] => destruct b; [reflexivity|]
         end.
  reflexivity.
Qed.

Lemma status_default_blank (r : dict) :
  _normalize_status (py_str py_repr (get_or r "status" (JStr EmptyString)))
  = record_status py_repr r.
Proof.
  unfold record_status, get_or.
  destruct (Dict.get "status" r) as [v|]; [|reflexivity].
  destruct (truthy v); reflexivity.
Qed.

(** X5: the active workstreams are those of the records in progress.  On a
    payload that holds records, [_active_workstreams] returns a set: the
    workstream of every record whose status is [in_progress], whether the
    record has an id or not, each once, and none of them empty. *)
Theorem active_workstreams_exact :
  forall (payload : json) (ts : list dict),
    _queue_tasks payload = Ok ts ->
    exists active,
      _active_workstreams py_repr payload = Ok active
      /\ NoDup active
      /\ (forall ws, In ws active
            <-> exists r, In r ts /\ record_status py_repr r = "in_progress"
                          /\ _derive_workstream_id py_repr r = ws)
      /\ Forall (fun ws => String.eqb ws EmptyString = false) active.
Proof.
  intros payload ts Hq.
  destruct (_active_workstreams py_repr payload) as [active|e] eqn:Ha.
  2: { unfold _active_workstreams in Ha. rewrite Hq in Ha. discriminate. }
  exists active. split; [reflexivity|].
  assert (Hin : forall ws, In ws active
            <-> exists r, In r ts /\ record_status py_repr r = "in_progress"
                          /\ _derive_workstream_id py_repr r = ws).
  { intros ws. rewrite (active_workstreams_In py_repr payload active ws Ha). split.
    - intros [ts0 [r [Hq0 [Hr [Hs Hw]]]]]. rewrite Hq in Hq0. injection Hq0 as <-.
      exists r. rewrite <- status_default_blank. auto.
    - intros [r [Hr [Hs Hw]]]. exists ts, r. rewrite status_default_blank. auto. }
  split; [|split; [exact Hin|]].
  - unfold _active_workstreams in Ha. rewrite Hq in Ha. injection Ha as <-.
    assert (Hgen : forall acc, NoDup acc ->
      NoDup (fold_left
               (fun active t =>
                  if String.eqb
                       (_normalize_status
                          (py_str py_repr (get_or t "status" (JStr EmptyString))))
                       "in_progress"
                  then set_add (_derive_workstream_id py_repr t) active
                  else active) ts acc)).
    { clear Hq Hin. induction ts as [|t ts IH]; intros acc Hacc; simpl; [assumption|].
      apply IH. destruct (String.eqb _ "in_progress"); [|assumption].
      now apply set_add_NoDup. }
    apply Hgen. constructor.
  - apply Forall_forall. intros ws Hws. apply Hin in Hws.
    destruct Hws as [r [_ [_ <-]]]. apply derive_workstream_id_named.
Qed.

End QueueOps.

(** ** Files and commands *)

Lemma splitlines_from_cons (c : ascii) (r : string) (cur : list ascii) :
  PyStr.is_linebreak c = false ->
  PyStr.splitlines_from cur (String c r) = PyStr.splitlines_from (c :: cur) r.
Proof. intros H. simpl. now rewrite H. Qed.

Lemma splitlines_from_line (l : string) :
  forall (cur : list ascii) (rest : string),
    plain_line l = true ->
    PyStr.splitlines_from cur (l ++ newline ++ rest)
    = string_of_list_ascii (rev cur ++ list_ascii_of_string l)
      :: PyStr.splitlines_from [] rest.
Proof.
  induction l as [|c l IH]; intros cur rest Hp.
  - simpl. rewrite app_nil_r. destruct rest; reflexivity.
  - unfold plain_line in Hp. simpl in Hp. apply negb_true_iff in Hp.
    apply orb_false_iff in Hp. destruct Hp as [Hc Hl].
    change ((String c l ++ newline ++ rest)%string)
      with (String c (l ++ newline ++ rest)%string).
    rewrite splitlines_from_cons by assumption.
    rewrite IH by (unfold plain_line; now rewrite Hl).
    simpl. now rewrite <- app_assoc.
Qed.

Lemma splitlines_unlines (lines : list string) :
  Forall (fun l => plain_line l = true) lines ->
  PyStr.splitlines (unlines lines) = lines.
Proof.
  unfold PyStr.splitlines. induction 1 as [|l lines Hl _ IH]; [reflexivity|].
  change (unlines (l :: lines)) with ((l ++ newline ++ unlines lines)%string).
  rewrite splitlines_from_line by assumption.
  simpl. now rewrite string_of_list_ascii_of_string, IH.
Qed.

Lemma string_append_assoc (a b c : string) :
  ((a ++ b) ++ c)%string = (a ++ b ++ c)%string.
Proof. induction a as [|x a IH]; simpl; [reflexivity | now rewrite IH]. Qed.

Lemma join_newline_unlines (lines : list string) :
  (PyStr.join newline lines
   ++ match lines with [] => EmptyString | _ => newline end)%string
  = unlines lines.
Proof.
  induction lines as [|l lines IH]; [reflexivity|].
  destruct lines as [|l2 lines].
  - simpl. reflexivity.
  - change (PyStr.join newline (l :: l2 :: lines))
      with ((l ++ newline ++ PyStr.join newline (l2 :: lines))%string).
    change (unlines (l :: l2 :: lines))
      with ((l ++ newline ++ unlines (l2 :: lines))%string).
    rewrite <- IH. now rewrite !string_append_assoc.
Qed.

Section Commands.

Variable Ext : Type.
Variable git : World Ext -> list string -> Z * string.
Variable env : World Ext -> list (string * fnode) * Ext.

(** X6: [_tail_lines] is best effort.  It never raises and never changes
    anything; when the file is missing, or is a directory, it returns the
    empty text. *)
Theorem tail_lines_never_raises :
  forall (path : Path.t) (n : nat) (w : World Ext),
    snd (_tail_lines path n w) = w
    /\ exists text,
         fst (_tail_lines path n w) = Ok text
         /\ match Dict.get (Path.str path) (w_fs w) with
            | Some (File _) => True
            | _ => text = EmptyString
            end.
Proof.
  intros path n w. unfold _tail_lines, read_text, node_at, bind, gets.
  destruct (Dict.get (Path.str path) (w_fs w)) as [[text|]|]; simpl; eauto.
Qed.

(** X7: the tail of a log.  For a file made of lines that each end with
    LF, [_tail_lines path n] with [n > 0] returns the last [n] lines, each
    with its LF: the whole file when it has [n] lines or fewer. *)
Theorem tail_lines_last_lines :
  forall (path : Path.t) (n : nat) (w : World Ext) (lines : list string),
    Dict.get (Path.str path) (w_fs w) = Some (File (unlines lines)) ->
    Forall (fun l => plain_line l = true) lines ->
    0 < n ->
    _tail_lines path n w = (Ok (unlines (last_n n lines)), w)
    /\ (List.length lines <= n -> last_n n lines = lines).
Proof.
  intros path n w lines Hf Hl Hn. split.
  - unfold _tail_lines, read_text, node_at, bind, gets. rewrite Hf. simpl.
    rewrite (splitlines_unlines lines Hl). f_equal. f_equal.
    rewrite <- join_newline_unlines.
    destruct lines as [|l lines]; [reflexivity|].
    destruct (last_n n (l :: lines)) as [|x xs] eqn:Hlast; [|reflexivity].
    exfalso. unfold last_n in Hlast.
    assert (Hlen : List.length (skipn (List.length (l :: lines) - n) (l :: lines)) = 0)
      by now rewrite Hlast.
    rewrite length_skipn in Hlen. change (List.length (l :: lines)) with (S (List.length lines)) in Hlen. lia.
  - intros Hle. unfold last_n. replace (List.length lines - n) with 0 by lia.
    reflexivity.
Qed.

Lemma relative_all_none (repo_root : Path.t) (paths : list Path.t) (p : Path.t) :
  In p paths -> Path.relative_to p repo_root = None ->
  relative_all repo_root paths = Raise (ValueError "is not in the subpath of").
Proof.
  induction paths as [|q paths IH]; intros Hin Hp; [contradiction|]. simpl.
  destruct (Path.relative_to q repo_root) as [r|] eqn:Hq; [|reflexivity].
  destruct Hin as [-> | Hin]; [congruence|]. now rewrite (IH Hin Hp).
Qed.

(** X8: [_git_commit_paths] stops before git when a path is outside the
    repository.  If one of the paths is not under [repo_root], the call
    raises [ValueError] and nothing has been run or changed. *)
Theorem commit_paths_outside_repo :
  forall (repo_root : Path.t) (paths : list Path.t) (message : string)
         (p : Path.t) (w : World Ext),
    In p paths -> Path.relative_to p repo_root = None ->
    exists msg,
      _git_commit_paths git env repo_root paths message w
      = (Raise (ValueError msg), w).
Proof.
  intros repo_root paths message p w Hin Hp.
  unfold _git_commit_paths, bind, lift.
  rewrite (relative_all_none repo_root paths p Hin Hp). eauto.
Qed.

(** X9: [_git_commit_paths] commits only when there is something to
    commit.  When [git add] succeeds and [git status --porcelain] then
    succeeds and prints nothing but whitespace, the call returns and the
    only command that has changed the repository is the [git add]. *)
Theorem commit_paths_nothing_to_commit :
  forall (repo_root : Path.t) (paths : list Path.t) (message : string)
         (rels : list string) (w : World Ext),
    relative_all repo_root paths = Ok rels ->
    let add := ["git"; "add"; "--"] ++ rels in
    let w1 := env_step env (with_git (w_git w ++ [add]) w) in
    fst (git w add) = 0%Z ->
    fst (git w1 ["git"; "status"; "--porcelain=v1"]) = 0%Z ->
    PyStr.strip (snd (git w1 ["git"; "status"; "--porcelain=v1"])) = EmptyString ->
    _git_commit_paths git env repo_root paths message w = (Ok tt, w1).
Proof.
  intros repo_root paths message rels w Hrel add w1 Hadd Hst Hclean.
  assert (Hr : git_reads add = false) by reflexivity.
  unfold _git_commit_paths, _git_has_changes, bind, lift. rewrite Hrel.
  unfold _run at 1. fold add. rewrite Hr.
  destruct (git w add) as [rc out] eqn:Hg. simpl in Hadd. subst rc.
  cbn [andb negb Z.eqb]. fold w1. unfold _run at 1.
  destruct (git w1 ["git"; "status"; "--porcelain=v1"]) as [rc2 out2] eqn:Hg2.
  simpl in Hst, Hclean. subst rc2.
  cbn [andb negb Z.eqb git_reads PyStr.mem existsb String.eqb Ascii.eqb Bool.eqb
       orb snd ret].
  now rewrite Hclean.
Qed.

(** X10: an existing worktree is reused.  When the worktree path exists,
    [_ensure_worktree] runs no command and changes nothing: it returns the
    path and the branch named after its last component if the path holds
    [.git], and raises [RuntimeError] if it does not. *)
Theorem ensure_worktree_existing :
  forall (repo_root : Path.t) (base_branch worktree : string) (w : World Ext)
         (node : fnode),
    let p := Path.resolve (Path.join repo_root worktree) in
    Dict.get (Path.str p) (w_fs w) = Some node ->
    _ensure_worktree git env repo_root base_branch worktree w
    = (match Dict.get (Path.str (Path.join p ".git")) (w_fs w) with
       | Some _ => Ok (p, Path.name (Path.parse worktree))
       | None =>
           Raise (RuntimeError
                    ("Worktree path exists but is not a git worktree: "
                     ++ Path.str p))
       end, w).
Proof.
  intros repo_root base_branch worktree w node p Hp.
  unfold _ensure_worktree, path_exists, node_at, bind, gets, ret. fold p.
  rewrite Hp. destruct (Dict.get (Path.str (Path.join p ".git")) (w_fs w));
    reflexivity.
Qed.

(** X11: a missing worktree is added with one command.  When the worktree
    path does not exist, [_ensure_worktree] runs exactly one command that
    changes the repository: [git worktree add <path> <branch>] if
    [git show-ref] finds the branch, and
    [git worktree add -b <branch> <path> <base>] if it does not; when the
    command fails the call raises [CalledProcessError]. *)
Theorem ensure_worktree_missing :
  forall (repo_root : Path.t) (base_branch worktree : string) (w : World Ext),
    let p := Path.resolve (Path.join repo_root worktree) in
    let branch := Path.name (Path.parse worktree) in
    let found :=
      fst (git w ["git"; "show-ref"; "--verify"; "--quiet";
                  ("refs/heads/" ++ branch)%string]) in
    let cmd :=
      if (found =? 0)%Z
      then ["git"; "worktree"; "add"; Path.str p; branch]
      else ["git"; "worktree"; "add"; "-b"; branch; Path.str p; base_branch] in
    Dict.get (Path.str p) (w_fs w) = None ->
    _ensure_worktree git env repo_root base_branch worktree w
    = (if (fst (git w cmd) =? 0)%Z then Ok (p, branch)
       else Raise (CalledProcessError cmd (fst (git w cmd))),
       env_step env (with_git (w_git w ++ [cmd]) w)).
Proof.
  intros repo_root base_branch worktree w. cbv zeta. intros Hp.
  unfold _ensure_worktree, path_exists, node_at, bind, gets, ret.
  rewrite Hp. unfold _run at 1.
  destruct (git w ("git" :: "show-ref" :: _)) as [rc out].
  cbn [andb negb git_reads PyStr.mem existsb String.eqb Ascii.eqb Bool.eqb orb fst].
  destruct (rc =? 0)%Z; unfold _run;
    destruct (git w ("git" :: "worktree" :: _)) as [rc2 out2];
    cbn [andb negb git_reads PyStr.mem existsb String.eqb Ascii.eqb Bool.eqb orb fst];
    destruct (rc2 =? 0)%Z; reflexivity.
Qed.


End Commands.

(** ** What a tick leaves alone *)

Lemma reads_then {Ext A B : Type} (m : M Ext A) (k : A -> M Ext B) (w : World Ext) :
  keeps eq m ->
  snd (bind m k w) = w \/ exists a, snd (bind m k w) = snd (k a w).
Proof.
  intros H. specialize (H w). unfold bind.
  destruct (m w) as [[a|e] w1]; simpl in *; subst; eauto.
Qed.

(** Steps that read the world and leave it as it is. *)
Ltac reads :=
  unfold node_at, path_exists, read_text;
  repeat first
    [ apply keeps_ret; intro; reflexivity
    | apply keeps_raise; intro; reflexivity
    | apply keeps_gets; intro; reflexivity
    | apply keeps_bind; [intros ? ? ? -> ->; reflexivity | | intro]
    | match goal with
      | |- keeps _ (if ?b then _ else _) => destruct b
      | |- keeps _ (match ?x with _ => _ end) => destruct x
      end ].

Section CalmLib.

Variable Ext : Type.
Variable git : World Ext -> list string -> Z * string.
Variable env : World Ext -> list (string * fnode) * Ext.
Variable F : World Ext -> World Ext -> Prop.
Context {HC : Calm env F}.

Lemma kc_ret {A : Type} (a : A) : keeps F (ret a).
Proof. intros w. apply calm_refl. Qed.

Lemma kc_raise {A : Type} (e : exn) : keeps F (@raise Ext A e).
Proof. intros w. apply calm_refl. Qed.

Lemma kc_lift {A : Type} (r : res A) : keeps F (lift r).
Proof. intros w. apply calm_refl. Qed.

Lemma kc_gets {A : Type} (f : World Ext -> A) : keeps F (gets f).
Proof. intros w. apply calm_refl. Qed.

Lemma kc_bind {A B : Type} (m : M Ext A) (k : A -> M Ext B) :
  keeps F m -> (forall a, keeps F (k a)) -> keeps F (bind m k).
Proof. apply keeps_bind, calm_trans. Qed.

Lemma kc_when (b : bool) (m : M Ext unit) : keeps F m -> keeps F (when b m).
Proof. intros H. destruct b; [exact H | apply kc_ret]. Qed.

Lemma kc_print (s : string) : keeps F (print s).
Proof. intros w. apply calm_out. Qed.

Lemma kc_eprint (s : string) : keeps F (eprint s).
Proof. intros w. apply calm_err. Qed.

Lemma kc_set_fs (f : World Ext -> list (string * fnode)) :
  keeps F (modify (fun w => with_fs (f w) w)).
Proof. intros w. apply calm_fs. Qed.

Lemma kc_write_json (payload : json) : keeps F (@_write_json Ext payload).
Proof. intros w. apply calm_queue. Qed.

Lemma kc_watch : keeps F (_file_watch_once env).
Proof. intros w. apply calm_env. Qed.

Lemma kc_popen (cmd : list string) :
  (forall w, F w (with_procs (w_procs w ++ [cmd]) w)) -> keeps F (popen env cmd).
Proof.
  intros H w. unfold popen. simpl.
  eapply calm_trans; [apply H | apply calm_env].
Qed.

Lemma kc_run (cmd : list string) (check : bool) :
  git_reads cmd = true
  \/ (forall w, F w (with_git (w_git w ++ [cmd]) w)) ->
  keeps F (_run git env cmd check).
Proof.
  intros Hc w. unfold _run. destruct (git w cmd) as [rc out].
  assert (Hw : F w (if git_reads cmd then w
                    else env_step env (with_git (w_git w ++ [cmd]) w))).
  { destruct (git_reads cmd) eqn:Hr; [apply calm_refl|].
    destruct Hc as [Hc | Hc]; [discriminate|].
    eapply calm_trans; [apply Hc | apply calm_env]. }
  destruct (check && negb (rc =? 0)%Z); exact Hw.
Qed.

Lemma kc_tail_lines (path : Path.t) (n : nat) : keeps F (_tail_lines path n).
Proof.
  intros w. unfold _tail_lines, read_text, node_at, bind, gets.
  destruct (Dict.get (Path.str path) (w_fs w)) as [[text|]|]; simpl; apply calm_refl.
Qed.

Lemma kc_catch (m : M Ext unit) :
  keeps F m -> keeps F (catch_called_process_error m).
Proof.
  intros Hm w. specialize (Hm w). unfold catch_called_process_error.
  destruct (m w) as [[u|e] w1]; [exact Hm|]. destruct e; exact Hm.
Qed.

Lemma kc_mkdir_each (ps : list Path.t) : keeps F (mkdir_each ps).
Proof.
  induction ps as [|p ps IH]; simpl; [apply kc_ret|].
  apply kc_bind; [apply kc_gets|]. intros [[text|]|].
  - apply kc_raise.
  - exact IH.
  - apply kc_bind; [apply kc_set_fs | intro; exact IH].
Qed.

(** The session log is written only where it exists: a step guarded by
    [session_log_exists] keeps the frame when it does on a world that has
    the log. *)
Lemma kc_guarded {B : Type} (m : M Ext unit) (k : unit -> M Ext B) :
  (forall w s, w_slog w = Some s -> F w (snd (m w))) ->
  (forall u, keeps F (k u)) ->
  keeps F (bind (@session_log_exists Ext) (fun sl => bind (when sl m) k)).
Proof.
  intros Hm Hk w. unfold bind at 1. unfold session_log_exists, bind, gets, ret.
  destruct (w_slog w) as [s|] eqn:Hs; simpl.
  - specialize (Hm w s Hs). destruct (m w) as [[u|e] w1]; simpl in *; [|assumption].
    eapply calm_trans; [exact Hm | apply Hk].
  - apply Hk.
Qed.

Hypothesis F_slog :
  forall w s t, w_slog w = Some s -> F w (with_slog (Some (s ++ t)%string) w).

Lemma append_session_log_step (text : string) (w : World Ext) (s : string) :
  w_slog w = Some s -> F w (snd (_append_session_log text w)).
Proof.
  intros Hs. unfold _append_session_log, bind, gets, modify. simpl. rewrite Hs.
  destruct (negb (String.eqb s EmptyString) && negb (PyStr.endswith s newline)).
  - rewrite string_append_assoc. now apply F_slog.
  - now apply F_slog.
Qed.

Lemma session_log_start_step (now_minute : Ext -> string)
    (task_id role base_branch kickoff_ref worktree : string)
    (w : World Ext) (s : string) :
  w_slog w = Some s ->
  F w (snd (_session_log_start now_minute task_id role base_branch kickoff_ref
                               worktree w)).
Proof.
  intros Hs. unfold _session_log_start. unfold bind at 1. unfold gets at 1.
  cbv beta iota. exact (append_session_log_step _ w s Hs).
Qed.

Lemma session_log_end_step (now_minute : Ext -> string)
    (task_id role worktree : string) (last : Path.t) (extra : list string)
    (w : World Ext) (s : string) :
  w_slog w = Some s ->
  F w (snd (_session_log_end now_minute task_id role worktree last extra w)).
Proof.
  intros Hs. unfold _session_log_end.
  repeat match goal with
         | |- F w (snd (bind ?m ?k w)) =>
             let H := fresh "H" in
             destruct (reads_then m k w ltac:(reads)) as [H | [? H]];
             rewrite H; clear H; [apply calm_refl | cbv beta]
         end.
  exact (append_session_log_step _ w s Hs).
Qed.

End CalmLib.

Ltac calm_unfold :=
  unfold node_at, path_exists, read_text, write_text, mkdir, unlink, _utc_now,
    _read_json, _git_current_branch, _git_has_changes, _git_commit_paths,
    proc_poll, _load_kickoff_text, _ensure_worktree, _remove_worktree,
    _fast_forward_merge.

Ltac orchestrator_cmd :=
  unfold orchestrator_command;
  first
    [ left; eexists; reflexivity
    | right; left; eexists; reflexivity
    | right; right; left; do 2 eexists; reflexivity
    | right; right; right; left; do 2 eexists; reflexivity
    | right; right; right; right; left; eexists; reflexivity
    | right; right; right; right; right; left; reflexivity
    | right; right; right; right; right; right; eexists; reflexivity ].

Ltac calm_step git env Fgit Fslog Fpopen :=
  lazymatch goal with
  | |- keeps ?F _ =>
      first
        [ apply (kc_ret _ env F) | apply (kc_raise _ env F) | apply (kc_lift _ env F)
        | apply (kc_gets _ env F)
        | apply (kc_print _ env F) | apply (kc_eprint _ env F)
        | apply (kc_set_fs _ env F) | apply (kc_write_json _ env F)
        | apply (kc_watch _ env F)
        | apply (kc_tail_lines _ env F)
        | apply (kc_mkdir_each _ env F)
        | apply (kc_popen _ env F); apply Fpopen; unfold spawn_command;
          do 2 eexists; reflexivity
        | apply (kc_run _ git env F);
          first [ left; reflexivity | right; apply Fgit; orchestrator_cmd ]
        | apply (kc_guarded _ env F);
          [ intros ? ? ?;
            first [ eapply session_log_start_step
                  | eapply session_log_end_step ];
            first [ exact Fslog | eassumption ]
          | intro ]
        | apply (kc_when _ env F)
        | apply (kc_catch _ F)
        | apply (kc_bind _ env F); [|intro]
        | match goal with
          | |- keeps _ (let _ := _ in _) => cbv zeta
          | |- keeps _ (if ?b then _ else _) => destruct b
          | |- keeps _ (match ?x with _ => _ end) => destruct x
          | |- keeps _ (let (_, _) := ?x in _) => destruct x
          end ]
  end.

Section TickKeeps.

Variable py_repr : json -> string.
Variable py_int_of_str : string -> option Z.
Variable Ext : Type.
Variable utc_now : Ext -> string.
Variable now_minute : Ext -> string.
Variable git : World Ext -> list string -> Z * string.
Variable poll : Ext -> nat -> option Z.
Variable env : World Ext -> list (string * fnode) * Ext.
Variable args : Args.
Variable repo_root run_root spawn_script : Path.t.
Variable base_branch : string.
Variable only_ids : list string.
Variable id_re : option (string -> bool).
Variable track_paths : list Path.t.

Variable F : World Ext -> World Ext -> Prop.
Context {HC : Calm env F}.
Hypothesis F_git :
  forall cmd, orchestrator_command base_branch cmd ->
              forall w, F w (with_git (w_git w ++ [cmd]) w).
Hypothesis F_slog :
  forall w s t, w_slog w = Some s -> F w (with_slog (Some (s ++ t)%string) w).
Hypothesis F_popen :
  forall cmd, spawn_command args run_root spawn_script cmd ->
              forall w, F w (with_procs (w_procs w ++ [cmd]) w).

Ltac calm := calm_unfold; repeat calm_step git env F_git F_slog F_popen.

Lemma print_planned_calm (planned : list Task) :
  keeps F (@print_planned Ext repo_root planned).
Proof.
  induction planned as [|t rest IH]; simpl; [calm|].
  apply (kc_bind _ env F); [calm | intros _; exact IH].
Qed.

Lemma spawn_task_calm (t : Task) (a : Pass) :
  keeps F (spawn_task py_repr utc_now now_minute git env args repo_root run_root
                      spawn_script base_branch track_paths t a).
Proof. unfold spawn_task. calm. Qed.

Lemma admission_calm (runnable : list Task) :
  forall a,
    keeps F (admission py_repr utc_now now_minute git env args repo_root run_root
                       spawn_script base_branch track_paths runnable a).
Proof.
  induction runnable as [|t rest IH]; intros a; simpl; [calm|].
  destruct (Dict.has (id t) (running (ad_loop a))); [apply IH|].
  destruct (arg_max_workers args <=? Z.of_nat (List.length (running (ad_loop a))))%Z;
    [calm|].
  destruct ((0 <? arg_per_workstream args)%Z
            && PyStr.mem (workstream_id t) (ad_active a)); [apply IH|].
  apply (kc_bind _ env F); [apply spawn_task_calm | intro; apply IH].
Qed.

Lemma detect_calm (items : list (string * nat)) :
  forall finished, keeps F (detect py_repr utc_now poll run_root items finished).
Proof.
  induction items as [|[task_id proc] rest IH]; intros finished; simpl; [calm|].
  calm; apply IH.
Qed.

Lemma finish_blocked_calm (payload : json) (task_id role wt : string)
    (last : Path.t) (blocker : string) (steps : list string) (note : string) :
  keeps F (finish_blocked py_repr utc_now now_minute git env repo_root track_paths
                          payload task_id role wt last blocker steps note).
Proof. unfold finish_blocked. calm. Qed.

Lemma finish_task_calm (task_id : string) (l : Loop) :
  keeps F (finish_task py_repr py_int_of_str utc_now now_minute git poll env
                       repo_root run_root base_branch track_paths task_id l).
Proof.
  unfold finish_task. calm_unfold.
  repeat first [ apply finish_blocked_calm | calm_step git env F_git F_slog F_popen ].
Qed.

Lemma finish_calm (finished : list string) :
  forall l,
    keeps F (finish py_repr py_int_of_str utc_now now_minute git poll env repo_root
                    run_root base_branch track_paths finished l).
Proof.
  induction finished as [|task_id rest IH]; intros l; simpl; [calm|].
  apply (kc_bind _ env F); [apply finish_task_calm | intro; apply IH].
Qed.

(** Whatever a frame of this kind is, a tick keeps it. *)
Lemma tick_calm (l : Loop) :
  keeps F (tick py_repr py_int_of_str utc_now now_minute git poll env args
                repo_root run_root spawn_script base_branch only_ids id_re
                track_paths l).
Proof.
  unfold tick. calm_unfold.
  repeat first
    [ apply print_planned_calm | apply admission_calm | apply detect_calm
    | apply finish_calm | calm_step git env F_git F_slog F_popen ].
Qed.

End TickKeeps.

Lemma string_append_empty (s : string) : (s ++ "")%string = s.
Proof. induction s as [|c s IH]; simpl; [reflexivity | now rewrite IH]. Qed.

Section CalmFrames.

Variable Ext : Type.
Variable env : World Ext -> list (string * fnode) * Ext.

#[global] Instance git_grows_calm (allowed : list string -> Prop) :
  Calm env (git_grows allowed).
Proof.
  constructor; unfold git_grows; intros; simpl;
    try (exists []; rewrite app_nil_r; split; [reflexivity | constructor]).
  destruct H as [c1 [H1 F1]]. destruct H0 as [c2 [H2 F2]].
  exists (c1 ++ c2). rewrite H2, H1, app_assoc. split; [reflexivity|].
  apply Forall_app. auto.
Qed.

#[global] Instance procs_grow_calm (allowed : list string -> Prop) :
  Calm env (procs_grow allowed).
Proof.
  constructor; unfold procs_grow; intros; simpl;
    try (exists []; rewrite app_nil_r; split; [reflexivity | constructor]).
  destruct H as [c1 [H1 F1]]. destruct H0 as [c2 [H2 F2]].
  exists (c1 ++ c2). rewrite H2, H1, app_assoc. split; [reflexivity|].
  apply Forall_app. auto.
Qed.

Lemma slog_grows_same (w w' : World Ext) : w_slog w' = w_slog w -> slog_grows w w'.
Proof.
  intros H. unfold slog_grows. rewrite H. destruct (w_slog w) as [s|]; [|reflexivity].
  exists EmptyString. now rewrite string_append_empty.
Qed.

#[global] Instance slog_grows_calm : Calm env slog_grows.
Proof.
  constructor; try (intros; apply slog_grows_same; reflexivity).
  intros w1 w2 w3 H12 H23. unfold slog_grows in *.
  destruct (w_slog w1) as [s|].
  - destruct H12 as [t H12]. rewrite H12 in H23. destruct H23 as [t' H23].
    exists (t ++ t')%string. now rewrite <- string_append_assoc.
  - now rewrite H12 in H23.
Qed.

End CalmFrames.

Section LoopKeeps.

Variable py_repr : json -> string.
Variable py_int_of_str : string -> option Z.
Variable Ext : Type.
Variable utc_now : Ext -> string.
Variable now_minute : Ext -> string.
Variable git : World Ext -> list string -> Z * string.
Variable poll : Ext -> nat -> option Z.
Variable env : World Ext -> list (string * fnode) * Ext.
Variable args : Args.
Variable repo_root run_root spawn_script : Path.t.
Variable base_branch : string.
Variable only_ids : list string.
Variable id_re : option (string -> bool).
Variable track_paths : list Path.t.

Local Abbreviation loop_here :=
  (loop py_repr py_int_of_str utc_now now_minute git poll env args repo_root
        run_root spawn_script base_branch only_ids id_re track_paths).

Lemma loop_calm (F : World Ext -> World Ext -> Prop) {HC : Calm env F} :
  (forall cmd, orchestrator_command base_branch cmd ->
               forall w, F w (with_git (w_git w ++ [cmd]) w)) ->
  (forall w s t, w_slog w = Some s -> F w (with_slog (Some (s ++ t)%string) w)) ->
  (forall cmd, spawn_command args run_root spawn_script cmd ->
               forall w, F w (with_procs (w_procs w ++ [cmd]) w)) ->
  forall fuel l, keeps F (loop_here fuel l).
Proof.
  intros Hgit Hslog Hpopen.
  induction fuel as [|fuel IH]; intros l; simpl; [apply (kc_ret _ env F)|].
  apply (kc_bind _ env F).
  - now apply tick_calm.
  - intros [code|l']; [apply (kc_ret _ env F) | apply IH].
Qed.

(** X13: the git commands of a run.  However long the loop of [main]
    runs, and whether it returns or raises, every git command it has run
    that changes the repository is one of: [git add -- <paths>],
    [git commit -m "docs: ..."], [git worktree add <path> <branch>],
    [git worktree add -b <branch> <path> <base branch>],
    [git worktree remove --force <path>], [git checkout <base branch>],
    [git merge --ff-only <branch>]. *)
Theorem loop_git_commands :
  forall (fuel : nat) (l : Loop) (w : World Ext),
    git_grows (orchestrator_command base_branch) w (snd (loop_here fuel l w)).
Proof.
  intros fuel l. apply (loop_calm (git_grows (orchestrator_command base_branch))).
  - intros cmd Hc w. exists [cmd]. split; [reflexivity | now constructor].
  - intros w s t _. exists []. rewrite app_nil_r. split; [reflexivity | constructor].
  - intros cmd _ w. exists []. rewrite app_nil_r. split; [reflexivity | constructor].
Qed.


(** X15: the processes of a run.  However long the loop of [main] runs,
    every process it has started is a supervisor:
    [python3 <spawn script> --repo-root <dir> --task-id <id>
     --run-dir <run root>/<id> --codex-cmd <the command of the arguments>]. *)
Theorem loop_processes :
  forall (fuel : nat) (l : Loop) (w : World Ext),
    procs_grow (spawn_command args run_root spawn_script) w
               (snd (loop_here fuel l w)).
Proof.
  intros fuel l.
  apply (loop_calm (procs_grow (spawn_command args run_root spawn_script))).
  - intros cmd _ w. exists []. rewrite app_nil_r. split; [reflexivity | constructor].
  - intros w s t _. exists []. rewrite app_nil_r. split; [reflexivity | constructor].
  - intros cmd Hc w. exists [cmd]. split; [reflexivity | now constructor].
Qed.

End LoopKeeps.

(** ** The loop *)

Lemma yields_bind_with {Ext A B : Type} (Q : A -> Prop) (P : B -> Prop)
    (m : M Ext A) (k : A -> M Ext B) :
  yields Q m -> (forall a, Q a -> yields P (k a)) -> yields P (bind m k).
Proof.
  intros Hm Hk w b. unfold bind. specialize (Hm w).
  destruct (m w) as [[a|e] w1]; [|discriminate].
  apply Hk. now apply Hm.
Qed.

Lemma dict_remove_length {V : Type} (k : string) (d : list (string * V)) :
  List.length (Dict.remove k d) <= List.length d.
Proof.
  induction d as [|[k0 v0] d IH]; simpl; [lia|].
  destruct (String.eqb k k0); simpl; lia.
Qed.

Lemma dict_set_length {V : Type} (k : string) (v : V) (d : list (string * V)) :
  List.length (Dict.set k v d) <= S (List.length d).
Proof.
  induction d as [|[k0 v0] d IH]; simpl; [lia|].
  destruct (String.eqb k k0); simpl; lia.
Qed.

Ltac yields_cases :=
  repeat first
    [ apply yields_raise
    | apply yields_bind; intro
    | match goal with
      | |- yields _ (let _ := _ in _) => cbv zeta
      | |- yields _ (if ?b then _ else _) => destruct b
      | |- yields _ (match ?x with _ => _ end) => destruct x
      | |- yields _ (let (_, _) := ?x in _) => destruct x
      end ].

Section Cap.

Variable py_repr : json -> string.
Variable py_int_of_str : string -> option Z.
Variable Ext : Type.
Variable utc_now : Ext -> string.
Variable now_minute : Ext -> string.
Variable git : World Ext -> list string -> Z * string.
Variable poll : Ext -> nat -> option Z.
Variable env : World Ext -> list (string * fnode) * Ext.
Variable args : Args.
Variable repo_root run_root spawn_script : Path.t.
Variable base_branch : string.
Variable only_ids : list string.
Variable id_re : option (string -> bool).
Variable track_paths : list Path.t.

Local Abbreviation tick_here :=
  (tick py_repr py_int_of_str utc_now now_minute git poll env args repo_root
        run_root spawn_script base_branch only_ids id_re track_paths).
Local Abbreviation cap := (Z.max 0 (arg_max_workers args)).

Lemma spawn_task_running (t : Task) (a : Pass) :
  yields (fun a' =>
            List.length (running (ad_loop a'))
            <= S (List.length (running (ad_loop a))))
         (spawn_task py_repr utc_now now_minute git env args repo_root run_root
                     spawn_script base_branch track_paths t a).
Proof.
  unfold spawn_task. yields_cases; apply yields_ret; simpl;
    try lia; apply dict_set_length.
Qed.

Lemma admission_running (runnable : list Task) :
  forall a,
    yields (fun a' =>
              (Z.of_nat (List.length (running (ad_loop a')))
               <= Z.max (Z.of_nat (List.length (running (ad_loop a))))
                        (arg_max_workers args))%Z)
           (admission py_repr utc_now now_minute git env args repo_root run_root
                      spawn_script base_branch track_paths runnable a).
Proof.
  induction runnable as [|t rest IH]; intros a; simpl.
  - apply yields_ret. lia.
  - destruct (Dict.has (id t) (running (ad_loop a))); [apply IH|].
    destruct (arg_max_workers args <=? Z.of_nat (List.length (running (ad_loop a))))%Z
      eqn:Hcap; [apply yields_ret; lia|].
    apply Z.leb_gt in Hcap.
    destruct ((0 <? arg_per_workstream args)%Z
              && PyStr.mem (workstream_id t) (ad_active a)); [apply IH|].
    apply (yields_bind_with _ _ _ _ (spawn_task_running t a)).
    intros a1 Ha1 w a' Ha'. pose proof (IH a1 w a' Ha') as Hb.
    cbv beta in Ha1, Hb. lia.
Qed.

Lemma finish_running (finished : list string) :
  forall l,
    yields (fun l' => List.length (running l') <= List.length (running l))
           (finish py_repr py_int_of_str utc_now now_minute git poll env repo_root
                   run_root base_branch track_paths finished l).
Proof.
  induction finished as [|task_id rest IH]; intros l; simpl.
  - apply yields_ret. lia.
  - apply (yields_bind_with _ _ _ _
             (finish_task_running py_repr py_int_of_str _ utc_now now_minute git
                poll env repo_root run_root base_branch track_paths task_id l)).
    intros l1 Hl1 w l' Hl'. pose proof (IH l1 w l' Hl') as Hb.
    cbv beta in Hl1, Hb. rewrite Hl1 in Hb.
    pose proof (dict_remove_length task_id (running l)). lia.
Qed.

Lemma tick_running (l : Loop) :
  yields (fun x =>
            forall l', x = inr l' ->
              (Z.of_nat (List.length (running l'))
               <= Z.max (Z.of_nat (List.length (running l)))
                        (arg_max_workers args))%Z)
         (tick_here l).
Proof.
  unfold tick.
  apply yields_bind; intro payload. apply yields_bind; intro tasks_all.
  cbv zeta.
  match goal with |- yields _ (if ?b then _ else _) => destruct b end.
  { yields_cases; apply yields_ret; discriminate. }
  destruct (arg_dry_run args).
  { yields_cases; apply yields_ret; discriminate. }
  match goal with |- yields _ (if ?b then _ else _) => destruct b end.
  { yields_cases; apply yields_ret; discriminate. }
  apply yields_bind; intro active.
  apply (yields_bind_with _ _ _ _ (admission_running _ _)).
  intros a Ha. simpl in Ha.
  apply yields_bind; intros _. apply yields_bind; intro finished.
  apply (yields_bind_with _ _ _ _ (finish_running _ _)).
  intros l1 Hl1. apply yields_ret. intros l' Hl'. injection Hl' as <-.
  cbv beta in Ha, Hl1. lia.
Qed.

(** X16: the cap on workers holds all along.  In every state the loop of
    [main] comes to, the number of tasks in the running map is at most
    [--max-workers] (and zero when that number is negative). *)
Theorem running_within_cap :
  forall (w0 w : World Ext) (l : Loop),
    reachable py_repr py_int_of_str utc_now now_minute git poll env args
              repo_root run_root spawn_script base_branch only_ids id_re
              track_paths w0 l w ->
    (Z.of_nat (List.length (running l)) <= cap)%Z.
Proof.
  intros w0 w l. induction 1 as [|l w l' w' _ IH Ht|l w _ IH].
  - simpl. lia.
  - pose proof (tick_running l w (inr l')) as Hb. rewrite Ht in Hb.
    specialize (Hb eq_refl l' eq_refl). cbv beta in Hb. lia.
  - exact IH.
Qed.

End Cap.

Ltac printed :=
  repeat first
    [ apply keeps_ret; apply only_printed_refl
    | apply keeps_raise; apply only_printed_refl
    | apply keeps_lift; apply only_printed_refl
    | apply only_printed_print
    | apply only_printed_print_planned
    | apply keeps_bind; [apply only_printed_trans | | intro]
    | match goal with
      | |- keeps _ (if ?b then _ else _) => destruct b
      | |- keeps _ (match ?x with _ => _ end) => destruct x
      end ].

Section Exit.

Variable py_repr : json -> string.
Variable py_int_of_str : string -> option Z.
Variable Ext : Type.
Variable utc_now : Ext -> string.
Variable now_minute : Ext -> string.
Variable git : World Ext -> list string -> Z * string.
Variable poll : Ext -> nat -> option Z.
Variable env : World Ext -> list (string * fnode) * Ext.
Variable args : Args.
Variable repo_root run_root spawn_script : Path.t.
Variable base_branch : string.
Variable only_ids : list string.
Variable id_re : option (string -> bool).
Variable track_paths : list Path.t.

Local Abbreviation tick_here :=
  (tick py_repr py_int_of_str utc_now now_minute git poll env args repo_root
        run_root spawn_script base_branch only_ids id_re track_paths).

Lemma leaves_with {A : Type} (P : A -> Prop) (m : M Ext A) (w w' : World Ext)
    (x : A) :
  m w = (Ok x, w') -> keeps only_printed m -> yields P m ->
  only_printed w w' /\ P x.
Proof.
  intros H Hk Hy. split.
  - specialize (Hk w). now rewrite H in Hk.
  - apply (Hy w). now rewrite H.
Qed.

Lemma read_json_none {A : Type} (k : json -> M Ext A) (w : World Ext) :
  w_queue w = None -> bind (@_read_json Ext) k w = (Raise JSONDecodeError, w).
Proof.
  intros H. unfold bind at 1. unfold _read_json, bind, gets, raise. now rewrite H.
Qed.

(** X17: how a tick ends the run.  When a tick returns an exit code, it has
    changed nothing but the standard output, and the code is 1 exactly when
    [--stop-on-blocked] is set and a task allowed by [--only-task-ids] is
    blocked; otherwise it is 0, and either the run is a dry run or nothing
    is runnable and no worker is running. *)
Theorem tick_exit_code :
  forall (l : Loop) (w w' : World Ext) (code : Z),
    tick_here l w = (Ok (inl code), w') ->
    only_printed w w'
    /\ exists payload tasks_all,
         w_queue w = Some payload
         /\ _load_tasks py_repr py_int_of_str payload = Ok tasks_all
         /\ if match blocked_tasks only_ids tasks_all with
               | [] => false
               | _ => true
               end && arg_stop_on_blocked args
            then code = 1%Z
            else code = 0%Z
                 /\ (arg_dry_run args = true
                     \/ (_runnable_tasks (filter (in_scope only_ids id_re) tasks_all)
                                         (done_ids tasks_all) = []
                         /\ running l = [])).
Proof.
  intros l w w' code H. unfold tick in H.
  destruct (w_queue w) as [payload|] eqn:Hw;
    [|rewrite (read_json_none _ _ Hw) in H; discriminate].
  rewrite (read_json_bind _ _ _ _ Hw) in H.
  unfold bind at 1 in H. unfold lift at 1 in H.
  destruct (_load_tasks py_repr py_int_of_str payload) as [tasks_all|] eqn:Hl;
    [|discriminate].
  cbv zeta in H.
  cut (only_printed w w'
       /\ if match blocked_tasks only_ids tasks_all with
             | [] => false
             | _ => true
             end && arg_stop_on_blocked args
          then code = 1%Z
          else code = 0%Z
               /\ (arg_dry_run args = true
                   \/ (_runnable_tasks (filter (in_scope only_ids id_re) tasks_all)
                                       (done_ids tasks_all) = []
                       /\ running l = []))).
  { intros [H1 H2]. split; [exact H1|]. exists payload, tasks_all. auto. }
  destruct (match blocked_tasks only_ids tasks_all with
            | [] => false
            | _ => true
            end && arg_stop_on_blocked args).
  { destruct (leaves_with (fun x => x = inl 1%Z) _ _ _ _ H) as [H1 H2];
      [printed | yields_cases; apply yields_ret; reflexivity |].
    split; [exact H1 | now injection H2]. }
  destruct (arg_dry_run args).
  { destruct (leaves_with (fun x => x = inl 0%Z) _ _ _ _ H) as [H1 H2];
      [printed | yields_cases; apply yields_ret; reflexivity |].
    split; [exact H1|]. split; [now injection H2 | now left]. }
  destruct (match _runnable_tasks (filter (in_scope only_ids id_re) tasks_all)
                                  (done_ids tasks_all), running l with
            | [], [] => true
            | _, _ => false
            end) eqn:Hidle.
  { destruct (leaves_with (fun x => x = inl 0%Z) _ _ _ _ H) as [H1 H2];
      [printed | yields_cases; apply yields_ret; reflexivity |].
    split; [exact H1|]. split; [now injection H2 | right].
    destruct (_runnable_tasks _ _); [|discriminate].
    destruct (running l); [auto | discriminate]. }
  exfalso.
  match type of H with
  | ?m w = _ =>
      assert (Hy : yields (fun x => exists l', x = inr l') m)
        by (yields_cases; apply yields_ret; eauto)
  end.
  specialize (Hy w (inl code)). rewrite H in Hy.
  destruct (Hy eq_refl) as [l' Hl']. discriminate.
Qed.

End Exit.

Section Unsuccessful.

Variable py_repr : json -> string.
Variable py_int_of_str : string -> option Z.
Variable Ext : Type.
Variable utc_now : Ext -> string.
Variable now_minute : Ext -> string.
Variable git : World Ext -> list string -> Z * string.
Variable poll : Ext -> nat -> option Z.
Variable env : World Ext -> list (string * fnode) * Ext.
Variable repo_root run_root : Path.t.
Variable base_branch : string.
Variable track_paths : list Path.t.

Local Abbreviation fin_task :=
  (finish_task py_repr py_int_of_str utc_now now_minute git poll env repo_root
               run_root base_branch track_paths).

Ltac finish_rest :=
  match goal with
  | Hw : w_queue ?w = Some ?q, Hq : _queue_tasks ?q = Ok ?ts,
    Hst : _ <> "success", Hsame : _ = _ -> _,
    H : bind _ _ ?w = (_, ?w') |- _ =>
      rewrite (read_json_bind _ _ _ _ Hw) in H;
      unfold bind at 1 in H; unfold lift at 1 in H;
      let tasks_all := fresh "tasks_all" in
      destruct (_load_tasks py_repr py_int_of_str q) as [tasks_all|];
      [ | injection H as <- <-; now apply Hsame ];
      cbv zeta beta in H;
      apply String.eqb_neq in Hst; rewrite Hst in H; cbn [negb] in H;
      unfold bind at 1 in H;
      let r1 := fresh "r1" in
      let w1 := fresh "w1" in
      let Hfb := fresh "Hfb" in
      lazymatch type of H with
      | context [finish_blocked ?a1 ?a2 ?a3 ?a4 ?a5 ?a6 ?a7 ?p ?i ?ro ?wt ?la ?bl ?st ?no w] =>
          destruct (finish_blocked a1 a2 a3 a4 a5 a6 a7 p i ro wt la bl st no w)
            as [r1 w1] eqn:Hfb;
          pose proof Hfb as Hspec; apply finish_blocked_spec in Hspec;
          assert (Hw' : w' = w1) by (destruct r1; now injection H);
          subst w1;
          lazymatch type of Hspec with
          | match _update_task _ ?p0 ?i0 ?u0 with _ => _ end =>
              let p' := fresh "p'" in
              let Hu := fresh "Hu" in
              destruct (_update_task py_repr p0 i0 u0) as [p'|] eqn:Hu;
              [ destruct Hspec as [Hq' Hg];
                destruct (update_task_spec py_repr p0 p' ts i0 u0 "blocked" Hq
                            eq_refl eq_refl ltac:(discriminate) Hu)
                  as [ts' [Hts' [Hf _]]];
                split; [exists ts'; split; [now exists p' | exact Hf] | exact Hg]
              | destruct Hspec as [_ Hw0]; now apply Hsame ]
          end
      end
  end.

Lemma step_ok {A B : Type} (m : M Ext A) (k : A -> M Ext B) (w w1 : World Ext)
    (a : A) :
  m w = (Ok a, w1) -> bind m k w = k a w1.
Proof. intros H. unfold bind. now rewrite H. Qed.

(** X18: no success, no completion.  When the DONE file of a finished
    task is missing or its status is not [success], [finish_task] can only
    mark the task blocked: the records of the queue are as they were but
    for a record of the task, whose status is [blocked]; and the only git
    commands it runs that change the repository are those of the docs
    commit, so nothing is merged and no worktree is removed. *)
Theorem finish_task_without_success :
  forall (task_id : string) (l0 : Loop) (w w' : World Ext) (r : res Loop)
         (ts : list dict),
    done_status_at w run_root task_id <> "success" ->
    queue_is w ts ->
    fin_task task_id l0 w = (r, w') ->
    (exists ts',
        queue_is w' ts'
        /\ Forall2 (touched py_repr (retagged py_repr [task_id] ["blocked"])) ts ts')
    /\ git_grows (docs_commit_command ("docs: finish " ++ task_id ++ " (blocked)"))
                 w w'.
Proof.
  intros task_id l0 w w' r ts Hst [q [Hw Hq]] H.
  assert (Hsame : w' = w ->
    (exists ts',
        queue_is w' ts'
        /\ Forall2 (touched py_repr (retagged py_repr [task_id] ["blocked"])) ts ts')
    /\ git_grows (docs_commit_command ("docs: finish " ++ task_id ++ " (blocked)"))
                 w w').
  { intros ->. split.
    - exists ts. split; [now exists q | apply touched_refl].
    - exists []. rewrite app_nil_r. split; [reflexivity | constructor]. }
  unfold finish_task in H.
  assert (Hpoll :
    (match Dict.get task_id (running l0) with
     | Some proc => bind (proc_poll poll proc) (fun _ => ret tt)
     | None => ret tt
     end) w = (Ok tt, w)).
  { destruct (Dict.get task_id (running l0)); reflexivity. }
  rewrite (step_ok _ _ _ _ _ Hpoll) in H.
  assert (Hex : path_exists (Path.join (Path.join run_root task_id)
                                       (task_id ++ ".done")) w
                = (Ok (match Dict.get (Path.str (Path.join (Path.join run_root task_id)
                                                           (task_id ++ ".done")))
                                      (w_fs w) with
                       | Some _ => true
                       | None => false
                       end), w)) by reflexivity.
  rewrite (step_ok _ _ _ _ _ Hex) in H. clear Hex Hpoll.
  unfold done_status_at in Hst.
  destruct (Dict.get (Path.str (Path.join (Path.join run_root task_id)
                                          (task_id ++ ".done"))) (w_fs w))
    as [[text|]|] eqn:Hd.
  - assert (Hin : bind (read_text (Path.join (Path.join run_root task_id)
                                              (task_id ++ ".done")))
                        (fun text => ret (parse_done text)) w
                   = (Ok (parse_done text), w)).
    { unfold read_text, node_at, bind, gets, ret. now rewrite Hd. }
    rewrite (step_ok _ _ _ _ _ Hin) in H. clear Hin.
    unfold done_status in Hst. revert Hst H. generalize (parse_done text).
    intros done_info Hst H. finish_rest.
  - assert (Hin : bind (read_text (Path.join (Path.join run_root task_id)
                                              (task_id ++ ".done")))
                        (fun text => ret (parse_done text)) w
                   = (Raise (OSError "IsADirectoryError"), w)).
    { unfold read_text, node_at, bind, gets, raise. now rewrite Hd. }
    unfold bind at 1 in H. rewrite Hin in H. injection H as <- <-.
    now apply Hsame.
  - assert (Hin : @ret Ext (list (string * string)) [] w = (Ok [], w))
      by reflexivity.
    rewrite (step_ok _ _ _ _ _ Hin) in H. clear Hin.
    assert (Hst' : PyStr.lower (PyStr.strip
                      match Dict.get "status" (@nil (string * string)) with
                      | Some s => s
                      | None => EmptyString
                      end) <> "success") by (simpl; discriminate).
    clear Hst. revert Hst' H. generalize (@nil (string * string)).
    intros done_info Hst H. finish_rest.
Qed.

End Unsuccessful.

(** ** The required commands of a kickoff prompt *)

Lemma extract_commands_named (lines : list string) :
  forall in_section,
    forallb (fun c => negb (String.eqb c EmptyString))
            (extract_commands in_section lines) = true.
Proof.
  induction lines as [|raw rest IH]; intros in_section; simpl; [reflexivity|].
  destruct in_section; simpl; [|apply IH].
  destruct (ends_commands (PyStr.strip raw)); [reflexivity|].
  destruct (bullet_item (PyStr.strip raw)) as [g|]; [|apply IH].
  destruct (String.eqb (unquote (PyStr.strip g)) EmptyString) eqn:He; simpl;
    [apply IH|]. rewrite He. simpl. apply IH.
Qed.

Lemma extract_commands_no_heading (lines : list string) :
  forallb (fun l => negb (is_commands_heading (PyStr.strip l))) lines = true ->
  extract_commands false lines = [].
Proof.
  induction lines as [|raw rest IH]; simpl; [reflexivity|].
  intros H. apply andb_true_iff in H. destruct H as [Hh Hr].
  apply negb_true_iff in Hh. rewrite Hh. now apply IH.
Qed.

(** X19: the section of the required commands.  The commands
    [_extract_required_commands] returns are never empty; a prompt without
    the heading "## Commands (required)" (or "Commands (required)", in any
    case of the letters) gives none; and inside the section the first line
    that starts another "## " heading ends the list, whatever follows. *)
Theorem extract_required_commands_section :
  forall (text : string),
    forallb (fun c => negb (String.eqb c EmptyString))
            (_extract_required_commands text) = true
    /\ (forallb (fun l => negb (is_commands_heading (PyStr.strip l)))
                (PyStr.splitlines text) = true ->
        _extract_required_commands text = [])
    /\ forall (pre post : list string) (h : string),
         ends_commands (PyStr.strip h) = true ->
         extract_commands true (pre ++ h :: post) = extract_commands true pre.
Proof.
  intros text. split; [apply extract_commands_named|].
  split; [apply extract_commands_no_heading|].
  intros pre post h Hh. induction pre as [|raw rest IH]; simpl.
  - now rewrite Hh.
  - destruct (ends_commands (PyStr.strip raw)); [reflexivity|].
    destruct (bullet_item (PyStr.strip raw)) as [g|]; [|exact IH].
    destruct (negb (String.eqb (unquote (PyStr.strip g)) EmptyString));
      [now rewrite IH | exact IH].
Qed.

(** ** The start of [main] *)

Section Start.

Variable py_repr : json -> string.
Variable py_int_of_str : string -> option Z.
Variable re_compile : string -> option (string -> bool).
Variable Ext : Type.
Variable utc_now : Ext -> string.
Variable now_minute : Ext -> string.
Variable git : World Ext -> list string -> Z * string.
Variable poll : Ext -> nat -> option Z.
Variable env : World Ext -> list (string * fnode) * Ext.

Local Abbreviation main_here :=
  (main py_repr py_int_of_str re_compile utc_now now_minute git poll env).

(** X20: no spawn script, no run.  Outside a dry run, when the run root
    can be made and [scripts/spawn_worker.py] is not in the repository,
    [main] prints "Missing spawn script: <path>" on the standard error and
    returns 2; it has read no queue and run no command, and the run root is
    the only thing it has made. *)
Theorem main_missing_spawn_script :
  forall (fuel : nat) (args : Args) (w w1 : World Ext),
    let repo_root := Path.resolve (Path.parse (arg_repo_root args)) in
    let run_root := Path.resolve (Path.join repo_root (arg_run_root args)) in
    let spawn_script :=
      Path.resolve (Path.join (Path.join repo_root "scripts") "spawn_worker.py") in
    arg_dry_run args = false ->
    mkdir run_root w = (Ok tt, w1) ->
    Dict.get (Path.str spawn_script) (w_fs w1) = None ->
    main_here fuel args w
    = (Ok (Some 2%Z),
       with_err (w_err w1 ++ [("Missing spawn script: " ++ Path.str spawn_script)%string])
                w1).
Proof.
  intros fuel args w w1 repo_root run_root spawn_script Hdry Hmk Hnone.
  unfold main. cbv zeta. rewrite Hdry. cbn [negb].
  fold repo_root. fold run_root. fold spawn_script.
  unfold bind at 1. unfold bind at 1. rewrite Hmk.
  unfold bind at 1. unfold path_exists at 1, node_at, bind, gets, ret.
  rewrite Hnone. reflexivity.
Qed.

End Start.

(** ** The DONE file *)

Lemma fold_done_get (lines : list string) :
  forall (info : list (string * string)) (k : string),
    Dict.get k
      (fold_left
         (fun info line =>
            if PyStr.contains "=" line then
              let (k, v) := PyStr.split_once "=" line in
              Dict.set (PyStr.strip k) (PyStr.strip v) info
            else info)
         lines info)
    = match Dict.get k
              (rev (map (fun line =>
                           let (k, v) := PyStr.split_once "=" line in
                           (PyStr.strip k, PyStr.strip v))
                        (filter (PyStr.contains "=") lines))) with
      | Some v => Some v
      | None => Dict.get k info
      end.
Proof.
  induction lines as [|line lines IH]; intros info k; simpl; [reflexivity|].
  rewrite IH. destruct (PyStr.contains "=" line); [|reflexivity].
  simpl. rewrite dict_get_app.
  destruct (Dict.get k (rev _)) as [v|]; [reflexivity|].
  destruct (PyStr.split_once "=" line) as [k0 v0].
  rewrite dict_get_set. unfold Dict.get.
  destruct (String.eqb k (PyStr.strip k0)); reflexivity.
Qed.

(** X21: in a DONE file the last assignment wins.  The value
    [parse_done] gives a key is the one of the last line [key=value] that
    has the key, keys and values being taken without the whitespace around
    them; lines without [=] do not count, and a key no line has is
    absent. *)
Theorem parse_done_last_wins :
  forall (text k : string),
    Dict.get k (parse_done text) = Dict.get k (rev (done_entries text)).
Proof.
  intros text k. unfold parse_done, done_entries. rewrite fold_done_get.
  now destruct (Dict.get k (rev _)).
Qed.

(** ** Admission and the running map *)

Section Passes.

Variable py_repr : json -> string.
Variable py_int_of_str : string -> option Z.
Variable Ext : Type.
Variable utc_now : Ext -> string.
Variable now_minute : Ext -> string.
Variable git : World Ext -> list string -> Z * string.
Variable poll : Ext -> nat -> option Z.
Variable env : World Ext -> list (string * fnode) * Ext.
Variable args : Args.
Variable repo_root run_root spawn_script : Path.t.
Variable base_branch : string.
Variable only_ids : list string.
Variable id_re : option (string -> bool).
Variable track_paths : list Path.t.

Local Abbreviation admit_here :=
  (admission py_repr utc_now now_minute git env args repo_root run_root
             spawn_script base_branch track_paths).
Local Abbreviation reached :=
  (reachable py_repr py_int_of_str utc_now now_minute git poll env args repo_root
             run_root spawn_script base_branch only_ids id_re track_paths).

Lemma admission_follows_plan (runnable : list Task) :
  arg_dry_run args = false ->
  forall (a a' : Pass) (planned : list Task) (w w' : World Ext),
    Dict.keys (running (ad_loop a)) = map id planned ->
    NoDup (map id planned ++ map id runnable) ->
    admit_here runnable a w = (Ok a', w') ->
    Dict.keys (running (ad_loop a'))
    = map id (plan args runnable (ad_active a) planned).
Proof.
  intros Hdry.
  induction runnable as [|t rest IH]; intros a a' planned w w' Hk Hnd H; simpl in H.
  - injection H as <- <-. exact Hk.
  - assert (Hnd' : NoDup (map id planned ++ map id rest))
      by (simpl in Hnd; now apply NoDup_remove_1 in Hnd).
    assert (Hnew : Dict.has (id t) (running (ad_loop a)) = false).
    { destruct (Dict.has (id t) (running (ad_loop a))) eqn:Hh; [|reflexivity].
      apply dict_has_In in Hh. rewrite Hk in Hh.
      simpl in Hnd. apply NoDup_remove_2 in Hnd. exfalso. apply Hnd.
      apply in_or_app. now left. }
    assert (Hlen : List.length (running (ad_loop a)) = List.length planned).
    { rewrite <- (length_map fst), <- (length_map id planned).
      unfold Dict.keys in Hk. now rewrite Hk. }
    rewrite Hnew, Hlen in H. simpl plan.
    destruct (arg_max_workers args <=? Z.of_nat (List.length planned))%Z.
    { injection H as <- <-. exact Hk. }
    destruct ((0 <? arg_per_workstream args)%Z
              && PyStr.mem (workstream_id t) (ad_active a)).
    { now apply (IH a a' planned w w'). }
    apply bind_inv in H. destruct H as [[e [_ He]] | [a1 [w1 [Hsp Hrest]]]];
      [discriminate|].
    pose proof (spawn_task_pass py_repr _ utc_now now_minute git env args repo_root
                  run_root spawn_script base_branch track_paths t a Hdry w a1) as Hp.
    rewrite Hsp in Hp. destruct (Hp eq_refl) as [[proc Hrun] Hact].
    rewrite <- Hact. apply (IH a1 a' (planned ++ [t]) w1 w'); [| |exact Hrest].
    + rewrite Hrun, (dict_set_absent _ _ _ _ Hnew), dict_keys_app, map_app, Hk.
      reflexivity.
    + rewrite map_app. simpl. rewrite <- app_assoc. exact Hnd.
Qed.

(** X22: the dry run shows what a pass would take.  When no worker is
    running and the ids of the ready tasks are distinct, the tasks a pass
    of the admission loop that returns has put in the running map are those
    the loop of the dry run plans from the same ready tasks and active
    workstreams, in the same order. *)
Theorem dry_run_predicts_admission :
  forall (runnable : list Task) (a a' : Pass) (w w' : World Ext),
    arg_dry_run args = false ->
    running (ad_loop a) = [] ->
    NoDup (map id runnable) ->
    admit_here runnable a w = (Ok a', w') ->
    Dict.keys (running (ad_loop a'))
    = map id (plan args runnable (ad_active a) []).
Proof.
  intros runnable a a' w w' Hdry Hrun Hnd H.
  apply (admission_follows_plan runnable Hdry a a' [] w w'); try assumption.
  now rewrite Hrun.
Qed.

(** X23: what the admission loop does to the queue.  The loop runs on the
    payload the queue file holds; the ready tasks have ids.  Whether it
    returns or raises, the queue file then holds the same records but for
    records of tasks it went through, now [in_progress]; when it returns,
    the ids it has added to the running map are those of these tasks, and
    with unique ids every record that has one of them is [in_progress]. *)
Theorem admission_marks_in_progress :
  forall (runnable : list Task) (a : Pass) (w w' : World Ext) (r : res Pass)
         (ts : list dict),
    arg_dry_run args = false ->
    (forall t, In t runnable -> id t <> EmptyString) ->
    w_queue w = Some (ad_payload a) ->
    _queue_tasks (ad_payload a) = Ok ts ->
    admit_here runnable a w = (r, w') ->
    exists ts' admitted,
      queue_is w' ts'
      /\ incl admitted (map id runnable)
      /\ Forall2 (touched py_repr (retagged py_repr admitted ["in_progress"])) ts ts'
      /\ forall a', r = Ok a' ->
           Dict.keys (running (ad_loop a'))
           = Dict.keys (running (ad_loop a)) ++ admitted
           /\ (unique_ids py_repr ts ->
               forall r', In r' ts' -> In (record_id py_repr r') admitted ->
                          record_status py_repr r' = "in_progress").
Proof.
  intros runnable a w w' r ts Hdry Hids Hw Hq H.
  destruct (admission_queue py_repr _ utc_now now_minute git env args repo_root
              run_root spawn_script base_branch track_paths runnable Hdry Hids
              a w w' r ts Hw Hq H)
    as [ts' [adm [Hts' [Hincl [Hf Hok]]]]].
  exists ts', adm. repeat (split; [assumption|]).
  intros a' Ha'. destruct (Hok a' Ha') as [Hk [_ Hex]]. auto.
Qed.

(** X24: the running map and the queue agree.  From a queue whose ids are
    unique, in every state the loop of [main] comes to, the keys of the
    running map are distinct and not empty, the ids of the queue are still
    unique, and every record whose id is in the running map is
    [in_progress]. *)
Theorem running_tasks_are_in_progress :
  forall (w0 w : World Ext) (l : Loop) (q : json) (ts : list dict),
    (forall q0 ts0, w_queue w0 = Some q0 -> _queue_tasks q0 = Ok ts0 ->
                    unique_ids py_repr ts0) ->
    reached w0 l w ->
    w_queue w = Some q -> _queue_tasks q = Ok ts ->
    NoDup (Dict.keys (running l))
    /\ ~ In EmptyString (Dict.keys (running l))
    /\ unique_ids py_repr ts
    /\ forall r, In r ts -> In (record_id py_repr r) (Dict.keys (running l)) ->
                 record_status py_repr r = "in_progress".
Proof.
  intros w0 w l q ts Hu Hreach Hw Hq.
  assert (Hc : consistent py_repr l w)
    by (eapply reachable_consistent; eassumption).
  destruct Hc as [Hnd [Hne Hc]]. destruct (Hc q ts Hw Hq) as [Hu' Hip]. auto.
Qed.

End Passes.

(** ** A task that succeeds *)

Section Completes.

Variable py_repr : json -> string.
Variable py_int_of_str : string -> option Z.
Variable Ext : Type.
Variable utc_now : Ext -> string.
Variable now_minute : Ext -> string.
Variable git : World Ext -> list string -> Z * string.
Variable poll : Ext -> nat -> option Z.
Variable env : World Ext -> list (string * fnode) * Ext.
Variable repo_root run_root : Path.t.
Variable base_branch : string.
Variable track_paths : list Path.t.

Local Abbreviation fin_task :=
  (finish_task py_repr py_int_of_str utc_now now_minute git poll env repo_root
               run_root base_branch track_paths).



End Completes.

(** * The further properties at concrete inputs *)

(** X2: in a queue with two records of id [A], the update changes the
    first. *)
Lemma update_task_first_match_witness :
  exists pre r post,
    _queue_tasks Sample.queue_twice = Ok (pre ++ r :: post)
    /\ (forall x, In x pre -> record_id Sample.repr x <> "A")
    /\ record_id Sample.repr r = "A"
    /\ _queue_tasks (JArr [Sample.task "A" "blocked" []; Sample.task "A" "todo" []])
       = Ok (pre ++ Dict.update r [("status", JStr "blocked")] :: post)
    /\ forall k,
         Dict.get k (Dict.update r [("status", JStr "blocked")])
         = match Dict.get k (rev [("status", JStr "blocked")]) with
           | Some v => Some v
           | None => Dict.get k r
           end.
Proof.
  exact (update_task_first_match Sample.repr Sample.queue_twice
           (JArr [Sample.task "A" "blocked" []; Sample.task "A" "todo" []])
           "A" [("status", JStr "blocked")] eq_refl).
Defined.

(** X3: the queue has a record of id [A] and none of id [Z]. *)
Lemma update_task_found_or_key_error_witness :
  (exists payload',
      _update_task Sample.repr Sample.queue_twice "A" [("status", JStr "blocked")]
      = Ok payload')
  /\ _update_task Sample.repr Sample.queue_twice "Z" [("status", JStr "blocked")]
     = Raise (KeyError ("Task not found: " ++ "Z")).
Proof.
  split.
  - apply (proj1 (update_task_found_or_key_error Sample.repr Sample.queue_twice
                    (Sample.records_of Sample.queue_twice) "A"
                    [("status", JStr "blocked")] eq_refl)).
    eexists. split; [left; reflexivity | reflexivity].
  - apply (proj2 (update_task_found_or_key_error Sample.repr Sample.queue_twice
                    (Sample.records_of Sample.queue_twice) "Z"
                    [("status", JStr "blocked")] eq_refl)).
    intros r [<-|[<-|[]]]; vm_compute; discriminate.
Defined.

(** X4: of the three records of [Sample.queue_blank] one has an id. *)
Lemma load_tasks_ids_witness :
  map id (Sample.tasks_of Sample.queue_blank)
  = record_ids Sample.repr (Sample.records_of Sample.queue_blank)
  /\ StronglySorted (fun a b => index a < index b)
                    (Sample.tasks_of Sample.queue_blank)
  /\ forall t, In t (Sample.tasks_of Sample.queue_blank) ->
       exists r, nth_error (Sample.records_of Sample.queue_blank) (index t) = Some r
                 /\ record_id Sample.repr r = id t
                 /\ record_status Sample.repr r = status t.
Proof.
  exact (load_tasks_ids Sample.repr Sample.int_of_str Sample.queue_blank
           (Sample.records_of Sample.queue_blank)
           (Sample.tasks_of Sample.queue_blank) eq_refl eq_refl).
Defined.

(** X5: the two records in progress of [Fixture.queue_active]. *)
Lemma active_workstreams_exact_witness :
  exists active,
    _active_workstreams Sample.repr Fixture.queue_active = Ok active
    /\ NoDup active
    /\ (forall ws, In ws active
          <-> exists r, In r (Sample.records_of Fixture.queue_active)
                        /\ record_status Sample.repr r = "in_progress"
                        /\ _derive_workstream_id Sample.repr r = ws)
    /\ Forall (fun ws => String.eqb ws EmptyString = false) active.
Proof.
  exact (active_workstreams_exact Sample.repr Fixture.queue_active
           (Sample.records_of Fixture.queue_active) eq_refl).
Defined.

(** X7: the last line of the log of task [A]. *)
Lemma tail_lines_last_lines_witness :
  _tail_lines (Path.parse "/repo/.runs/A/worker.log") 1
              (Sample.world Sample.queue3 Sample.old_run)
  = (Ok (unlines (last_n 1 ["starting"; "boom"])),
     Sample.world Sample.queue3 Sample.old_run).
Proof.
  refine (proj1 (tail_lines_last_lines unit
                   (Path.parse "/repo/.runs/A/worker.log") 1
                   (Sample.world Sample.queue3 Sample.old_run)
                   ["starting"; "boom"] _ _ _)).
  - reflexivity.
  - repeat constructor.
  - exact (le_n 1).
Defined.

(** X8: a tracked path outside [/repo]. *)
Lemma commit_paths_outside_repo_witness :
  exists msg,
    _git_commit_paths Sample.git_ok Sample.still (Path.parse "/repo")
      [Path.parse "/repo/docs/tasks.json"; Path.parse "/elsewhere/notes.md"]
      "docs: start A" (Sample.world Sample.queue3 [])
    = (Raise (ValueError msg), Sample.world Sample.queue3 []).
Proof.
  refine (commit_paths_outside_repo unit Sample.git_ok Sample.still
            (Path.parse "/repo")
            [Path.parse "/repo/docs/tasks.json"; Path.parse "/elsewhere/notes.md"]
            "docs: start A" (Path.parse "/elsewhere/notes.md")
            (Sample.world Sample.queue3 []) _ _).
  - right. left. reflexivity.
  - reflexivity.
Defined.

(** X9: with a clean working tree the queue file is added and nothing is
    committed. *)
Lemma commit_paths_nothing_to_commit_witness :
  _git_commit_paths Fixture.git_clean Sample.still (Path.parse "/repo")
    [Path.parse "/repo/docs/tasks.json"] "docs: start A"
    (Sample.world Sample.queue3 [])
  = (Ok tt,
     env_step Sample.still
       (with_git (w_git (Sample.world Sample.queue3 [])
                  ++ [["git"; "add"; "--"] ++ ["docs/tasks.json"]])
                 (Sample.world Sample.queue3 []))).
Proof.
  exact (commit_paths_nothing_to_commit unit Fixture.git_clean Sample.still
           (Path.parse "/repo") [Path.parse "/repo/docs/tasks.json"]
           "docs: start A" ["docs/tasks.json"] (Sample.world Sample.queue3 [])
           eq_refl eq_refl eq_refl eq_refl).
Defined.

(** X10: the worktree [wt/A] is there and holds [.git]. *)
Lemma ensure_worktree_existing_witness :
  _ensure_worktree Sample.git_ok Sample.still (Path.parse "/repo") "main" "wt/A"
                   (Sample.world Sample.queue3 Sample.worktree_files)
  = (Ok (Path.parse "/repo/wt/A", "A"),
     Sample.world Sample.queue3 Sample.worktree_files).
Proof.
  exact (ensure_worktree_existing unit Sample.git_ok Sample.still
           (Path.parse "/repo") "main" "wt/A"
           (Sample.world Sample.queue3 Sample.worktree_files) Directory eq_refl).
Defined.

(** X11: the worktree [wt/A] is missing and its branch exists. *)
Lemma ensure_worktree_missing_witness :
  _ensure_worktree Sample.git_ok Sample.still (Path.parse "/repo") "main" "wt/A"
                   (Sample.world Sample.queue3 [])
  = (Ok (Path.parse "/repo/wt/A", "A"),
     env_step Sample.still
       (with_git [["git"; "worktree"; "add"; "/repo/wt/A"; "A"]]
                 (Sample.world Sample.queue3 []))).
Proof.
  exact (ensure_worktree_missing unit Sample.git_ok Sample.still
           (Path.parse "/repo") "main" "wt/A" (Sample.world Sample.queue3 [])
           eq_refl).
Defined.

Local Abbreviation alive_tick :=
  (tick Sample.repr Sample.int_of_str Sample.now Sample.minute Sample.git_ok
        Fixture.alive Sample.still (Sample.args false false "" "")
        (Path.parse "/repo") (Path.parse "/repo/.runs")
        (Path.parse "/repo/scripts/spawn_worker.py") "main" [] None
        [Path.parse "/repo/docs/tasks.json"]).

Local Abbreviation first_world :=
  (snd (alive_tick (mkLoop [] [] []) (Sample.world Sample.queue_streams []))).

Lemma first_tick_reached :
  reachable Sample.repr Sample.int_of_str Sample.now Sample.minute Sample.git_ok
            Fixture.alive Sample.still (Sample.args false false "" "")
            (Path.parse "/repo") (Path.parse "/repo/.runs")
            (Path.parse "/repo/scripts/spawn_worker.py") "main" [] None
            [Path.parse "/repo/docs/tasks.json"]
            (Sample.world Sample.queue_streams [])
            Fixture.two_running first_world.
Proof.
  eapply reach_tick; [apply reach_start|].
  vm_compute. reflexivity.
Qed.

(** X16: two workers at most, and two are running after the first tick. *)
Lemma running_within_cap_witness :
  (Z.of_nat (List.length (running Fixture.two_running))
   <= Z.max 0 (arg_max_workers (Sample.args false false "" "")))%Z.
Proof.
  exact (running_within_cap Sample.repr Sample.int_of_str unit Sample.now
           Sample.minute Sample.git_ok Fixture.alive Sample.still
           (Sample.args false false "" "") (Path.parse "/repo")
           (Path.parse "/repo/.runs")
           (Path.parse "/repo/scripts/spawn_worker.py") "main" [] None
           [Path.parse "/repo/docs/tasks.json"]
           (Sample.world Sample.queue_streams []) first_world
           Fixture.two_running first_tick_reached).
Defined.

(** X24: after the first tick [A] and [B] are running and in progress. *)
Lemma running_tasks_are_in_progress_witness :
  NoDup (Dict.keys (running Fixture.two_running))
  /\ ~ In EmptyString (Dict.keys (running Fixture.two_running))
  /\ unique_ids Sample.repr (Sample.records_of (Fixture.queue_of first_world))
  /\ forall r,
       In r (Sample.records_of (Fixture.queue_of first_world)) ->
       In (record_id Sample.repr r) (Dict.keys (running Fixture.two_running)) ->
       record_status Sample.repr r = "in_progress".
Proof.
  refine (running_tasks_are_in_progress Sample.repr Sample.int_of_str unit
            Sample.now Sample.minute Sample.git_ok Fixture.alive Sample.still
            (Sample.args false false "" "") (Path.parse "/repo")
            (Path.parse "/repo/.runs")
            (Path.parse "/repo/scripts/spawn_worker.py") "main" [] None
            [Path.parse "/repo/docs/tasks.json"]
            (Sample.world Sample.queue_streams []) first_world
            Fixture.two_running
            (Fixture.queue_of first_world)
            (Sample.records_of (Fixture.queue_of first_world))
            _ first_tick_reached _ _).
  - intros q0 ts0 Hw Hq. injection Hw as <-. vm_compute in Hq. injection Hq as <-.
    unfold unique_ids. vm_compute. repeat constructor; simpl; intuition discriminate.
  - vm_compute. reflexivity.
  - vm_compute. reflexivity.
Defined.

Local Abbreviation stop_tick :=
  (tick Sample.repr Sample.int_of_str Sample.now Sample.minute Sample.git_ok
        Sample.exited Sample.still (Sample.args true false "" "")
        (Path.parse "/repo") (Path.parse "/repo/.runs")
        (Path.parse "/repo/scripts/spawn_worker.py") "main" [] None
        [Path.parse "/repo/docs/tasks.json"]).

Local Abbreviation sample_finish :=
  (finish_task Sample.repr Sample.int_of_str Sample.now Sample.minute
               Sample.git_ok Sample.exited Sample.still (Path.parse "/repo")
               (Path.parse "/repo/.runs") "main"
               [Path.parse "/repo/docs/tasks.json"]).

Local Abbreviation sample_admission :=
  (admission Sample.repr Sample.now Sample.minute Sample.git_ok Sample.still
             (Sample.args false false "" "") (Path.parse "/repo")
             (Path.parse "/repo/.runs")
             (Path.parse "/repo/scripts/spawn_worker.py") "main"
             [Path.parse "/repo/docs/tasks.json"]).

(** X17: with [--stop-on-blocked] and a blocked task the tick returns 1. *)
Lemma tick_exit_code_witness :
  only_printed (Sample.world Sample.queue_blocked [])
               (snd (stop_tick (mkLoop [] [] []) (Sample.world Sample.queue_blocked [])))
  /\ exists payload tasks_all,
       w_queue (Sample.world Sample.queue_blocked []) = Some payload
       /\ _load_tasks Sample.repr Sample.int_of_str payload = Ok tasks_all
       /\ if match blocked_tasks [] tasks_all with
             | [] => false
             | _ => true
             end && arg_stop_on_blocked (Sample.args true false "" "")
          then 1%Z = 1%Z
          else 1%Z = 0%Z
               /\ (arg_dry_run (Sample.args true false "" "") = true
                   \/ (_runnable_tasks (filter (in_scope [] None) tasks_all)
                                       (done_ids tasks_all) = []
                       /\ running (mkLoop [] [] []) = [])).
Proof.
  refine (tick_exit_code Sample.repr Sample.int_of_str unit Sample.now
            Sample.minute Sample.git_ok Sample.exited Sample.still
            (Sample.args true false "" "") (Path.parse "/repo")
            (Path.parse "/repo/.runs")
            (Path.parse "/repo/scripts/spawn_worker.py") "main" [] None
            [Path.parse "/repo/docs/tasks.json"]
            (mkLoop [] [] []) (Sample.world Sample.queue_blocked [])
            (snd (stop_tick (mkLoop [] [] []) (Sample.world Sample.queue_blocked [])))
            1%Z _).
  vm_compute. reflexivity.
Defined.

(** X18: the worker of task [A] is gone and has left no DONE file. *)
Lemma finish_task_without_success_witness :
  (exists ts',
      queue_is (snd (sample_finish "A" Sample.crashed_loop Sample.crashed_world)) ts'
      /\ Forall2 (touched Sample.repr (retagged Sample.repr ["A"] ["blocked"]))
                 (Sample.records_of (JArr [Sample.task "A" "in_progress" []])) ts')
  /\ git_grows (docs_commit_command ("docs: finish " ++ "A" ++ " (blocked)"))
               Sample.crashed_world
               (snd (sample_finish "A" Sample.crashed_loop Sample.crashed_world)).
Proof.
  refine (finish_task_without_success Sample.repr Sample.int_of_str unit
            Sample.now Sample.minute Sample.git_ok Sample.exited Sample.still
            (Path.parse "/repo") (Path.parse "/repo/.runs") "main"
            [Path.parse "/repo/docs/tasks.json"]
            "A" Sample.crashed_loop Sample.crashed_world
            (snd (sample_finish "A" Sample.crashed_loop Sample.crashed_world))
            (fst (sample_finish "A" Sample.crashed_loop Sample.crashed_world))
            (Sample.records_of (JArr [Sample.task "A" "in_progress" []]))
            _ _ _).
  - vm_compute. discriminate.
  - exists (JArr [Sample.task "A" "in_progress" []]). split; reflexivity.
  - apply surjective_pairing.
Defined.

(** X20: the repository of [Fixture.bare_world] has no spawn script. *)
Lemma main_missing_spawn_script_witness :
  main Sample.repr Sample.int_of_str Sample.compile Sample.now Sample.minute
       Sample.git_ok Sample.exited Sample.still 1
       (Sample.args false false "" "") Fixture.bare_world
  = (Ok (Some 2%Z),
     with_err
       (w_err (snd (mkdir (Path.resolve
                             (Path.join (Path.resolve (Path.parse "/repo")) ".runs"))
                          Fixture.bare_world))
        ++ [("Missing spawn script: "
             ++ Path.str (Path.resolve
                            (Path.join (Path.join (Path.resolve (Path.parse "/repo"))
                                                  "scripts")
                                       "spawn_worker.py")))%string])
       (snd (mkdir (Path.resolve
                      (Path.join (Path.resolve (Path.parse "/repo")) ".runs"))
                   Fixture.bare_world))).
Proof.
  exact (main_missing_spawn_script Sample.repr Sample.int_of_str Sample.compile
           unit Sample.now Sample.minute Sample.git_ok Sample.exited Sample.still
           1 (Sample.args false false "" "") Fixture.bare_world
           (snd (mkdir (Path.resolve
                          (Path.join (Path.resolve (Path.parse "/repo")) ".runs"))
                       Fixture.bare_world))
           eq_refl eq_refl eq_refl).
Defined.

(** X22: the pass over [A], [A2] and [B] admits what the dry run plans. *)
Lemma dry_run_predicts_admission_witness :
  Dict.keys (running (ad_loop
    (Sample.pass_of
       (sample_admission (Sample.tasks_of Sample.queue_streams)
          (mkPass Sample.queue_streams [] false (mkLoop [] [] []))
          (Sample.world Sample.queue_streams []))
       (mkPass Sample.queue_streams [] false (mkLoop [] [] [])))))
  = map id (plan (Sample.args false false "" "")
                 (Sample.tasks_of Sample.queue_streams) [] []).
Proof.
  refine (dry_run_predicts_admission Sample.repr unit Sample.now Sample.minute
            Sample.git_ok Sample.still (Sample.args false false "" "")
            (Path.parse "/repo") (Path.parse "/repo/.runs")
            (Path.parse "/repo/scripts/spawn_worker.py") "main"
            [Path.parse "/repo/docs/tasks.json"]
            (Sample.tasks_of Sample.queue_streams)
            (mkPass Sample.queue_streams [] false (mkLoop [] [] []))
            _
            (Sample.world Sample.queue_streams [])
            (snd (sample_admission (Sample.tasks_of Sample.queue_streams)
                    (mkPass Sample.queue_streams [] false (mkLoop [] [] []))
                    (Sample.world Sample.queue_streams [])))
            _ _ _ _).
  - reflexivity.
  - reflexivity.
  - vm_compute. repeat constructor; simpl; intuition discriminate.
  - vm_compute. reflexivity.
Defined.

(** X23: the pass over [A], [A2] and [B]. *)
Lemma admission_marks_in_progress_witness :
  exists ts' admitted,
    queue_is (snd (sample_admission (Sample.tasks_of Sample.queue_streams)
                     (mkPass Sample.queue_streams [] false (mkLoop [] [] []))
                     (Sample.world Sample.queue_streams []))) ts'
    /\ incl admitted (map id (Sample.tasks_of Sample.queue_streams))
    /\ Forall2 (touched Sample.repr (retagged Sample.repr admitted ["in_progress"]))
               (Sample.records_of Sample.queue_streams) ts'
    /\ forall a',
         fst (sample_admission (Sample.tasks_of Sample.queue_streams)
                (mkPass Sample.queue_streams [] false (mkLoop [] [] []))
                (Sample.world Sample.queue_streams [])) = Ok a' ->
         Dict.keys (running (ad_loop a'))
         = Dict.keys (running (ad_loop
                        (mkPass Sample.queue_streams [] false (mkLoop [] [] []))))
           ++ admitted
         /\ (unique_ids Sample.repr (Sample.records_of Sample.queue_streams) ->
             forall r', In r' ts' -> In (record_id Sample.repr r') admitted ->
                        record_status Sample.repr r' = "in_progress").
Proof.
  refine (admission_marks_in_progress Sample.repr unit Sample.now Sample.minute
            Sample.git_ok Sample.still (Sample.args false false "" "")
            (Path.parse "/repo") (Path.parse "/repo/.runs")
            (Path.parse "/repo/scripts/spawn_worker.py") "main"
            [Path.parse "/repo/docs/tasks.json"]
            (Sample.tasks_of Sample.queue_streams)
            (mkPass Sample.queue_streams [] false (mkLoop [] [] []))
            (Sample.world Sample.queue_streams [])
            (snd (sample_admission (Sample.tasks_of Sample.queue_streams)
                    (mkPass Sample.queue_streams [] false (mkLoop [] [] []))
                    (Sample.world Sample.queue_streams [])))
            (fst (sample_admission (Sample.tasks_of Sample.queue_streams)
                    (mkPass Sample.queue_streams [] false (mkLoop [] [] []))
                    (Sample.world Sample.queue_streams [])))
            (Sample.records_of Sample.queue_streams)
            _ _ _ _ _).
  - reflexivity.
  - intros t Ht. vm_compute in Ht.
    destruct Ht as [<-|[<-|[<-|[]]]]; discriminate.
  - reflexivity.
  - reflexivity.
  - apply surjective_pairing.
Defined.

